(** * Theme and responsive-layout coordinators of the dashboard front end

    A shallow embedding of [static/js/theme-toggle.js], [static/js/theme.js]
    and the responsive manager script, with the properties the specification
    states about them.

    JavaScript statements are modelled in a state monad with exceptions: a
    statement maps the browser state to a new state together with a
    completion, normal or abrupt.  A thrown exception keeps every effect
    made before it, as in the language. *)

From Stdlib Require Import ZArith Lia.
From stdpp Require Import base strings list gmap.

Open Scope Z_scope.
Open Scope string_scope.
Open Scope list_scope.

(** ** Statements: state and exceptions *)

Inductive exn := SecurityError | QuotaExceededError | TypeError.

Inductive completion (A : Type) :=
| Normal (a : A)
| Throw (e : exn).
Arguments Normal {A} a.
Arguments Throw {A} e.

Definition JS (S A : Type) : Type := S → S * completion A.

Definition ret {S A} (a : A) : JS S A := λ s, (s, Normal a).

Definition bind {S A B} (k : A → JS S B) (m : JS S A) : JS S B :=
  λ s, match m s with
       | (s', Normal a) => k a s'
       | (s', Throw e) => (s', Throw e)
       end.

Definition throw {S A} (e : exn) : JS S A := λ s, (s, Throw e).

Definition gets {S A} (f : S → A) : JS S A := λ s, (s, Normal (f s)).

Definition modify {S} (f : S → S) : JS S () := λ s, (f s, Normal ()).

(** [when c m]: the statement [if (c) { m }]. *)
Definition when {S} (c : bool) (m : JS S ()) : JS S () :=
  if c then m else ret ().

(** Sequencing is written with stdpp's monad notations [x ← m; k] and
    [m;; k]. *)
#[global] Instance JS_ret {S} : MRet (JS S) := @ret S.
#[global] Instance JS_bind {S} : MBind (JS S) := @bind S.

(** State reached and completion of a run. *)
Definition after {S A} (m : JS S A) (s : S) : S := fst (m s).
Definition completes {S A} (m : JS S A) (s : S) : completion A := snd (m s).

(** ** JavaScript values the scripts test *)

(** A string is falsy exactly when it is empty; [null] is falsy. *)
Definition truthy (v : option string) : bool :=
  match v with
  | Some s => bool_decide (s ≠ "")
  | None => false
  end.

(** [v || d] on a string-or-null value. *)
Definition or_else (v : option string) (d : string) : string :=
  match v with
  | Some s => if bool_decide (s ≠ "") then s else d
  | None => d
  end.

(** ** localStorage

    [items] is the stored key/value data.  The environment decides whether
    the storage may be used at all ([accessible]: a browser with storage
    disabled throws a SecurityError on every access) and whether a write
    fits ([has_room]: [setItem] throws a QuotaExceededError otherwise). *)

Record Storage := mkStorage {
  items : gmap string string;
  accessible : bool;
  has_room : bool;
}.

Definition storage_getItem (k : string) (st : Storage)
  : completion (option string) :=
  if accessible st then Normal (items st !! k) else Throw SecurityError.

Definition storage_setItem (k v : string) (st : Storage)
  : Storage * completion () :=
  if accessible st then
    if has_room st then
      (mkStorage (<[k := v]> (items st)) (accessible st) (has_room st), Normal ())
    else (st, Throw QuotaExceededError)
  else (st, Throw SecurityError).

Definition storage_removeItem (k : string) (st : Storage)
  : Storage * completion () :=
  if accessible st then
    (mkStorage (delete k (items st)) (accessible st) (has_room st), Normal ())
  else (st, Throw SecurityError).

(** ** The theme table, identical in both theme scripts *)

Record ThemeConfig := mkThemeConfig {
  name : string;
  icon : string;
  class : string;
}.

Definition themes : gmap string ThemeConfig :=
  {[ "light" := mkThemeConfig "浅色模式" "bi-sun-fill" "";
     "dark" := mkThemeConfig "深色模式" "bi-moon-fill" "dark" ]}.

(** [themes] is an object literal, so a property read [themes[k]] falls back
    on [Object.prototype] when [k] is not an own key.  Each inherited
    property is a function (or, for [__proto__], the prototype object): a
    truthy value whose [icon] is undefined.  The table gives the [name]
    property of each inherited value. *)
Definition object_prototype : list (string * option string) :=
  [ ("constructor", Some "Object");
    ("hasOwnProperty", Some "hasOwnProperty");
    ("isPrototypeOf", Some "isPrototypeOf");
    ("propertyIsEnumerable", Some "propertyIsEnumerable");
    ("toLocaleString", Some "toLocaleString");
    ("toString", Some "toString");
    ("valueOf", Some "valueOf");
    ("__defineGetter__", Some "__defineGetter__");
    ("__defineSetter__", Some "__defineSetter__");
    ("__lookupGetter__", Some "__lookupGetter__");
    ("__lookupSetter__", Some "__lookupSetter__");
    ("__proto__", None) ].

Inductive property :=
| Own (c : ThemeConfig)
| Inherited (fname : option string).

(** [this.themes[k]]; [None] is [undefined]. *)
Definition themes_get (k : string) : option property :=
  match themes !! k with
  | Some c => Some (Own c)
  | None => Inherited <$> (list_to_map object_prototype : gmap string (option string)) !! k
  end.

(** [k] names a property [themes] inherits. *)
Definition inherited (k : string) : Prop :=
  ∃ n, themes_get k = Some (Inherited n).

(** The template-literal rendering of [themeConfig.icon]. *)
Definition icon_of (p : property) : string :=
  match p with
  | Own c => icon c
  | Inherited _ => "undefined"
  end.

(** [themeConfig.name]; [None] is [undefined]. *)
Definition name_of (p : property) : option string :=
  match p with
  | Own c => Some (name c)
  | Inherited n => n
  end.

(** ** The document as the theme scripts see it *)

Record Page := mkPage {
  data_theme : option string;   (* the data-theme attribute of <html> *)
  localStorage : Storage;
  dispatched : list string;     (* detail.theme of each themeChanged event, oldest first *)
}.

(** A theme toggle button: the class of its [<i>] child, the text of its
    [<span>] child (each absent when the child is), and its aria-label. *)
Record ToggleButton := mkToggleButton {
  icon_className : option string;
  span_textContent : option string;
  aria_label : option string;
}.

Definition present {A} (o : option A) : bool :=
  match o with Some _ => true | None => false end.

Definition set_data_theme (v : option string) (p : Page) : Page :=
  mkPage v (localStorage p) (dispatched p).

Definition set_localStorage (st : Storage) (p : Page) : Page :=
  mkPage (data_theme p) st (dispatched p).

(** [document.dispatchEvent(new CustomEvent('themeChanged', {detail: {theme}}))] *)
Definition dispatchEvent (theme : string) (p : Page) : Page :=
  mkPage (data_theme p) (localStorage p) (dispatched p ++ [theme]).

Definition getItem (k : string) : JS Page (option string) :=
  λ p, (p, storage_getItem k (localStorage p)).

Definition setItem (k v : string) : JS Page () :=
  λ p, let r := storage_setItem k v (localStorage p) in
       (set_localStorage r.1 p, r.2).

Definition removeItem (k : string) : JS Page () :=
  λ p, let r := storage_removeItem k (localStorage p) in
       (set_localStorage r.1 p, r.2).

(** ** theme-toggle.js *)

Module ThemeToggle.

Record State := mkState {
  currentTheme : string;                (* ThemeManager.currentTheme *)
  themeToggle : option ToggleButton;    (* document.getElementById('themeToggle') *)
  page : Page;
}.

Definition set_currentTheme (t : string) (s : State) : State :=
  mkState t (themeToggle s) (page s).

Definition on_button (f : ToggleButton → ToggleButton) (s : State) : State :=
  mkState (currentTheme s) (f <$> themeToggle s) (page s).

Definition on_page (f : Page → Page) (s : State) : State :=
  mkState (currentTheme s) (themeToggle s) (f (page s)).

(** A statement on the page, run inside the manager's state. *)
Definition in_page {A} (m : JS Page A) : JS State A :=
  λ s, let r := m (page s) in (on_page (λ _, r.1) s, r.2).

Definition set_icon (c : string) (b : ToggleButton) : ToggleButton :=
  mkToggleButton (Some c) (span_textContent b) (aria_label b).

Definition set_text (c : string) (b : ToggleButton) : ToggleButton :=
  mkToggleButton (icon_className b) (Some c) (aria_label b).

Definition set_aria (c : string) (b : ToggleButton) : ToggleButton :=
  mkToggleButton (icon_className b) (span_textContent b) (Some c).

(** Reading a property of [themeConfig]: a TypeError when it is undefined. *)
Definition config_of (themeConfig : option property) : JS State property :=
  match themeConfig with
  | Some c => mret c
  | None => throw TypeError
  end.

Definition updateUI : JS State () :=
  toggleButton ← gets themeToggle;
  match toggleButton with
  | None => mret ()
  | Some b =>
      themeConfig ← gets (λ s, themes_get (currentTheme s));
      when (present (icon_className b))
        (c ← config_of themeConfig;
         modify (on_button (set_icon ("bi " +:+ icon_of c))));;
      when (present (span_textContent b))
        (c ← config_of themeConfig;
         (* assigning undefined to textContent empties the text *)
         modify (on_button (set_text (default "" (name_of c)))));;
      cur ← gets currentTheme;
      modify (on_button (set_aria
        ("切换到" +:+ (if bool_decide (cur = "light") then "深色" else "浅色") +:+ "模式")))
  end.

Definition dispatchThemeChange (theme : string) : JS State () :=
  modify (on_page (dispatchEvent theme)).

Definition setTheme (theme : string) (save : bool) : JS State () :=
  if negb (present (themes_get theme)) then mret () else
  oldTheme ← gets currentTheme;
  when (bool_decide (oldTheme = "dark"))
    (modify (on_page (set_data_theme None)));;
  when (bool_decide (theme = "dark"))
    (modify (on_page (set_data_theme (Some "dark"))));;
  modify (set_currentTheme theme);;
  when save (in_page (setItem "theme" theme));;
  updateUI;;
  dispatchThemeChange theme.

Definition loadTheme : JS State () :=
  saved ← in_page (getItem "theme");
  setTheme (or_else saved "light") false.

Definition toggleTheme : JS State () :=
  cur ← gets currentTheme;
  setTheme (if bool_decide (cur = "light") then "dark" else "light") true.

(** The listener [bindEvents] puts on the click of the toggle button. *)
Definition on_click : JS State () := toggleTheme.

(** The listener [bindEvents] puts on the change of the media query
    [(prefers-color-scheme: dark)]; [matches] is [e.matches]. *)
Definition on_system_theme_change (matches : bool) : JS State () :=
  saved ← in_page (getItem "theme");
  when (negb (truthy saved))
    (setTheme (if matches then "dark" else "light") true).

(** [bindEvents] only registers the two listeners above. *)
Definition bindEvents : JS State () := mret ().

Definition init : JS State () :=
  loadTheme;; bindEvents;; updateUI.

Definition getCurrentTheme : JS State string := gets currentTheme.

(** What the page asks of the manager: its public methods and the two
    listeners. *)
Inductive Call :=
| CallInit
| CallSetTheme (theme : string) (save : bool)
| CallToggleTheme
| Click
| SystemThemeChange (matches : bool).

Definition call (c : Call) : JS State () :=
  match c with
  | CallInit => init
  | CallSetTheme theme save => setTheme theme save
  | CallToggleTheme => toggleTheme
  | Click => on_click
  | SystemThemeChange matches => on_system_theme_change matches
  end.

(** The browser runs the calls one after the other; an exception ends the
    call that threw it and no other. *)
Definition run (cs : list Call) (s : State) : State :=
  foldl (λ s c, after (call c) s) s cs.

(** The calls the page is expected to make: the theme it passes to
    [setTheme] is no name [themes] inherits from [Object.prototype]. *)
Definition expected (c : Call) : Prop :=
  match c with
  | CallSetTheme theme _ => ¬ inherited theme
  | _ => True
  end.

(** The states the manager reaches by expected calls on a page whose
    [<html>] element carries no [data-theme] attribute of its own and whose
    storage holds no inherited name as the theme.  The toggle button and
    the storage are otherwise arbitrary. *)
Inductive reachable : State → Prop :=
| reachable_loaded button st :
    (∀ v, items st !! "theme" = Some v → ¬ inherited v) →
    reachable (mkState "light" button (mkPage None st []))
| reachable_call s c :
    reachable s → expected c → reachable (after (call c) s).

End ThemeToggle.

(** ** theme.js *)

Module Theme.

Record State := mkState {
  toggleButton : option ToggleButton;   (* ThemeManager.toggleButton *)
  page : Page;
}.

Definition on_button (f : ToggleButton → ToggleButton) (s : State) : State :=
  mkState (f <$> toggleButton s) (page s).

Definition on_page (f : Page → Page) (s : State) : State :=
  mkState (toggleButton s) (f (page s)).

Definition in_page {A} (m : JS Page A) : JS State A :=
  λ s, let r := m (page s) in (on_page (λ _, r.1) s, r.2).

Definition set_icon (c : string) (b : ToggleButton) : ToggleButton :=
  mkToggleButton (Some c) (span_textContent b) (aria_label b).

Definition set_aria (c : string) (b : ToggleButton) : ToggleButton :=
  mkToggleButton (icon_className b) (span_textContent b) (Some c).

Definition config_of (themeConfig : option property) : JS State property :=
  match themeConfig with
  | Some c => mret c
  | None => throw TypeError
  end.

Definition updateToggleButton (theme : string) : JS State () :=
  button ← gets toggleButton;
  match button with
  | None => mret ()
  | Some b =>
      let themeConfig := themes_get theme in
      when (present (icon_className b))
        (c ← config_of themeConfig;
         modify (on_button (set_icon (icon_of c))));;
      c ← config_of themeConfig;
      modify (on_button (set_aria ("切换到" +:+ default "undefined" (name_of c))))
  end.

Definition dispatchThemeChange (theme : string) : JS State () :=
  modify (on_page (dispatchEvent theme)).

Definition setTheme (theme : string) (save : bool) : JS State () :=
  currentTheme ← gets (λ s, data_theme (page s));
  if bool_decide (currentTheme = Some theme) then mret () else
  when (truthy currentTheme)
    (modify (on_page (set_data_theme None)));;
  when (bool_decide (theme = "dark"))
    (modify (on_page (set_data_theme (Some "dark"))));;
  updateToggleButton theme;;
  when save (in_page (setItem "theme" theme));;
  dispatchThemeChange theme.

Definition loadTheme : JS State () :=
  saved ← in_page (getItem "theme");
  setTheme (or_else saved "light") false.

Definition toggleTheme : JS State () :=
  attr ← gets (λ s, data_theme (page s));
  let currentTheme := or_else attr "light" in
  setTheme (if bool_decide (currentTheme = "light") then "dark" else "light") true.

(** The button is created with the sun icon, whatever the theme is. *)
Definition createThemeToggle : JS State () :=
  modify (λ s, mkState
    (Some (mkToggleButton (Some "bi bi-sun-fill") None (Some "切换主题")))
    (page s)).

Definition on_click : JS State () := toggleTheme.

Definition on_system_theme_change (matches : bool) : JS State () :=
  saved ← in_page (getItem "theme");
  when (negb (truthy saved))
    (setTheme (if matches then "dark" else "light") true).

Definition bindEvents : JS State () := mret ().

Definition init : JS State () :=
  loadTheme;; createThemeToggle;; bindEvents.

Definition getCurrentTheme : JS State string :=
  gets (λ s, or_else (data_theme (page s)) "light").

Definition reset : JS State () :=
  in_page (removeItem "theme");;
  setTheme "light" true.

Inductive Call :=
| CallInit
| CallSetTheme (theme : string) (save : bool)
| CallToggleTheme
| CallReset
| Click
| SystemThemeChange (matches : bool).

Definition call (c : Call) : JS State () :=
  match c with
  | CallInit => init
  | CallSetTheme theme save => setTheme theme save
  | CallToggleTheme => toggleTheme
  | CallReset => reset
  | Click => on_click
  | SystemThemeChange matches => on_system_theme_change matches
  end.

Definition run (cs : list Call) (s : State) : State :=
  foldl (λ s c, after (call c) s) s cs.

(** The states the manager reaches, by any calls, on a page whose [<html>]
    element carries no [data-theme] attribute of its own; the storage is
    arbitrary. *)
Inductive reachable : State → Prop :=
| reachable_loaded st :
    reachable (mkState None (mkPage None st []))
| reachable_call s c :
    reachable s → reachable (after (call c) s).

(** The calls that take a stored preference away: [reset], and a
    [setTheme] that would store the empty string. *)
Definition clears (c : Call) : bool :=
  match c with
  | CallReset => true
  | CallSetTheme theme save => bool_decide (theme = "") && save
  | _ => false
  end.

End Theme.

(** ** The responsive manager script *)

Module Responsive.

(** *** Elements and the document tree *)

Record Element := mkElement {
  tagName : string;
  id : string;                      (* empty when the element has no id *)
  classList : list string;
  style : gmap string string;       (* the inline style declarations *)
}.

#[local] Unset Elimination Schemes.
Inductive Node := Elem (e : Element) (childNodes : list Node).
#[local] Set Elimination Schemes.

Definition contains (c : string) (l : list string) : bool := bool_decide (c ∈ l).

Definition add (c : string) (l : list string) : list string :=
  if contains c l then l else l ++ [c].

Definition remove (c : string) (l : list string) : list string :=
  filter (λ x, x ≠ c) l.

(** [classList.toggle(c, force)] *)
Definition toggle (c : string) (force : bool) (l : list string) : list string :=
  if force then add c l else remove c l.

Definition on_classList (f : list string → list string) (e : Element) : Element :=
  mkElement (tagName e) (id e) (f (classList e)) (style e).

(** [e.style.k = v]; assigning the empty string drops the declaration. *)
Definition set_style (k v : string) (e : Element) : Element :=
  mkElement (tagName e) (id e) (classList e)
    (if bool_decide (v = "") then delete k (style e) else <[k := v]> (style e)).

(** Selectors: [.c] and [#i]. *)
Definition by_class (c : string) (e : Element) : bool := contains c (classList e).
Definition by_id (i : string) (e : Element) : bool := bool_decide (id e = i).

(** The elements of a subtree in document order. *)
Fixpoint elements (n : Node) : list Element :=
  match n with
  | Elem e cs => e :: concat (map elements cs)
  end.

Definition all_elements (doc : list Node) : list Element :=
  concat (map elements doc).

(** [document.querySelector(sel)] and [document.getElementById(i)]: the
    first match in document order. *)
Definition querySelector (sel : Element → bool) (doc : list Node) : option Element :=
  List.find sel (all_elements doc).

Definition getElementById (i : string) (doc : list Node) : option Element :=
  querySelector (by_id i) doc.

(** [document.querySelectorAll(sel).forEach(e => f e)], for an [f] that
    changes the element itself. *)
Fixpoint forEach_node (sel : Element → bool) (f : Element → Element) (n : Node) : Node :=
  match n with
  | Elem e cs => Elem (if sel e then f e else e) (map (forEach_node sel f) cs)
  end.

Definition forEach (sel : Element → bool) (f : Element → Element) (doc : list Node)
  : list Node :=
  map (forEach_node sel f) doc.

(** A change made through the reference [querySelector] returned: [f] is
    applied to the first match in document order, when there is one. *)
Fixpoint on_first_node (sel : Element → bool) (f : Element → Element) (n : Node) : Node :=
  match n with
  | Elem e cs =>
      if sel e then Elem (f e) cs
      else Elem e
        ((fix go (l : list Node) : list Node :=
            match l with
            | [] => []
            | c :: l' =>
                if existsb sel (elements c) then on_first_node sel f c :: l'
                else c :: go l'
            end) cs)
  end.

Fixpoint on_first (sel : Element → bool) (f : Element → Element) (doc : list Node)
  : list Node :=
  match doc with
  | [] => []
  | c :: l' =>
      if existsb sel (elements c) then on_first_node sel f c :: l'
      else c :: on_first sel f l'
  end.

(** *** The manager *)

Inductive Device := Mobile | Tablet | Desktop.

#[global] Instance Device_eq_dec : EqDecision Device.
Proof. solve_decision. Defined.

Record Breakpoints := mkBreakpoints { mobile : Z; tablet : Z; desktop : Z }.

Definition breakpoints : Breakpoints := mkBreakpoints 768 1024 1200.

(** What the script writes with [console.log]. *)
Inductive LogEntry :=
| LogStarted                              (* '响应式管理器已启动' *)
| LogDevice (d : Device) (width : Z)      (* '当前设备:', d, '宽度:', width *)
| LogDeviceChanged (old new : Device)     (* '设备类型改变:', old, '->', new *)
| LogOptimize (d : Device).               (* '应用移动端优化', '应用平板优化', '应用桌面端优化' *)

(** The page as the script sees it.  The class list of [<body>] is kept
    apart from the elements under it; [<html>], [<head>] and [<body>] are
    taken not to carry the ids and classes the script selects. *)
Record State := mkState {
  currentDevice : Device;           (* ResponsiveManager.currentDevice *)
  innerWidth : Z;                   (* window.innerWidth *)
  body_classList : list string;     (* document.body.classList *)
  body : list Node;                 (* the elements under <body>, in document order *)
  console : list LogEntry;          (* oldest first *)
}.

Definition set_currentDevice (d : Device) (s : State) : State :=
  mkState d (innerWidth s) (body_classList s) (body s) (console s).

Definition set_innerWidth (w : Z) (s : State) : State :=
  mkState (currentDevice s) w (body_classList s) (body s) (console s).

Definition on_body_classList (f : list string → list string) (s : State) : State :=
  mkState (currentDevice s) (innerWidth s) (f (body_classList s)) (body s) (console s).

Definition on_body (f : list Node → list Node) (s : State) : State :=
  mkState (currentDevice s) (innerWidth s) (body_classList s) (f (body s)) (console s).

Definition console_log (l : LogEntry) (s : State) : State :=
  mkState (currentDevice s) (innerWidth s) (body_classList s) (body s) (console s ++ [l]).

Definition initial (w : Z) (cls : list string) (doc : list Node) : State :=
  mkState Desktop w cls doc [].

(** *** The global sidebar functions *)

Definition setSidebarVisibility (shouldOpen : bool) (s : State) : State :=
  let sidebar := getElementById "sidebar" (body s) in
  let overlay := getElementById "sidebarOverlay" (body s) in
  if negb (present sidebar) then s else
  let s := on_body (on_first (by_id "sidebar") (on_classList (toggle "open" shouldOpen))) s in
  let s := on_body (on_first (by_id "sidebar") (on_classList (toggle "show" shouldOpen))) s in
  let isMobile := (innerWidth s <=? 1024)%Z in
  let s :=
    if present overlay then
      on_body (on_first (by_id "sidebarOverlay")
                 (on_classList (toggle "visible" (shouldOpen && isMobile)))) s
    else s in
  if shouldOpen && isMobile then on_body_classList (add "sidebar-open") s
  else on_body_classList (remove "sidebar-open") s.

(** [force] is [Some b] for a boolean argument and [None] otherwise. *)
Definition toggleSidebar (force : option bool) (s : State) : State :=
  match getElementById "sidebar" (body s) with
  | None => s
  | Some sidebar =>
      let shouldOpen :=
        match force with
        | Some b => b
        | None => negb (contains "open" (classList sidebar))
        end in
      setSidebarVisibility shouldOpen s
  end.

(** *** ResponsiveManager *)

Definition detectDevice (s : State) : State :=
  let width := innerWidth s in
  let s :=
    if (width <? mobile breakpoints)%Z then set_currentDevice Mobile s
    else if (width <? tablet breakpoints)%Z then set_currentDevice Tablet s
    else set_currentDevice Desktop s in
  console_log (LogDevice (currentDevice s) width) s.

Definition showSidebar : State → State := toggleSidebar (Some true).
Definition hideSidebar : State → State := toggleSidebar (Some false).

Definition showCompactSidebar (s : State) : State :=
  if negb (present (querySelector (by_class "sidebar") (body s))) then s else
  let s := on_body (on_first (by_class "sidebar") (on_classList (add "compact"))) s in
  toggleSidebar (Some true) s.

Definition showFullSidebar (s : State) : State :=
  if negb (present (querySelector (by_class "sidebar") (body s))) then s else
  let s := on_body (on_first (by_class "sidebar") (on_classList (remove "compact"))) s in
  toggleSidebar (Some true) s.

Definition createSidebarOverlay : State → State :=
  on_body (on_first (by_id "sidebarOverlay") (on_classList (add "visible"))).

Definition removeSidebarOverlay : State → State :=
  on_body (on_first (by_id "sidebarOverlay") (on_classList (remove "visible"))).

Definition optimizeCardsForMobile (s : State) : State :=
  let s := on_body (forEach (by_class "card")
             (λ card, set_style "padding" "1rem" (set_style "marginBottom" "1rem" card))) s in
  on_body (forEach (by_class "stat-card")
    (λ card, set_style "padding" "1.5rem" (set_style "marginBottom" "1rem" card))) s.

Definition optimizeCardsForTablet : State → State :=
  on_body (forEach (by_class "card")
    (λ card, set_style "padding" "1.5rem" (set_style "marginBottom" "1.5rem" card))).

Definition optimizeButtonsForMobile : State → State :=
  on_body (forEach (by_class "btn")
    (λ button, set_style "minHeight" "44px"
                 (set_style "fontSize" "1rem"
                    (set_style "padding" "0.75rem 1rem" button)))).

Definition optimizeButtonsForTablet : State → State :=
  on_body (forEach (by_class "btn")
    (λ button, set_style "fontSize" "0.875rem"
                 (set_style "padding" "0.625rem 1.25rem" button))).

(** The wrapper [optimizeTablesForMobile] creates for a table. *)
Definition wrapper : Element :=
  mkElement "div" "" ["table-wrapper"]
    (<["webkitOverflowScrolling" := "touch"]> (<["overflowX" := "auto"]> ∅)).

(** Every element with class [table] gets the class [table-responsive] and
    is moved into a new wrapper that takes its place under its parent. *)
Fixpoint wrap_tables (n : Node) : Node :=
  match n with
  | Elem e cs =>
      if by_class "table" e then
        Elem wrapper [Elem (on_classList (add "table-responsive") e) (map wrap_tables cs)]
      else Elem e (map wrap_tables cs)
  end.

Definition optimizeTablesForMobile : State → State :=
  on_body (map wrap_tables).

Definition restoreDefaultLayout (s : State) : State :=
  let s := on_body (forEach (by_class "card")
             (λ card, set_style "padding" "" (set_style "marginBottom" "" card))) s in
  let s := on_body (forEach (by_class "btn")
             (λ button, set_style "minHeight" ""
                          (set_style "fontSize" ""
                             (set_style "padding" "" button)))) s in
  on_body_classList (λ l, remove "tablet-device" (remove "mobile-device" l)) s.

Definition optimizeForMobile (s : State) : State :=
  let s := console_log (LogOptimize Mobile) s in
  let s := hideSidebar s in
  let s := optimizeCardsForMobile s in
  let s := optimizeButtonsForMobile s in
  let s := optimizeTablesForMobile s in
  let s := on_body_classList (add "mobile-device") s in
  on_body_classList (λ l, remove "desktop-device" (remove "tablet-device" l)) s.

Definition optimizeForTablet (s : State) : State :=
  let s := console_log (LogOptimize Tablet) s in
  let s := showFullSidebar s in
  let s := optimizeCardsForTablet s in
  let s := optimizeButtonsForTablet s in
  let s := on_body_classList (add "tablet-device") s in
  on_body_classList (λ l, remove "desktop-device" (remove "mobile-device" l)) s.

Definition optimizeForDesktop (s : State) : State :=
  let s := console_log (LogOptimize Desktop) s in
  let s := showFullSidebar s in
  let s := restoreDefaultLayout s in
  let s := on_body_classList (add "desktop-device") s in
  on_body_classList (λ l, remove "tablet-device" (remove "mobile-device" l)) s.

Definition optimizeForDevice (s : State) : State :=
  match currentDevice s with
  | Mobile => optimizeForMobile s
  | Tablet => optimizeForTablet s
  | Desktop => optimizeForDesktop s
  end.

Definition handleResize (s : State) : State :=
  let oldDevice := currentDevice s in
  let s := detectDevice s in
  if bool_decide (oldDevice ≠ currentDevice s) then
    let s := console_log (LogDeviceChanged oldDevice (currentDevice s)) s in
    optimizeForDevice s
  else s.

(** [bindEvents] registers listeners and changes nothing by itself. *)
Definition bindEvents (s : State) : State := s.

Definition init (s : State) : State :=
  let s := detectDevice s in
  let s := bindEvents s in
  let s := optimizeForDevice s in
  console_log LogStarted s.

(** The debounced resize listener, once the timer fires: the window has
    the new width and [handleResize] runs. *)
Definition on_resize (width : Z) (s : State) : State :=
  handleResize (set_innerWidth width s).

(** The number of layout policy applications a log records. *)
Definition is_policy (l : LogEntry) : bool :=
  match l with LogOptimize _ => true | _ => false end.

Definition policy_applications (log : list LogEntry) : nat :=
  length (List.filter is_policy log).

(** *** [optimizeContentArea] *)

Definition optimizeContentArea (s : State) : State :=
  if negb (present (querySelector (by_class "main-content") (body s))) then s else
  match currentDevice s with
  | Mobile =>
      on_body (on_first (by_class "main-content")
        (λ contentArea, set_style "marginLeft" "0" (set_style "padding" "1rem" contentArea))) s
  | Tablet =>
      on_body (on_first (by_class "main-content")
        (λ contentArea, set_style "marginLeft" "0" (set_style "padding" "1.5rem" contentArea))) s
  | Desktop =>
      on_body (on_first (by_class "main-content")
        (λ contentArea, set_style "marginLeft" "" (set_style "padding" "" contentArea))) s
  end.

(** *** The listeners of [bindMobileMenu]

    A place in the document is the list of the child indices to follow
    from [<body>] down; the empty list is [<body>] itself, or any node
    outside of it.  [node.contains(other)] holds when the place of [node]
    is a prefix of the place of [other]. *)

Fixpoint first_in (f : Node → option (list nat)) (i : nat) (l : list Node)
  : option (list nat) :=
  match l with
  | [] => None
  | c :: l' =>
      match f c with
      | Some p => Some (i :: p)
      | None => first_in f (S i) l'
      end
  end.

Fixpoint place_in_node (sel : Element → bool) (n : Node) : option (list nat) :=
  match n with
  | Elem e cs => if sel e then Some [] else first_in (place_in_node sel) 0%nat cs
  end.

(** The place of the element [document.querySelector(sel)] returns. *)
Definition place (sel : Element → bool) (doc : list Node) : option (list nat) :=
  first_in (place_in_node sel) 0%nat doc.

Definition node_contains (node other : list nat) : bool :=
  bool_decide (node `prefix_of` other).

(** The click listener of the first [.mobile-toggle] element. *)
Definition on_mobile_toggle_click : State → State := toggleSidebar None.

(** The click listener of the document; [target] is the place of
    [e.target].  Without a [.mobile-toggle] element, [mobileToggle] is null
    and the call of its [contains] is a TypeError. *)
Definition on_document_click (target : list nat) : JS State () :=
  currentDevice ← gets currentDevice;
  when (bool_decide (currentDevice = Mobile))
    (sidebar ← gets (λ s, querySelector (by_class "sidebar") (body s));
     sidebar_place ← gets (λ s, place (by_class "sidebar") (body s));
     mobileToggle ← gets (λ s, place (by_class "mobile-toggle") (body s));
     match sidebar, sidebar_place with
     | Some sidebar, Some sidebar_place =>
         when (contains "open" (classList sidebar))
           (if negb (node_contains sidebar_place target) then
              match mobileToggle with
              | Some mobileToggle =>
                  when (negb (node_contains mobileToggle target)) (modify hideSidebar)
              | None => throw TypeError
              end
            else mret ())
     | _, _ => mret ()
     end).

(** The keydown listener of the document; [key] is [e.key]. *)
Definition on_keydown (key : string) (s : State) : State :=
  if bool_decide (key = "Escape") && bool_decide (currentDevice s = Mobile)
  then hideSidebar s else s.

(** A click reaches the listener of the mobile toggle first, when the
    target is inside that element, and the listener of the document next.
    The toggle [bindMobileMenu] found at start-up is still the first
    element of its class: the script gives or takes that class nowhere and
    keeps the document order. *)
Definition on_click (target : list nat) : JS State () :=
  mobileToggle ← gets (λ s, place (by_class "mobile-toggle") (body s));
  match mobileToggle with
  | Some mobileToggle =>
      when (node_contains mobileToggle target) (modify on_mobile_toggle_click)
  | None => mret ()
  end;;
  on_document_click target.




End Responsive.

(** * Predicates, sample pages and proof tools *)

#[local] Arguments themes_get : simpl never.

(** Unfolds the methods of both theme scripts down to the state passing. *)
Ltac js_unfold :=
  unfold after, completes,
    ThemeToggle.setTheme, ThemeToggle.updateUI, ThemeToggle.dispatchThemeChange,
    ThemeToggle.loadTheme, ThemeToggle.toggleTheme, ThemeToggle.on_click,
    ThemeToggle.on_system_theme_change, ThemeToggle.init, ThemeToggle.bindEvents,
    ThemeToggle.getCurrentTheme, ThemeToggle.config_of, ThemeToggle.in_page,
    Theme.setTheme, Theme.updateToggleButton, Theme.dispatchThemeChange,
    Theme.loadTheme, Theme.toggleTheme, Theme.on_click, Theme.reset,
    Theme.on_system_theme_change, Theme.init, Theme.bindEvents, Theme.createThemeToggle,
    Theme.getCurrentTheme, Theme.config_of, Theme.in_page,
    getItem, setItem, removeItem, storage_getItem, storage_setItem, storage_removeItem,
    when, gets, modify, throw, mbind, mret, JS_bind, JS_ret, bind, ret in *.

(** Case analysis on a toggle button and its children. *)
Ltac button_cases b :=
  destruct b as [[[?i|] [?tx|] ?a]|].

(** A storage is usable when reads and writes succeed. *)
Definition usable (st : Storage) : Prop :=
  accessible st = true ∧ has_room st = true.

(** The stored theme counts as a preference when the listener's test
    [localStorage.getItem('theme')] is truthy. *)
Definition has_preference (p : Page) : Prop :=
  truthy (items (localStorage p) !! "theme") = true.

(** The cached theme of theme-toggle.js agrees with the document. *)
Definition tt_coherent (s : ThemeToggle.State) : Prop :=
  (ThemeToggle.currentTheme s = "light" ∧ data_theme (ThemeToggle.page s) = None
   ∨ ThemeToggle.currentTheme s = "dark" ∧ data_theme (ThemeToggle.page s) = Some "dark")
  ∧ ∀ v, items (localStorage (ThemeToggle.page s)) !! "theme" = Some v → ¬ inherited v.

(** theme.js only ever removes the attribute or sets it to dark. *)
Definition th_coherent (s : Theme.State) : Prop :=
  data_theme (Theme.page s) = None ∨ data_theme (Theme.page s) = Some "dark".

(** A page with the toggle button of theme-toggle.js (an icon and a label
    inside), nothing stored, just after the script has been loaded. *)
Definition tt_loaded (st : Storage) : ThemeToggle.State :=
  ThemeToggle.mkState "light"
    (Some (mkToggleButton (Some "bi bi-sun-fill") (Some "浅色模式") None))
    (mkPage None st []).

Definition empty_storage : Storage := mkStorage ∅ true true.
Definition full_storage : Storage := mkStorage ∅ true false.

Definition tt_started : ThemeToggle.State := after ThemeToggle.init (tt_loaded empty_storage).

Definition th_loaded (st : Storage) : Theme.State := Theme.mkState None (mkPage None st []).

Definition th_started : Theme.State := after Theme.init (th_loaded empty_storage).

Definition theme_of (matches : bool) : string := if matches then "dark" else "light".

(** The exception a failing [setItem] throws. *)
Definition write_error (st : Storage) : exn :=
  if accessible st then QuotaExceededError else SecurityError.

Definition write_fails (st : Storage) : Prop :=
  accessible st = false ∨ has_room st = false.

(** The calls theme.js is expected to get: [setTheme] with a theme of the
    table. *)
Definition th_expected (c : Theme.Call) : Prop :=
  match c with
  | Theme.CallSetTheme theme _ => theme = "light" ∨ theme = "dark"
  | _ => True
  end.

(** The page loaded anew over the storage a state leaves behind: the
    script's initial current theme, the document without a theme
    attribute, no event announced yet. *)
Definition tt_reloaded (button : option ToggleButton) (s : ThemeToggle.State)
  : ThemeToggle.State :=
  ThemeToggle.mkState "light" button (mkPage None (localStorage (ThemeToggle.page s)) []).

Definition th_reloaded (s : Theme.State) : Theme.State :=
  Theme.mkState None (mkPage None (localStorage (Theme.page s)) []).

(** Every event carries a theme of the table and the last one carries the
    current theme. *)
Definition tt_announced (s : ThemeToggle.State) : Prop :=
  Forall (λ e, e = "light" ∨ e = "dark") (dispatched (ThemeToggle.page s)) ∧
  ∀ e, last (dispatched (ThemeToggle.page s)) = Some e → ThemeToggle.currentTheme s = e.

(** The button shows the current theme: its icon and its text are the
    ones of the current theme in the table, and its label names the other
    theme, the one a click switches to. *)
Definition tt_button_shows (s : ThemeToggle.State) : Prop :=
  ∀ b, ThemeToggle.themeToggle s = Some b →
    ∃ c other c',
      themes !! ThemeToggle.currentTheme s = Some c ∧
      themes !! other = Some c' ∧ other ≠ ThemeToggle.currentTheme s ∧
      (∀ i, icon_className b = Some i → i = "bi " +:+ icon c) ∧
      (∀ x, span_textContent b = Some x → x = name c) ∧
      aria_label b = Some ("切换到" +:+ name c').

(** Settles [tt_button_shows] on a concrete button, for the current theme
    [c], the other theme [other] and its entry [c']. *)
Ltac tt_shows c other c' :=
  let b := fresh "b" in
  let Hb := fresh "Hb" in
  intros b Hb; cbn in Hb; try done; injection Hb as <-;
  exists c, other, c';
  repeat split; try done; cbn; by intros ? [= <-].

Import Responsive.

(** The device class as the specification words it: mobile below 768
    pixels, tablet below 1024, desktop otherwise. *)
Definition device_class (width : Z) : Device :=
  if (width <? 768)%Z then Mobile
  else if (width <? 1024)%Z then Tablet
  else Desktop.

(** A run of resize events, each delivered after its debounce. *)
Definition resizes (widths : list Z) (s : State) : State :=
  foldl (λ s w, on_resize w s) s widths.

Definition sample_page : list Node :=
  [ Elem (mkElement "nav" "sidebar" ["sidebar"] ∅) [];
    Elem (mkElement "div" "sidebarOverlay" ["sidebar-overlay"] ∅) [];
    Elem (mkElement "main" "" ["main-content"] ∅)
      [ Elem (mkElement "div" "" ["card"] ∅)
          [ Elem (mkElement "table" "" ["table"] ∅) [];
            Elem (mkElement "button" "" ["btn"] ∅) [] ] ] ].

(** What [forEach] does to one element. *)
Definition upd (sel : Element → bool) (f : Element → Element) (e : Element) : Element :=
  if sel e then f e else e.

(** What a change through the first match does to the list of elements. *)
Fixpoint list_on_first (sel : Element → bool) (f : Element → Element) (l : list Element)
  : list Element :=
  match l with
  | [] => []
  | e :: l' => if sel e then f e :: l' else e :: list_on_first sel f l'
  end.

Definition overlay_visible (s : State) : bool :=
  match getElementById "sidebarOverlay" (body s) with
  | Some overlay => contains "visible" (classList overlay)
  | None => false
  end.

Definition count (sel : Element → bool) (doc : list Node) : nat :=
  length (List.filter sel (all_elements doc)).

(** One function applied to every element. *)
Fixpoint map_node (h : Element → Element) (n : Node) : Node :=
  match n with
  | Elem e cs => Elem (h e) (map (map_node h) cs)
  end.

Definition map_doc (h : Element → Element) (doc : list Node) : list Node :=
  map (map_node h) doc.

(** The document and the body classes [setSidebarVisibility] leaves on a
    page with a sidebar: the overlay guard adds nothing, since a change
    through an absent element changes nothing. *)
Definition sidebar_doc (shouldOpen isMobile : bool) (doc : list Node) : list Node :=
  on_first (by_id "sidebarOverlay") (on_classList (toggle "visible" (shouldOpen && isMobile)))
    (on_first (by_id "sidebar") (on_classList (toggle "show" shouldOpen))
       (on_first (by_id "sidebar") (on_classList (toggle "open" shouldOpen)) doc)).

(** What [showFullSidebar] leaves behind. *)
Definition sidebar_shown (s : State) : Prop :=
  (∀ e, querySelector (by_class "sidebar") (body s) = Some e →
        contains "compact" (classList e) = false) ∧
  (present (querySelector (by_class "sidebar") (body s)) = true →
   present (getElementById "sidebar" (body s)) = true →
   (∀ e, getElementById "sidebar" (body s) = Some e →
         contains "open" (classList e) = true ∧ contains "show" (classList e) = true) ∧
   (∀ o, getElementById "sidebarOverlay" (body s) = Some o →
         contains "visible" (classList o) = (innerWidth s <=? 1024)%Z) ∧
   contains "sidebar-open" (body_classList s) = (innerWidth s <=? 1024)%Z).

(** Equality of two inline styles built from the same one by assignments. *)
Ltac style_eq :=
  f_equal; apply map_eq; intros ?;
  repeat (rewrite lookup_insert || rewrite lookup_delete);
  repeat case_decide; congruence.

(** Case analysis on the classes an element carries. *)
Ltac class_cases :=
  repeat (cbn [classList tagName id style];
    match goal with
    | H : contains ?c ?l = _ |- context [contains ?c ?l] => rewrite H
    | |- context [if contains ?c ?l then _ else _] =>
        is_var l; destruct (contains c l) eqn:?
    end).

(** What the tablet policy does to the style of one element. *)
Definition tablet_style (e : Element) : Element :=
  upd (by_class "btn")
    (λ button, set_style "fontSize" "0.875rem" (set_style "padding" "0.625rem 1.25rem" button))
    (upd (by_class "card")
       (λ card, set_style "padding" "1.5rem" (set_style "marginBottom" "1.5rem" card)) e).

(** What the desktop policy does to the style of one element. *)
Definition desktop_style (e : Element) : Element :=
  upd (by_class "btn")
    (λ button, set_style "minHeight" "" (set_style "fontSize" "" (set_style "padding" "" button)))
    (upd (by_class "card")
       (λ card, set_style "padding" "" (set_style "marginBottom" "" card)) e).

(** The body classes each policy sets. *)
Definition tablet_classes (l : list string) : list string :=
  remove "desktop-device" (remove "mobile-device" (add "tablet-device" l)).

Definition desktop_classes (l : list string) : list string :=
  remove "tablet-device" (remove "mobile-device"
    (add "desktop-device" (remove "tablet-device" (remove "mobile-device" l)))).

(** Whether the sidebar is open: the class [open] on the element with id
    [sidebar]. *)
Definition sidebar_open (s : State) : bool :=
  match getElementById "sidebar" (body s) with
  | Some sidebar => contains "open" (classList sidebar)
  | None => false
  end.

(** What the sidebar functions leave alone: the recorded device, the
    window width, the log, and every body class but [sidebar-open]. *)
Definition sidebar_frame (s s' : State) : Prop :=
  currentDevice s' = currentDevice s ∧ innerWidth s' = innerWidth s ∧
  console s' = console s ∧
  ∀ c, c ≠ "sidebar-open" → contains c (body_classList s') = contains c (body_classList s).




(** A mobile page with a toggle button before the sidebar. *)
Definition menu_page : list Node :=
  [ Elem (mkElement "header" "" ["top-bar"] ∅)
      [ Elem (mkElement "button" "" ["mobile-toggle"] ∅)
          [ Elem (mkElement "i" "" ["bi"; "bi-list"] ∅) [] ] ];
    Elem (mkElement "nav" "sidebar" ["sidebar"] ∅)
      [ Elem (mkElement "a" "" ["nav-link"] ∅) [] ];
    Elem (mkElement "div" "sidebarOverlay" ["sidebar-overlay"] ∅) [];
    Elem (mkElement "main" "" ["main-content"] ∅)
      [ Elem (mkElement "div" "" ["card"] ∅) [] ] ].

(** What the mobile policy does to the style of one element: cards, then
    stat cards, then buttons. *)
Definition mobile_style (e : Element) : Element :=
  upd (by_class "btn")
    (λ button, set_style "minHeight" "44px"
                 (set_style "fontSize" "1rem" (set_style "padding" "0.75rem 1rem" button)))
    (upd (by_class "stat-card")
       (λ card, set_style "padding" "1.5rem" (set_style "marginBottom" "1rem" card))
       (upd (by_class "card")
          (λ card, set_style "padding" "1rem" (set_style "marginBottom" "1rem" card)) e)).

(** The elements [wrap_tables] puts in the place of one element. *)
Definition wrapped (e : Element) : list Element :=
  if by_class "table" e then [wrapper; on_classList (add "table-responsive") e] else [e].

(** A page whose sidebar has the id [sidebar] and not the class. *)
Definition plain_sidebar_page : list Node :=
  [ Elem (mkElement "nav" "sidebar" ["side-menu"] ∅) [];
    Elem (mkElement "main" "" ["main-content"] ∅) [] ].

(** * Properties *)

(** ** The theme table *)

Example themes_get_light : themes_get "light" = Some (Own (mkThemeConfig "浅色模式" "bi-sun-fill" "")).
Proof. reflexivity. Qed.

Example themes_get_blue : themes_get "blue" = None.
Proof. reflexivity. Qed.

Example themes_get_constructor : themes_get "constructor" = Some (Inherited (Some "Object")).
Proof. reflexivity. Qed.

Lemma themes_get_own (k : string) :
  themes_get k = (if bool_decide (k = "light") then Some (Own (mkThemeConfig "浅色模式" "bi-sun-fill" ""))
                  else if bool_decide (k = "dark") then Some (Own (mkThemeConfig "深色模式" "bi-moon-fill" "dark"))
                  else Inherited <$> (list_to_map object_prototype : gmap string (option string)) !! k).
Proof.
  unfold themes_get, themes.
  destruct (decide (k = "light")) as [->|Hl]; [reflexivity|].
  destruct (decide (k = "dark")) as [->|Hd]; [reflexivity|].
  rewrite !bool_decide_eq_false_2 by done.
  rewrite lookup_insert_ne by done.
  rewrite lookup_singleton_ne by done. reflexivity.
Qed.

Lemma themes_get_None (k : string) :
  themes_get k = None ↔ k ∉ "light" :: "dark" :: object_prototype.*1.
Proof.
  rewrite themes_get_own. split.
  - intros H Hin.
    repeat (apply elem_of_cons in Hin as [Hk|Hin]; [by rewrite Hk in H|]).
    by apply elem_of_nil in Hin.
  - intros Hnin.
    rewrite !bool_decide_eq_false_2
      by (intros ->; apply Hnin; repeat constructor).
    rewrite fmap_None. apply not_elem_of_list_to_map_1.
    intros Hin. apply Hnin. by do 2 apply list_elem_of_further.
Qed.

Lemma inherited_not_theme (k : string) :
  inherited k → k ≠ "light" ∧ k ≠ "dark" ∧ k ≠ "".
Proof.
  intros [n H]; repeat split; intros ->; vm_compute in H; discriminate.
Qed.

Lemma themes_get_theme (k : string) :
  k = "light" ∨ k = "dark" → themes_get k ≠ None ∧ ¬ inherited k.
Proof.
  intros [-> | ->]; (split; [done | intros [n H]; vm_compute in H; discriminate]).
Qed.

Lemma themes_get_defined_nonempty (k : string) : themes_get k ≠ None → k ≠ "".
Proof. intros H ->. by apply H. Qed.

(** ** Reasoning about statements *)

(** ** theme-toggle.js: [setTheme] *)

Lemma tt_setTheme_rejects s t save :
  themes_get t = None → ThemeToggle.setTheme t save s = (s, Normal ()).
Proof. intros H. js_unfold. by rewrite H. Qed.

Lemma tt_setTheme_currentTheme s t save :
  themes_get t ≠ None →
  ThemeToggle.currentTheme (after (ThemeToggle.setTheme t save) s) = t.
Proof.
  intros H. destruct (themes_get t) as [c|] eqn:E; [|done].
  destruct s as [cur btn [attr [its acc room] evs]].
  js_unfold. rewrite E. cbn.
  repeat (case_bool_decide; cbn); destruct save, acc, room; cbn; try reflexivity.
  all: button_cases btn; cbn; rewrite ?E; reflexivity.
Qed.

Lemma tt_setTheme_data_theme s t save :
  themes_get t ≠ None →
  data_theme (ThemeToggle.page (after (ThemeToggle.setTheme t save) s)) =
    if bool_decide (t = "dark") then Some "dark"
    else if bool_decide (ThemeToggle.currentTheme s = "dark") then None
    else data_theme (ThemeToggle.page s).
Proof.
  intros H. destruct (themes_get t) as [c|] eqn:E; [|done].
  destruct s as [cur btn [attr [its acc room] evs]].
  js_unfold. rewrite E. cbn.
  repeat (case_bool_decide; cbn); destruct save, acc, room; cbn; try reflexivity.
  all: button_cases btn; cbn; rewrite ?E; reflexivity.
Qed.

Lemma tt_setTheme_storage_flags s t save :
  accessible (localStorage (ThemeToggle.page (after (ThemeToggle.setTheme t save) s)))
    = accessible (localStorage (ThemeToggle.page s)) ∧
  has_room (localStorage (ThemeToggle.page (after (ThemeToggle.setTheme t save) s)))
    = has_room (localStorage (ThemeToggle.page s)).
Proof.
  destruct (themes_get t) as [c|] eqn:E.
  2: { unfold after. by rewrite tt_setTheme_rejects. }
  destruct s as [cur btn [attr [its acc room] evs]].
  js_unfold. rewrite E. cbn.
  repeat (case_bool_decide; cbn); destruct save, acc, room; cbn; try done.
  all: button_cases btn; cbn; rewrite ?E; done.
Qed.

(** With a usable storage a valid theme is applied, stored and announced,
    and the call returns. *)
Lemma tt_setTheme_saves s t :
  themes_get t ≠ None → usable (localStorage (ThemeToggle.page s)) →
  completes (ThemeToggle.setTheme t true) s = Normal () ∧
  items (localStorage (ThemeToggle.page (after (ThemeToggle.setTheme t true) s))) !! "theme" = Some t ∧
  dispatched (ThemeToggle.page (after (ThemeToggle.setTheme t true) s))
    = (dispatched (ThemeToggle.page s) ++ [t])%list.
Proof.
  intros H [Ha Hr]. destruct (themes_get t) as [c|] eqn:E; [|done].
  destruct s as [cur btn [attr [its acc room] evs]]. cbn in Ha, Hr. subst.
  js_unfold. rewrite E. cbn.
  repeat (case_bool_decide; cbn).
  all: button_cases btn; cbn; rewrite ?E; cbn; rewrite ?lookup_insert_eq; done.
Qed.

(** A call that returns normally with [save] set has stored the theme. *)
Lemma tt_setTheme_returned_stored s t :
  themes_get t ≠ None →
  completes (ThemeToggle.setTheme t true) s = Normal () →
  items (localStorage (ThemeToggle.page (after (ThemeToggle.setTheme t true) s))) !! "theme" = Some t.
Proof.
  intros H. destruct (themes_get t) as [c|] eqn:E; [|done].
  destruct s as [cur btn [attr [its acc room] evs]].
  js_unfold. rewrite E. cbn.
  repeat (case_bool_decide; cbn); destruct acc, room; cbn; try done.
  all: button_cases btn; cbn; rewrite ?E; cbn; rewrite ?lookup_insert_eq; done.
Qed.

(** [setTheme] never takes a stored preference away. *)
Lemma tt_setTheme_keeps_preference s t save :
  has_preference (ThemeToggle.page s) →
  has_preference (ThemeToggle.page (after (ThemeToggle.setTheme t save) s)).
Proof.
  unfold has_preference.
  destruct (themes_get t) as [c|] eqn:E.
  2: { unfold after. by rewrite tt_setTheme_rejects. }
  assert (t ≠ "") as Hne by (apply themes_get_defined_nonempty; congruence).
  destruct s as [cur btn [attr [its acc room] evs]].
  js_unfold. rewrite E. cbn.
  repeat (case_bool_decide; cbn); destruct save, acc, room; cbn; try done.
  all: button_cases btn; cbn; rewrite ?E; cbn; rewrite ?lookup_insert_eq; cbn;
    try done; intros _; by apply bool_decide_eq_true.
Qed.

Lemma after_bind {S A B} (m : JS S A) (k : A → JS S B) (s : S) :
  after (m ≫= k) s =
    match completes m s with
    | Normal a => after (k a) (after m s)
    | Throw _ => after m s
    end.
Proof.
  unfold after, completes, mbind, JS_bind, bind.
  by destruct (m s) as [s' [a|e]].
Qed.

(** ** theme-toggle.js: the other methods, in terms of [setTheme] *)

Lemma tt_on_page_id (s : ThemeToggle.State) :
  ThemeToggle.on_page (λ _, ThemeToggle.page s) s = s.
Proof. by destruct s. Qed.

Lemma tt_loadTheme_eq s :
  ThemeToggle.loadTheme s =
    if accessible (localStorage (ThemeToggle.page s)) then
      ThemeToggle.setTheme
        (or_else (items (localStorage (ThemeToggle.page s)) !! "theme") "light") false s
    else (s, Throw SecurityError).
Proof.
  unfold ThemeToggle.loadTheme, ThemeToggle.in_page, getItem, storage_getItem,
    mbind, JS_bind, bind.
  cbn. rewrite tt_on_page_id. by destruct (accessible _).
Qed.

Lemma tt_toggleTheme_eq s :
  ThemeToggle.toggleTheme s =
    ThemeToggle.setTheme
      (if bool_decide (ThemeToggle.currentTheme s = "light") then "dark" else "light") true s.
Proof. reflexivity. Qed.

Lemma tt_on_system_theme_change_eq matches s :
  ThemeToggle.on_system_theme_change matches s =
    if accessible (localStorage (ThemeToggle.page s)) then
      if truthy (items (localStorage (ThemeToggle.page s)) !! "theme") then (s, Normal ())
      else ThemeToggle.setTheme (if matches then "dark" else "light") true s
    else (s, Throw SecurityError).
Proof.
  unfold ThemeToggle.on_system_theme_change, ThemeToggle.in_page, getItem,
    storage_getItem, mbind, JS_bind, bind, when.
  cbn. rewrite tt_on_page_id.
  destruct (accessible _); [|done]. by destruct (truthy _).
Qed.

Lemma tt_updateUI_frame s :
  ThemeToggle.currentTheme (after ThemeToggle.updateUI s) = ThemeToggle.currentTheme s ∧
  ThemeToggle.page (after ThemeToggle.updateUI s) = ThemeToggle.page s.
Proof.
  destruct s as [cur btn pg]. js_unfold. cbn.
  button_cases btn; cbn; destruct (themes_get cur); cbn; done.
Qed.

Lemma tt_init_after s :
  after ThemeToggle.init s =
    match completes ThemeToggle.loadTheme s with
    | Normal _ => after ThemeToggle.updateUI (after ThemeToggle.loadTheme s)
    | Throw _ => after ThemeToggle.loadTheme s
    end.
Proof.
  unfold ThemeToggle.init. rewrite after_bind.
  destruct (completes ThemeToggle.loadTheme s); [|done].
  by rewrite after_bind.
Qed.

(** ** theme-toggle.js: what every call keeps *)

(** A property [setTheme] keeps for the themes [ok] admits, and [updateUI]
    keeps, is kept by every call whose themes [ok] admits. *)
Lemma tt_call_keeps (P : ThemeToggle.State → Prop) (ok : string → Prop)
    (c : ThemeToggle.Call) (s : ThemeToggle.State) :
  ok "light" → ok "dark" →
  (∀ s v, P s → items (localStorage (ThemeToggle.page s)) !! "theme" = Some v → ok v) →
  (∀ s t save, ok t → P s → P (after (ThemeToggle.setTheme t save) s)) →
  (∀ s, P s → P (after ThemeToggle.updateUI s)) →
  (∀ t save, c = ThemeToggle.CallSetTheme t save → ok t) →
  P s → P (after (ThemeToggle.call c) s).
Proof.
  intros Hl Hd Hst Hset Hui Hc HP. destruct c as [|t save| | |m]; cbn.
  - rewrite tt_init_after. unfold completes, after at 2 3. rewrite tt_loadTheme_eq.
    destruct (accessible _); [|done].
    pose proof (Hset s
      (or_else (items (localStorage (ThemeToggle.page s)) !! "theme") "light") false)
      as HP'.
    unfold after in HP' at 1.
    destruct (ThemeToggle.setTheme _ false s) as [s' [[]|e]]; cbn in *.
    all: try apply Hui. all: apply HP'; [|done].
    all: destruct (items _ !! "theme") as [v|] eqn:Ev; cbn; [|done].
    all: case_bool_decide; [by eapply Hst|done].
  - apply Hset; [by eapply Hc|done].
  - unfold after. rewrite tt_toggleTheme_eq. apply Hset; [|done]. by case_bool_decide.
  - unfold after, ThemeToggle.on_click. rewrite tt_toggleTheme_eq.
    apply Hset; [|done]. by case_bool_decide.
  - unfold after. rewrite tt_on_system_theme_change_eq.
    destruct (accessible _); [|done]. destruct (truthy _); [done|].
    apply Hset; [|done]. by destruct m.
Qed.

Lemma tt_call_keeps_preference c s :
  has_preference (ThemeToggle.page s) →
  has_preference (ThemeToggle.page (after (ThemeToggle.call c) s)).
Proof.
  apply (tt_call_keeps (λ s, has_preference (ThemeToggle.page s)) (λ _, True)); try done.
  - intros s' t save _. apply tt_setTheme_keeps_preference.
  - intros s' H. by destruct (tt_updateUI_frame s') as [_ ->].
Qed.

Lemma tt_call_storage_flags c s :
  usable (localStorage (ThemeToggle.page s)) →
  usable (localStorage (ThemeToggle.page (after (ThemeToggle.call c) s))).
Proof.
  apply (tt_call_keeps (λ s, usable (localStorage (ThemeToggle.page s))) (λ _, True));
    try done.
  - intros s' t save _ [H1 H2].
    destruct (tt_setTheme_storage_flags s' t save) as [E1 E2].
    split; congruence.
  - intros s' H. by destruct (tt_updateUI_frame s') as [_ ->].
Qed.

Lemma tt_run_keeps (P : ThemeToggle.State → Prop) cs s :
  (∀ c s, P s → P (after (ThemeToggle.call c) s)) →
  P s → P (ThemeToggle.run cs s).
Proof.
  intros Hc. revert s. induction cs as [|c cs IH]; intros s HP; cbn; [done|].
  apply IH, Hc, HP.
Qed.

(** The listener leaves everything as it is when a preference is stored. *)
Lemma tt_listener_ignored matches s :
  has_preference (ThemeToggle.page s) →
  after (ThemeToggle.on_system_theme_change matches) s = s.
Proof.
  unfold has_preference, after. intros H. rewrite tt_on_system_theme_change_eq, H.
  by destruct (accessible _).
Qed.

Lemma tt_listener_changes matches s :
  after (ThemeToggle.on_system_theme_change matches) s ≠ s →
  ¬ has_preference (ThemeToggle.page s).
Proof. intros Hne Hp. by apply Hne, tt_listener_ignored. Qed.

(** ** theme-toggle.js: the reachable states *)

Lemma tt_setTheme_stored_value s t save v :
  items (localStorage (ThemeToggle.page (after (ThemeToggle.setTheme t save) s))) !! "theme" = Some v →
  v = t ∨ items (localStorage (ThemeToggle.page s)) !! "theme" = Some v.
Proof.
  destruct (themes_get t) as [c|] eqn:E.
  2: { unfold after. rewrite tt_setTheme_rejects by done. auto. }
  destruct s as [cur btn [attr [its acc room] evs]].
  js_unfold. rewrite E. cbn.
  repeat (case_bool_decide; cbn); destruct save, acc, room; cbn; auto.
  all: button_cases btn; cbn; rewrite ?E; cbn; rewrite ?lookup_insert_eq; auto.
  all: intros [= ->]; auto.
Qed.

Lemma tt_setTheme_coherent s t save :
  ¬ inherited t → tt_coherent s → tt_coherent (after (ThemeToggle.setTheme t save) s).
Proof.
  intros Hni [Hc Hst].
  destruct (themes_get t) as [[c|n]|] eqn:E.
  - assert (themes_get t ≠ None) as Hv by congruence.
    split.
    + rewrite tt_setTheme_currentTheme, tt_setTheme_data_theme by done.
      rewrite themes_get_own in E.
      destruct (decide (t = "dark")) as [->|Hd]; [by right|].
      rewrite (bool_decide_eq_false_2 (t = "dark")) in * by done.
      destruct (decide (t = "light")) as [->|Hl].
      * left. split; [done|]. destruct Hc as [[-> ->]|[-> ->]]; done.
      * rewrite (bool_decide_eq_false_2 (t = "light")) in E by done.
        by destruct (_ !! t).
    + intros v Hv'. apply tt_setTheme_stored_value in Hv' as [->|Hv']; eauto.
  - destruct Hni. by exists n.
  - unfold after. by rewrite tt_setTheme_rejects.
Qed.

Lemma tt_reachable_coherent s : ThemeToggle.reachable s → tt_coherent s.
Proof.
  induction 1 as [button st Hst|s c Hr IH Hc].
  - split; [by left|done].
  - revert IH. apply (tt_call_keeps tt_coherent (λ t, ¬ inherited t)).
    + intros [n H]. vm_compute in H. discriminate.
    + intros [n H]. vm_compute in H. discriminate.
    + intros s' v [_ Hst]. apply Hst.
    + intros s' t save. apply tt_setTheme_coherent.
    + intros s' [Hc' Hst]. unfold tt_coherent.
      destruct (tt_updateUI_frame s') as [-> ->]. by split.
    + intros t save ->. exact Hc.
Qed.

(** ** theme.js: [setTheme] *)

(** The guard: asking for the theme the document already shows. *)
Lemma th_setTheme_same s t save :
  data_theme (Theme.page s) = Some t → Theme.setTheme t save s = (s, Normal ()).
Proof.
  intros H. js_unfold. cbn. by rewrite bool_decide_eq_true_2.
Qed.

Lemma th_setTheme_data_theme s t save :
  data_theme (Theme.page s) ≠ Some t →
  data_theme (Theme.page (after (Theme.setTheme t save) s)) =
    if bool_decide (t = "dark") then Some "dark"
    else if truthy (data_theme (Theme.page s)) then None
    else data_theme (Theme.page s).
Proof.
  intros H. destruct s as [btn [attr [its acc room] evs]]. cbn in H.
  js_unfold. cbn. rewrite bool_decide_eq_false_2 by done.
  destruct (truthy attr); cbn.
  all: case_bool_decide; cbn.
  all: button_cases btn; cbn; destruct (themes_get t); cbn; try done.
  all: destruct save, acc, room; done.
Qed.

Lemma th_setTheme_storage_flags s t save :
  accessible (localStorage (Theme.page (after (Theme.setTheme t save) s)))
    = accessible (localStorage (Theme.page s)) ∧
  has_room (localStorage (Theme.page (after (Theme.setTheme t save) s)))
    = has_room (localStorage (Theme.page s)).
Proof.
  destruct s as [btn [attr [its acc room] evs]].
  js_unfold. cbn. case_bool_decide; cbn; [done|].
  destruct (truthy attr); cbn.
  all: case_bool_decide; cbn.
  all: button_cases btn; cbn; destruct (themes_get t); cbn; try done.
  all: destruct save, acc, room; done.
Qed.

(** With a usable storage, a theme of the table that is not the one on the
    document is applied, stored and announced, and the call returns. *)
Lemma th_setTheme_saves s t :
  themes_get t ≠ None → data_theme (Theme.page s) ≠ Some t →
  usable (localStorage (Theme.page s)) →
  completes (Theme.setTheme t true) s = Normal () ∧
  items (localStorage (Theme.page (after (Theme.setTheme t true) s))) !! "theme" = Some t ∧
  dispatched (Theme.page (after (Theme.setTheme t true) s))
    = (dispatched (Theme.page s) ++ [t])%list.
Proof.
  intros H Hne [Ha Hr]. destruct (themes_get t) as [c|] eqn:E; [|done].
  destruct s as [btn [attr [its acc room] evs]]. cbn in Ha, Hr, Hne. subst.
  js_unfold. cbn. rewrite bool_decide_eq_false_2 by done.
  destruct (truthy attr); cbn.
  all: case_bool_decide; cbn.
  all: button_cases btn; cbn; rewrite ?E; cbn; rewrite ?lookup_insert_eq; done.
Qed.

Lemma th_setTheme_returned_stored s t :
  data_theme (Theme.page s) ≠ Some t →
  completes (Theme.setTheme t true) s = Normal () →
  items (localStorage (Theme.page (after (Theme.setTheme t true) s))) !! "theme" = Some t.
Proof.
  intros Hne. destruct s as [btn [attr [its acc room] evs]]. cbn in Hne.
  js_unfold. cbn. rewrite bool_decide_eq_false_2 by done.
  destruct (truthy attr); cbn.
  all: case_bool_decide; cbn.
  all: button_cases btn; cbn; destruct (themes_get t); cbn; try done.
  all: destruct acc, room; cbn; rewrite ?lookup_insert_eq; done.
Qed.

Lemma th_setTheme_stored_value s t save v :
  items (localStorage (Theme.page (after (Theme.setTheme t save) s))) !! "theme" = Some v →
  v = t ∧ save = true ∨ items (localStorage (Theme.page s)) !! "theme" = Some v.
Proof.
  destruct s as [btn [attr [its acc room] evs]].
  js_unfold. cbn. case_bool_decide; cbn; [auto|].
  destruct (truthy attr); cbn.
  all: case_bool_decide; cbn.
  all: button_cases btn; cbn; destruct (themes_get t); cbn; auto.
  all: destruct save, acc, room; cbn; rewrite ?lookup_insert_eq; auto.
  all: intros [= ->]; auto.
Qed.

(** [setTheme] keeps a stored preference unless it stores the empty
    string. *)
Lemma th_setTheme_keeps_preference s t save :
  Theme.clears (Theme.CallSetTheme t save) = false →
  has_preference (Theme.page s) →
  has_preference (Theme.page (after (Theme.setTheme t save) s)).
Proof.
  unfold has_preference. cbn. intros Hc.
  assert (save = true → t ≠ "") as Hne.
  { intros -> ->. done. }
  clear Hc.
  destruct s as [btn [attr [its acc room] evs]].
  js_unfold. cbn. destruct (bool_decide (attr = Some t)); cbn; [auto|].
  destruct (truthy attr); cbn.
  all: destruct (bool_decide (t = "dark")); cbn.
  all: button_cases btn; cbn; destruct (themes_get t); cbn; auto.
  all: destruct save, acc, room; cbn; rewrite ?lookup_insert_eq; auto.
  all: cbn; intros _; apply bool_decide_eq_true; auto.
Qed.

(** The themes of the table raise no TypeError in the toggle button
    update; the current theme is then the one asked for, whether or not
    the storage write succeeds. *)
Lemma th_setTheme_getCurrentTheme s t save :
  t = "light" ∨ t = "dark" →
  completes Theme.getCurrentTheme (after (Theme.setTheme t save) s) = Normal t.
Proof.
  intros Ht. unfold Theme.getCurrentTheme, completes, gets. cbn. f_equal.
  destruct (decide (data_theme (Theme.page s) = Some t)) as [E|E].
  - unfold after. rewrite th_setTheme_same by done. cbn. rewrite E.
    by destruct Ht as [-> | ->].
  - rewrite th_setTheme_data_theme by done.
    destruct Ht as [-> | ->]; cbn; [|done].
    destruct (data_theme (Theme.page s)) as [a|]; cbn; [|done].
    rewrite (bool_decide_eq_false_2 ("light" = "dark")) by done.
    destruct (decide (a = "")) as [->|Ha]; [done|].
    by rewrite bool_decide_eq_true_2.
Qed.

(** ** theme.js: the other methods, in terms of [setTheme] *)

Lemma th_on_page_id (s : Theme.State) : Theme.on_page (λ _, Theme.page s) s = s.
Proof. by destruct s. Qed.

Lemma th_loadTheme_eq s :
  Theme.loadTheme s =
    if accessible (localStorage (Theme.page s)) then
      Theme.setTheme (or_else (items (localStorage (Theme.page s)) !! "theme") "light") false s
    else (s, Throw SecurityError).
Proof.
  unfold Theme.loadTheme, Theme.in_page, getItem, storage_getItem, mbind, JS_bind, bind.
  cbn. rewrite th_on_page_id. by destruct (accessible _).
Qed.

Lemma th_toggleTheme_eq s :
  Theme.toggleTheme s =
    Theme.setTheme
      (if bool_decide (or_else (data_theme (Theme.page s)) "light" = "light")
       then "dark" else "light") true s.
Proof. reflexivity. Qed.

Lemma th_on_system_theme_change_eq matches s :
  Theme.on_system_theme_change matches s =
    if accessible (localStorage (Theme.page s)) then
      if truthy (items (localStorage (Theme.page s)) !! "theme") then (s, Normal ())
      else Theme.setTheme (if matches then "dark" else "light") true s
    else (s, Throw SecurityError).
Proof.
  unfold Theme.on_system_theme_change, Theme.in_page, getItem, storage_getItem,
    mbind, JS_bind, bind, when.
  cbn. rewrite th_on_page_id.
  destruct (accessible _); [|done]. by destruct (truthy _).
Qed.

Lemma th_init_after s :
  Theme.page (after Theme.init s) = Theme.page (after Theme.loadTheme s).
Proof.
  unfold Theme.init. rewrite after_bind.
  destruct (completes Theme.loadTheme s); [|done].
  by rewrite after_bind.
Qed.

Lemma th_reset_after s :
  after Theme.reset s =
    if accessible (localStorage (Theme.page s)) then
      after (Theme.setTheme "light" true)
        (Theme.on_page (set_localStorage
           (mkStorage (delete "theme" (items (localStorage (Theme.page s))))
              (accessible (localStorage (Theme.page s)))
              (has_room (localStorage (Theme.page s))))) s)
    else s.
Proof.
  unfold Theme.reset. rewrite after_bind.
  unfold completes, after at 2 3, Theme.in_page, removeItem, storage_removeItem. cbn.
  destruct (accessible _) eqn:E; cbn; [done|].
  destruct s as [btn [attr [its acc room] evs]]. by cbn in *.
Qed.

(** ** theme.js: what every call keeps *)

(** A property of the page that [setTheme] keeps is kept by every call
    that is not [reset]. *)
Lemma th_call_keeps (P : Page → Prop) (c : Theme.Call) (s : Theme.State) :
  (∀ s t save, (∀ t' save', c = Theme.CallSetTheme t' save' → t' = t ∧ save' = save) →
               (save = true → t ≠ "") →
               P (Theme.page s) → P (Theme.page (after (Theme.setTheme t save) s))) →
  Theme.clears c = false →
  P (Theme.page s) → P (Theme.page (after (Theme.call c) s)).
Proof.
  intros Hset Hc HP. destruct c as [|t save| | | |m]; cbn.
  - rewrite th_init_after. unfold after. rewrite th_loadTheme_eq.
    destruct (accessible _); [|done]. by apply Hset.
  - apply Hset; [by intros ?? [= -> ->]| |done].
    intros -> ->. done.
  - unfold after. rewrite th_toggleTheme_eq. apply Hset; [done| |done].
    by case_bool_decide.
  - done.
  - unfold after, Theme.on_click. rewrite th_toggleTheme_eq. apply Hset; [done| |done].
    by case_bool_decide.
  - unfold after. rewrite th_on_system_theme_change_eq.
    destruct (accessible _); [|done]. destruct (truthy _); [done|].
    apply Hset; [done| |done]. by destruct m.
Qed.

Lemma th_call_keeps_preference c s :
  Theme.clears c = false →
  has_preference (Theme.page s) →
  has_preference (Theme.page (after (Theme.call c) s)).
Proof.
  apply th_call_keeps. intros s' t save _ Hne.
  apply th_setTheme_keeps_preference. cbn.
  destruct save; [|by rewrite andb_false_r].
  rewrite bool_decide_eq_false_2; [done|by apply Hne].
Qed.


Lemma th_run_keeps (P : Theme.State → Prop) (ok : Theme.Call → Prop) cs s :
  (∀ c s, ok c → P s → P (after (Theme.call c) s)) →
  Forall ok cs → P s → P (Theme.run cs s).
Proof.
  intros Hc Hcs. revert s.
  induction Hcs as [|c cs Hok Hcs IH]; intros s HP; cbn; [done|].
  apply IH, Hc, HP. exact Hok.
Qed.

Lemma th_listener_ignored matches s :
  has_preference (Theme.page s) →
  after (Theme.on_system_theme_change matches) s = s.
Proof.
  unfold has_preference, after. intros H. rewrite th_on_system_theme_change_eq, H.
  by destruct (accessible _).
Qed.

Lemma th_listener_changes matches s :
  after (Theme.on_system_theme_change matches) s ≠ s →
  ¬ has_preference (Theme.page s).
Proof. intros Hne Hp. by apply Hne, th_listener_ignored. Qed.

(** ** theme.js: the reachable states *)

Lemma th_setTheme_coherent s t save :
  th_coherent s → th_coherent (after (Theme.setTheme t save) s).
Proof.
  unfold th_coherent. intros Hc.
  destruct (decide (data_theme (Theme.page s) = Some t)) as [E|E].
  - unfold after. by rewrite th_setTheme_same.
  - rewrite th_setTheme_data_theme by done.
    case_bool_decide; [by right|]. left.
    by destruct Hc as [-> | ->].
Qed.

Lemma th_reachable_coherent s : Theme.reachable s → th_coherent s.
Proof.
  induction 1 as [st|s c Hr IH]; [by left|].
  destruct (Theme.clears c) eqn:Hc.
  - destruct c as [|t save| | | |m]; try done.
    + by apply th_setTheme_coherent.
    + cbn. rewrite th_reset_after. destruct (accessible _); [|done].
      apply th_setTheme_coherent. by destruct s as [btn [attr st evs]].
  - revert IH. apply (th_call_keeps (λ p, data_theme p = None ∨ data_theme p = Some "dark"));
      [|done].
    intros s' t save _ _. apply th_setTheme_coherent.
Qed.

(** ** Concrete pages *)

Example tt_started_eq :
  tt_started =
    ThemeToggle.mkState "light"
      (Some (mkToggleButton (Some "bi bi-sun-fill") (Some "浅色模式") (Some "切换到深色模式")))
      (mkPage None empty_storage ["light"]).
Proof. reflexivity. Qed.

Example th_started_eq :
  th_started =
    Theme.mkState (Some (mkToggleButton (Some "bi bi-sun-fill") None (Some "切换主题")))
      (mkPage None empty_storage ["light"]).
Proof. reflexivity. Qed.

Lemma tt_started_reachable : ThemeToggle.reachable tt_started.
Proof.
  apply (ThemeToggle.reachable_call _ ThemeToggle.CallInit); [|done].
  by apply ThemeToggle.reachable_loaded.
Qed.

(** X6: in every reachable state of theme-toggle.js the cached current
    theme, which [getCurrentTheme] returns, is light or dark and agrees
    with the document: the data-theme attribute is absent for light and is
    dark for dark. *)
Theorem cached_theme_agrees_with_document s :
  ThemeToggle.reachable s →
  completes ThemeToggle.getCurrentTheme s = Normal "light"
    ∧ data_theme (ThemeToggle.page s) = None
  ∨ completes ThemeToggle.getCurrentTheme s = Normal "dark"
    ∧ data_theme (ThemeToggle.page s) = Some "dark".
Proof.
  intros Hr. destruct (tt_reachable_coherent s Hr) as [[[Hc Ha]|[Hc Ha]] _].
  - left. unfold ThemeToggle.getCurrentTheme, completes, gets. cbn. by rewrite Hc.
  - right. unfold ThemeToggle.getCurrentTheme, completes, gets. cbn. by rewrite Hc.
Qed.

Lemma cached_theme_agrees_with_document_witness :
  completes ThemeToggle.getCurrentTheme (after ThemeToggle.toggleTheme tt_started)
    = Normal "light"
    ∧ data_theme (ThemeToggle.page (after ThemeToggle.toggleTheme tt_started)) = None
  ∨ completes ThemeToggle.getCurrentTheme (after ThemeToggle.toggleTheme tt_started)
    = Normal "dark"
    ∧ data_theme (ThemeToggle.page (after ThemeToggle.toggleTheme tt_started)) = Some "dark".
Proof.
  apply (cached_theme_agrees_with_document (after ThemeToggle.toggleTheme tt_started)).
  apply (ThemeToggle.reachable_call _ ThemeToggle.CallToggleTheme); [|done].
  apply tt_started_reachable.
Defined.

Lemma th_started_reachable : Theme.reachable th_started.
Proof.
  apply (Theme.reachable_call _ Theme.CallInit), Theme.reachable_loaded.
Qed.

(** theme.js does not check its argument against the table: on a started
    page an unknown theme takes the dark theme off the document and then
    fails in the toggle button update. *)
Example th_setTheme_unknown_theme :
  let s := after (Theme.setTheme "dark" true) th_started in
  data_theme (Theme.page s) = Some "dark" ∧
  completes (Theme.setTheme "blue" true) s = Throw TypeError ∧
  data_theme (Theme.page (after (Theme.setTheme "blue" true) s)) = None.
Proof. vm_compute. done. Qed.

(** theme.js compares its argument with the attribute, which is absent in
    the light theme: asking for light while light is active stores and
    announces it again. *)
Example th_setTheme_light_again :
  completes Theme.getCurrentTheme th_started = Normal "light" ∧
  dispatched (Theme.page (after (Theme.setTheme "light" true) th_started)) = ["light"; "light"] ∧
  items (localStorage (Theme.page (after (Theme.setTheme "light" true) th_started))) !! "theme"
    = Some "light".
Proof. vm_compute. done. Qed.

(** ** Claim C2: [setTheme] as a silent no-op *)

(** C2, as stated, fails in theme-toggle.js: on a started page, where the
    active theme is light, nothing is stored and one event was announced,
    [setTheme('light')] stores the theme and announces it again. *)
Lemma setTheme_active_theme_not_noop :
  completes ThemeToggle.getCurrentTheme tt_started = Normal "light" ∧
  items (localStorage (ThemeToggle.page tt_started)) !! "theme" = None ∧
  dispatched (ThemeToggle.page tt_started) = ["light"] ∧
  completes (ThemeToggle.setTheme "light" true) tt_started = Normal () ∧
  items (localStorage (ThemeToggle.page (after (ThemeToggle.setTheme "light" true) tt_started)))
    !! "theme" = Some "light" ∧
  dispatched (ThemeToggle.page (after (ThemeToggle.setTheme "light" true) tt_started))
    = ["light"; "light"].
Proof. vm_compute. done. Qed.

(** C2, amended: in theme-toggle.js [setTheme(t)] is a silent no-op for
    every string [t] that is neither a key of the theme table nor a name the
    table inherits from [Object.prototype]; in theme.js it is a silent no-op
    when [t] is the value of the document's data-theme attribute.  The
    state (document, current theme, storage, announced events) is the same
    and the call returns normally. *)
Theorem setTheme_silent_noop :
  (∀ (s : ThemeToggle.State) (t : string) (save : bool),
     t ∉ "light" :: "dark" :: object_prototype.*1 →
     ThemeToggle.setTheme t save s = (s, Normal ())) ∧
  (∀ (s : Theme.State) (t : string) (save : bool),
     data_theme (Theme.page s) = Some t →
     Theme.setTheme t save s = (s, Normal ())).
Proof.
  split.
  - intros s t save Ht. apply tt_setTheme_rejects. by apply themes_get_None.
  - intros s t save Ht. by apply th_setTheme_same.
Qed.

Lemma setTheme_silent_noop_witness :
  ThemeToggle.setTheme "blue" true tt_started = (tt_started, Normal ()) ∧
  Theme.setTheme "dark" true (after (Theme.setTheme "dark" true) th_started)
    = (after (Theme.setTheme "dark" true) th_started, Normal ()).
Proof.
  split.
  - apply (proj1 setTheme_silent_noop). apply themes_get_None. reflexivity.
  - apply (proj2 setTheme_silent_noop). reflexivity.
Defined.

(** ** Claim C8: [setTheme] then [getCurrentTheme] *)

Lemma tt_setTheme_returns s t save :
  themes_get t ≠ None → (save = true → usable (localStorage (ThemeToggle.page s))) →
  completes (ThemeToggle.setTheme t save) s = Normal ().
Proof.
  intros Hv Hu. destruct save.
  - by destruct (tt_setTheme_saves s t Hv (Hu eq_refl)) as (Hc & _ & _).
  - destruct (themes_get t) as [c|] eqn:E; [|done].
    destruct s as [cur btn [attr st evs]].
    js_unfold. rewrite E. cbn.
    repeat (case_bool_decide; cbn).
    all: button_cases btn; cbn; rewrite ?E; done.
Qed.

Lemma th_setTheme_returns s t save :
  themes_get t ≠ None → (save = true → usable (localStorage (Theme.page s))) →
  completes (Theme.setTheme t save) s = Normal ().
Proof.
  intros Hv Hu.
  destruct (decide (data_theme (Theme.page s) = Some t)) as [Ea|Ea].
  { unfold completes. by rewrite th_setTheme_same. }
  destruct save.
  - by destruct (th_setTheme_saves s t Hv Ea (Hu eq_refl)) as (Hc & _ & _).
  - destruct (themes_get t) as [c|] eqn:E; [|done].
    destruct s as [btn [attr st evs]]. cbn in Ea.
    js_unfold. cbn. rewrite bool_decide_eq_false_2 by done.
    destruct (truthy attr); cbn.
    all: case_bool_decide; cbn.
    all: button_cases btn; cbn; rewrite ?E; done.
Qed.

(** C8: for a theme [t] of the table, light or dark, and every state, the
    current theme after [setTheme(t)] is [t], whether or not the call could
    store the theme; when it can (the storage is usable, or the call is not
    asked to store) the two calls in sequence return [t]. *)
Theorem setTheme_then_getCurrentTheme (t : string) (save : bool) :
  t = "light" ∨ t = "dark" →
  (∀ s, completes ThemeToggle.getCurrentTheme (after (ThemeToggle.setTheme t save) s)
        = Normal t) ∧
  (∀ s, completes Theme.getCurrentTheme (after (Theme.setTheme t save) s) = Normal t) ∧
  (∀ s, (save = true → usable (localStorage (ThemeToggle.page s))) →
        completes (ThemeToggle.setTheme t save;; ThemeToggle.getCurrentTheme) s = Normal t) ∧
  (∀ s, (save = true → usable (localStorage (Theme.page s))) →
        completes (Theme.setTheme t save;; Theme.getCurrentTheme) s = Normal t).
Proof.
  intros Ht. destruct (themes_get_theme t Ht) as [Hv _].
  assert (∀ s, completes ThemeToggle.getCurrentTheme (after (ThemeToggle.setTheme t save) s)
               = Normal t) as Htt.
  { intros s. unfold ThemeToggle.getCurrentTheme, completes, gets. cbn.
    by rewrite tt_setTheme_currentTheme. }
  repeat split.
  - exact Htt.
  - intros s. by apply th_setTheme_getCurrentTheme.
  - intros s Hu. pose proof (tt_setTheme_returns s t save Hv Hu) as Hc.
    pose proof (Htt s) as Hcur.
    unfold completes, after in *. unfold mbind, JS_bind, bind.
    destruct (ThemeToggle.setTheme t save s) as [s' [[]|e]]; cbn in *; done.
  - intros s Hu. pose proof (th_setTheme_returns s t save Hv Hu) as Hc.
    pose proof (th_setTheme_getCurrentTheme s t save Ht) as Hcur.
    unfold completes, after in *. unfold mbind, JS_bind, bind.
    destruct (Theme.setTheme t save s) as [s' [[]|e]]; cbn in *; done.
Qed.

Lemma setTheme_then_getCurrentTheme_witness :
  completes ThemeToggle.getCurrentTheme (after (ThemeToggle.setTheme "dark" true) tt_started)
    = Normal "dark" ∧
  completes (Theme.setTheme "dark" true;; Theme.getCurrentTheme) th_started = Normal "dark".
Proof.
  split.
  - apply (setTheme_then_getCurrentTheme "dark" true). by right.
  - apply (setTheme_then_getCurrentTheme "dark" true); [by right|done].
Defined.

(** ** Claim C9: [toggleTheme] twice *)







(** ** Claim C1: a stored preference outranks the system theme *)

(** C1: in both scripts the listener on the system colour scheme changes
    the state only when no preference is stored; a [setTheme(t, true)] that
    got past its guard and returned has stored one; and from a state with a
    stored preference, after any calls that do not clear it, a change of
    the system colour scheme leaves the state, so the current theme, as it
    is.  (theme-toggle.js has no call that clears the preference; in
    theme.js these are [reset] and a [setTheme] storing the empty string.) *)
Theorem system_theme_yields_to_stored_preference :
  (∀ s matches,
     after (ThemeToggle.on_system_theme_change matches) s ≠ s →
     ¬ has_preference (ThemeToggle.page s)) ∧
  (∀ s t,
     themes_get t ≠ None →
     completes (ThemeToggle.setTheme t true) s = Normal () →
     has_preference (ThemeToggle.page (after (ThemeToggle.setTheme t true) s))) ∧
  (∀ s cs matches,
     has_preference (ThemeToggle.page s) →
     let s' := ThemeToggle.run cs s in
     after (ThemeToggle.on_system_theme_change matches) s' = s' ∧
     completes ThemeToggle.getCurrentTheme (after (ThemeToggle.on_system_theme_change matches) s')
       = completes ThemeToggle.getCurrentTheme s') ∧
  (∀ s matches,
     after (Theme.on_system_theme_change matches) s ≠ s →
     ¬ has_preference (Theme.page s)) ∧
  (∀ s t,
     t ≠ "" → data_theme (Theme.page s) ≠ Some t →
     completes (Theme.setTheme t true) s = Normal () →
     has_preference (Theme.page (after (Theme.setTheme t true) s))) ∧
  (∀ s cs matches,
     has_preference (Theme.page s) →
     Forall (λ c, Theme.clears c = false) cs →
     let s' := Theme.run cs s in
     after (Theme.on_system_theme_change matches) s' = s' ∧
     completes Theme.getCurrentTheme (after (Theme.on_system_theme_change matches) s')
       = completes Theme.getCurrentTheme s').
Proof.
  repeat split.
  - intros s m. apply tt_listener_changes.
  - intros s t Hv Hc. unfold has_preference.
    rewrite (tt_setTheme_returned_stored s t Hv Hc). cbn.
    apply bool_decide_eq_true. by apply themes_get_defined_nonempty.
  - apply tt_listener_ignored.
    apply (tt_run_keeps (λ s, has_preference (ThemeToggle.page s))); [|done].
    intros c s0. apply tt_call_keeps_preference.
  - rewrite tt_listener_ignored; [done|].
    apply (tt_run_keeps (λ s, has_preference (ThemeToggle.page s))); [|done].
    intros c s0. apply tt_call_keeps_preference.
  - intros s m. apply th_listener_changes.
  - intros s t Hne Ha Hc. unfold has_preference.
    rewrite (th_setTheme_returned_stored s t Ha Hc). cbn.
    by apply bool_decide_eq_true.
  - apply th_listener_ignored.
    apply (th_run_keeps (λ s, has_preference (Theme.page s)) (λ c, Theme.clears c = false));
      [|done|done].
    intros c s0. apply th_call_keeps_preference.
  - rewrite th_listener_ignored; [done|].
    apply (th_run_keeps (λ s, has_preference (Theme.page s)) (λ c, Theme.clears c = false));
      [|done|done].
    intros c s0. apply th_call_keeps_preference.
Qed.

(** On a started page: the system turns dark and the theme follows; after
    an explicit [setTheme('light', true)], a toggle and a system change in
    between, a later system change to dark is ignored. *)
Lemma system_theme_yields_to_stored_preference_witness :
  ¬ has_preference (ThemeToggle.page (tt_loaded empty_storage)) ∧
  (let s := after (ThemeToggle.setTheme "light" true) tt_started in
   let s' := ThemeToggle.run [ThemeToggle.Click; ThemeToggle.SystemThemeChange false] s in
   after (ThemeToggle.on_system_theme_change true) s' = s') ∧
  (let s := after (Theme.setTheme "dark" true) th_started in
   let s' := Theme.run [Theme.Click; Theme.SystemThemeChange true] s in
   after (Theme.on_system_theme_change false) s' = s').
Proof.
  split; [|split].
  - apply (proj1 system_theme_yields_to_stored_preference
             (tt_loaded empty_storage) true).
    vm_compute. discriminate.
  - apply (proj1 (proj2 (proj2 system_theme_yields_to_stored_preference))
             (after (ThemeToggle.setTheme "light" true) tt_started)
             [ThemeToggle.Click; ThemeToggle.SystemThemeChange false] true).
    apply (proj1 (proj2 system_theme_yields_to_stored_preference) tt_started "light");
      [done|reflexivity].
  - apply (proj2 (proj2 (proj2 (proj2 (proj2 system_theme_yields_to_stored_preference))))
             (after (Theme.setTheme "dark" true) th_started)
             [Theme.Click; Theme.SystemThemeChange true] false).
    + apply (proj1 (proj2 (proj2 (proj2 (proj2 system_theme_yields_to_stored_preference))))
               th_started "dark"); [done|done|reflexivity].
    + repeat constructor.
Defined.

(** ** Claim C10: a sequence of system colour scheme changes *)









(** ** Claim C7: a storage that throws *)

(** C7, as stated, fails: on a started page of theme-toggle.js whose
    storage is full, [setTheme('dark')] throws the storage's exception to
    its caller; the toggle button keeps the light theme's label and no
    themeChanged event is announced, although the current theme and the
    document attribute are already dark. *)
Lemma setTheme_full_storage_throws :
  let s := after ThemeToggle.init (tt_loaded full_storage) in
  let s' := after (ThemeToggle.setTheme "dark" true) s in
  completes (ThemeToggle.setTheme "dark" true) s = Throw QuotaExceededError ∧
  ThemeToggle.currentTheme s' = "dark" ∧
  data_theme (ThemeToggle.page s') = Some "dark" ∧
  ThemeToggle.themeToggle s' = ThemeToggle.themeToggle s ∧
  dispatched (ThemeToggle.page s') = dispatched (ThemeToggle.page s) ∧
  dispatched (ThemeToggle.page (after (ThemeToggle.setTheme "dark" false) s))
    = (dispatched (ThemeToggle.page s) ++ ["dark"])%list.
Proof. vm_compute. done. Qed.

Lemma tt_setTheme_write_fails s t :
  themes_get t ≠ None → write_fails (localStorage (ThemeToggle.page s)) →
  ThemeToggle.setTheme t true s =
    (ThemeToggle.mkState t (ThemeToggle.themeToggle s)
       (set_data_theme
          (if bool_decide (t = "dark") then Some "dark"
           else if bool_decide (ThemeToggle.currentTheme s = "dark") then None
           else data_theme (ThemeToggle.page s))
          (ThemeToggle.page s)),
     Throw (write_error (localStorage (ThemeToggle.page s)))).
Proof.
  intros H Hf. destruct (themes_get t) as [c|] eqn:E; [|done].
  destruct s as [cur btn [attr [its acc room] evs]].
  unfold write_fails, write_error in *. cbn in Hf.
  js_unfold. rewrite E. cbn.
  repeat (case_bool_decide; cbn); destruct acc, room; cbn; try done.
  all: by destruct Hf.
Qed.

Lemma th_setTheme_write_fails s t :
  themes_get t ≠ None → data_theme (Theme.page s) ≠ Some t →
  write_fails (localStorage (Theme.page s)) →
  completes (Theme.setTheme t true) s = Throw (write_error (localStorage (Theme.page s))) ∧
  Theme.page (after (Theme.setTheme t true) s) =
    set_data_theme
      (if bool_decide (t = "dark") then Some "dark"
       else if truthy (data_theme (Theme.page s)) then None
       else data_theme (Theme.page s))
      (Theme.page s) ∧
  Theme.toggleButton (after (Theme.setTheme t true) s)
    = Theme.toggleButton (after (Theme.updateToggleButton t) s).
Proof.
  intros H Hne Hf. destruct (themes_get t) as [c|] eqn:E; [|done].
  destruct s as [btn [attr [its acc room] evs]].
  unfold write_fails, write_error in *. cbn in Hf, Hne.
  js_unfold. cbn. rewrite bool_decide_eq_false_2 by done.
  destruct (truthy attr); cbn.
  all: case_bool_decide; cbn.
  all: button_cases btn; cbn; rewrite ?E; cbn.
  all: destruct acc, room; cbn; try done.
  all: by destruct Hf.
Qed.

Lemma tt_read_fails s :
  accessible (localStorage (ThemeToggle.page s)) = false →
  ThemeToggle.loadTheme s = (s, Throw SecurityError) ∧
  ThemeToggle.init s = (s, Throw SecurityError) ∧
  ∀ m, ThemeToggle.on_system_theme_change m s = (s, Throw SecurityError).
Proof.
  intros Ha.
  assert (ThemeToggle.loadTheme s = (s, Throw SecurityError)) as Hl
    by by rewrite tt_loadTheme_eq, Ha.
  split; [done|]. split.
  - unfold ThemeToggle.init, mbind, JS_bind, bind. by rewrite Hl.
  - intros m. by rewrite tt_on_system_theme_change_eq, Ha.
Qed.

Lemma th_read_fails s :
  accessible (localStorage (Theme.page s)) = false →
  Theme.loadTheme s = (s, Throw SecurityError) ∧
  Theme.init s = (s, Throw SecurityError) ∧
  ∀ m, Theme.on_system_theme_change m s = (s, Throw SecurityError).
Proof.
  intros Ha.
  assert (Theme.loadTheme s = (s, Throw SecurityError)) as Hl
    by by rewrite th_loadTheme_eq, Ha.
  split; [done|]. split.
  - unfold Theme.init, mbind, JS_bind, bind. by rewrite Hl.
  - intros m. by rewrite th_on_system_theme_change_eq, Ha.
Qed.

(** C7, amended: neither script catches a storage exception.  When the
    storage write throws, [setTheme(t, true)] throws the same exception to
    its caller for every theme [t] of the table; by then the document
    attribute is updated, and with it the in-memory current theme in
    theme-toggle.js and the toggle button in theme.js, but the toggle
    button of theme-toggle.js is not updated and no themeChanged event is
    announced.  When the storage cannot be read, [loadTheme], [init] and the
    system colour scheme listener throw and change nothing. *)
Theorem storage_failure_propagates :
  (∀ s t,
     themes_get t ≠ None → write_fails (localStorage (ThemeToggle.page s)) →
     let s' := after (ThemeToggle.setTheme t true) s in
     completes (ThemeToggle.setTheme t true) s
       = Throw (write_error (localStorage (ThemeToggle.page s))) ∧
     ThemeToggle.currentTheme s' = t ∧
     data_theme (ThemeToggle.page s') =
       (if bool_decide (t = "dark") then Some "dark"
        else if bool_decide (ThemeToggle.currentTheme s = "dark") then None
        else data_theme (ThemeToggle.page s)) ∧
     ThemeToggle.themeToggle s' = ThemeToggle.themeToggle s ∧
     dispatched (ThemeToggle.page s') = dispatched (ThemeToggle.page s) ∧
     localStorage (ThemeToggle.page s') = localStorage (ThemeToggle.page s)) ∧
  (∀ s t,
     themes_get t ≠ None → data_theme (Theme.page s) ≠ Some t →
     write_fails (localStorage (Theme.page s)) →
     let s' := after (Theme.setTheme t true) s in
     completes (Theme.setTheme t true) s
       = Throw (write_error (localStorage (Theme.page s))) ∧
     data_theme (Theme.page s') =
       (if bool_decide (t = "dark") then Some "dark"
        else if truthy (data_theme (Theme.page s)) then None
        else data_theme (Theme.page s)) ∧
     Theme.toggleButton s' = Theme.toggleButton (after (Theme.updateToggleButton t) s) ∧
     dispatched (Theme.page s') = dispatched (Theme.page s) ∧
     localStorage (Theme.page s') = localStorage (Theme.page s)) ∧
  (∀ s m,
     accessible (localStorage (ThemeToggle.page s)) = false →
     ThemeToggle.init s = (s, Throw SecurityError) ∧
     ThemeToggle.on_system_theme_change m s = (s, Throw SecurityError)) ∧
  (∀ s m,
     accessible (localStorage (Theme.page s)) = false →
     Theme.init s = (s, Throw SecurityError) ∧
     Theme.on_system_theme_change m s = (s, Throw SecurityError)).
Proof.
  split; [|split; [|split]].
  - intros s t Hv Hf. cbn. unfold completes, after.
    rewrite (tt_setTheme_write_fails s t Hv Hf). by cbn.
  - intros s t Hv Hd Hf. cbn.
    destruct (th_setTheme_write_fails s t Hv Hd Hf) as (Hc & Hp & Hb).
    rewrite Hp. by cbn.
  - intros s m Ha. destruct (tt_read_fails s Ha) as (_ & Hi & Hl). auto.
  - intros s m Ha. destruct (th_read_fails s Ha) as (_ & Hi & Hl). auto.
Qed.

Lemma storage_failure_propagates_witness :
  completes (ThemeToggle.setTheme "dark" true) (after ThemeToggle.init (tt_loaded full_storage))
    = Throw QuotaExceededError ∧
  Theme.init (th_loaded (mkStorage ∅ false true))
    = (th_loaded (mkStorage ∅ false true), Throw SecurityError).
Proof.
  split.
  - apply (proj1 storage_failure_propagates
             (after ThemeToggle.init (tt_loaded full_storage)) "dark"); [done|].
    by right.
  - apply (proj2 (proj2 (proj2 storage_failure_propagates))
             (th_loaded (mkStorage ∅ false true)) true).
    reflexivity.
Defined.

(** ** The theme scripts and the storage *)

Lemma tt_setTheme_other_keys s t save k :
  k ≠ "theme" →
  items (localStorage (ThemeToggle.page (after (ThemeToggle.setTheme t save) s))) !! k
    = items (localStorage (ThemeToggle.page s)) !! k.
Proof.
  intros Hk. destruct (themes_get t) as [c|] eqn:E.
  2: { unfold after. by rewrite tt_setTheme_rejects. }
  destruct s as [cur btn [attr [its acc room] evs]].
  js_unfold. rewrite E. cbn.
  destruct (bool_decide (cur = "dark")), (bool_decide (t = "dark")); cbn.
  all: destruct save, acc, room; cbn; try done.
  all: button_cases btn; cbn; rewrite ?E; cbn; by rewrite ?lookup_insert_ne.
Qed.

Lemma th_setTheme_other_keys s t save k :
  k ≠ "theme" →
  items (localStorage (Theme.page (after (Theme.setTheme t save) s))) !! k
    = items (localStorage (Theme.page s)) !! k.
Proof.
  intros Hk. destruct s as [btn [attr [its acc room] evs]].
  js_unfold. cbn. destruct (bool_decide (attr = Some t)); cbn; [done|].
  destruct (truthy attr), (bool_decide (t = "dark")); cbn.
  all: button_cases btn; cbn; destruct (themes_get t); cbn; try done.
  all: destruct save, acc, room; cbn; by rewrite ?lookup_insert_ne.
Qed.

(** Without [save] the storage is not written. *)
Lemma tt_setTheme_unsaved s t :
  localStorage (ThemeToggle.page (after (ThemeToggle.setTheme t false) s))
    = localStorage (ThemeToggle.page s).
Proof.
  destruct (themes_get t) as [c|] eqn:E.
  2: { unfold after. by rewrite tt_setTheme_rejects. }
  destruct s as [cur btn [attr st evs]].
  js_unfold. rewrite E. cbn.
  destruct (bool_decide (cur = "dark")), (bool_decide (t = "dark")); cbn.
  all: button_cases btn; cbn; rewrite ?E; done.
Qed.

Lemma th_setTheme_unsaved s t :
  localStorage (Theme.page (after (Theme.setTheme t false) s)) = localStorage (Theme.page s).
Proof.
  destruct s as [btn [attr st evs]].
  js_unfold. cbn. destruct (bool_decide (attr = Some t)); cbn; [done|].
  destruct (truthy attr), (bool_decide (t = "dark")); cbn.
  all: button_cases btn; cbn; destruct (themes_get t); done.
Qed.

Lemma tt_loadTheme_storage s :
  localStorage (ThemeToggle.page (after ThemeToggle.loadTheme s))
    = localStorage (ThemeToggle.page s).
Proof.
  unfold after. rewrite tt_loadTheme_eq. destruct (accessible _); [|done].
  apply tt_setTheme_unsaved.
Qed.

Lemma th_loadTheme_storage s :
  localStorage (Theme.page (after Theme.loadTheme s)) = localStorage (Theme.page s).
Proof.
  unfold after. rewrite th_loadTheme_eq. destruct (accessible _); [|done].
  apply th_setTheme_unsaved.
Qed.

Lemma tt_init_storage s :
  localStorage (ThemeToggle.page (after ThemeToggle.init s))
    = localStorage (ThemeToggle.page s).
Proof.
  rewrite tt_init_after. destruct (completes ThemeToggle.loadTheme s).
  - destruct (tt_updateUI_frame (after ThemeToggle.loadTheme s)) as [_ ->].
    apply tt_loadTheme_storage.
  - apply tt_loadTheme_storage.
Qed.

Lemma th_init_storage s :
  localStorage (Theme.page (after Theme.init s)) = localStorage (Theme.page s).
Proof. rewrite th_init_after. apply th_loadTheme_storage. Qed.

(** X8: starting either theme script reads the storage and never writes
    it: [init] leaves every stored key, the theme included, and the state
    of the storage as they were, also when the stored value is no theme. *)
Theorem init_leaves_storage :
  (∀ s, localStorage (ThemeToggle.page (after ThemeToggle.init s))
          = localStorage (ThemeToggle.page s)) ∧
  (∀ s, localStorage (Theme.page (after Theme.init s)) = localStorage (Theme.page s)).
Proof. split; [apply tt_init_storage|apply th_init_storage]. Qed.

Lemma tt_call_other_keys c s k :
  k ≠ "theme" →
  items (localStorage (ThemeToggle.page (after (ThemeToggle.call c) s))) !! k
    = items (localStorage (ThemeToggle.page s)) !! k.
Proof.
  intros Hk.
  apply (tt_call_keeps
    (λ s', items (localStorage (ThemeToggle.page s')) !! k
           = items (localStorage (ThemeToggle.page s)) !! k) (λ _, True)); try done.
  - intros s' t save _ <-. by apply tt_setTheme_other_keys.
  - intros s' <-. by destruct (tt_updateUI_frame s') as [_ ->].
Qed.

Lemma th_call_other_keys c s k :
  k ≠ "theme" →
  items (localStorage (Theme.page (after (Theme.call c) s))) !! k
    = items (localStorage (Theme.page s)) !! k.
Proof.
  intros Hk. destruct (Theme.clears c) eqn:Hc.
  - destruct c as [|t save| | | |m]; try done.
    + by apply th_setTheme_other_keys.
    + cbn. rewrite th_reset_after. destruct (accessible _); [|done].
      rewrite th_setTheme_other_keys by done.
      destruct s as [btn [attr [its acc room] evs]]. cbn.
      by rewrite lookup_delete_ne.
  - apply (th_call_keeps
      (λ p, items (localStorage p) !! k = items (localStorage (Theme.page s)) !! k));
      [|done..].
    intros s' t save _ _ <-. by apply th_setTheme_other_keys.
Qed.

(** X9: the theme scripts own one key of the storage.  No method and no
    listener of either script changes the value stored under any other
    key, whatever the state, the arguments and the outcome of the call. *)
Theorem theme_calls_keep_other_keys (k : string) :
  k ≠ "theme" →
  (∀ c s, items (localStorage (ThemeToggle.page (after (ThemeToggle.call c) s))) !! k
            = items (localStorage (ThemeToggle.page s)) !! k) ∧
  (∀ c s, items (localStorage (Theme.page (after (Theme.call c) s))) !! k
            = items (localStorage (Theme.page s)) !! k).
Proof.
  intros Hk. split; intros c s.
  - by apply tt_call_other_keys.
  - by apply th_call_other_keys.
Qed.

Lemma theme_calls_keep_other_keys_witness :
  "token" ≠ "theme" ∧
  items (localStorage (ThemeToggle.page (after (ThemeToggle.call ThemeToggle.CallToggleTheme)
    (tt_loaded (mkStorage {[ "token" := "abc" ]} true true))))) !! "token" = Some "abc" ∧
  items (localStorage (Theme.page (after (Theme.call Theme.CallReset)
    (th_loaded (mkStorage {[ "token" := "abc" ]} true true))))) !! "token" = Some "abc".
Proof.
  assert ("token" ≠ "theme") as H by done.
  split; [exact H|]. split.
  - by rewrite (proj1 (theme_calls_keep_other_keys "token" H)).
  - by rewrite (proj2 (theme_calls_keep_other_keys "token" H)).
Defined.

Lemma themes_get_Own t c : themes_get t = Some (Own c) → t = "light" ∨ t = "dark".
Proof.
  rewrite themes_get_own.
  destruct (decide (t = "light")) as [->|Hl]; [by left|].
  destruct (decide (t = "dark")) as [->|Hd]; [by right|].
  rewrite !bool_decide_eq_false_2 by done. by destruct (_ !! t).
Qed.

Lemma tt_setTheme_stores_theme s t save v :
  ¬ inherited t →
  items (localStorage (ThemeToggle.page (after (ThemeToggle.setTheme t save) s))) !! "theme"
    = Some v →
  v = "light" ∨ v = "dark" ∨ items (localStorage (ThemeToggle.page s)) !! "theme" = Some v.
Proof.
  intros Hni Hv. destruct (themes_get t) as [[c|n]|] eqn:E.
  - apply tt_setTheme_stored_value in Hv as [->|Hv]; [|auto].
    apply themes_get_Own in E as [->| ->]; auto.
  - destruct Hni. by exists n.
  - unfold after in Hv. rewrite tt_setTheme_rejects in Hv by done. auto.
Qed.

Lemma tt_call_stores_theme c s v :
  ThemeToggle.expected c →
  items (localStorage (ThemeToggle.page (after (ThemeToggle.call c) s))) !! "theme" = Some v →
  v = "light" ∨ v = "dark" ∨ items (localStorage (ThemeToggle.page s)) !! "theme" = Some v.
Proof.
  intros Hc. destruct c as [|t save| | |m]; cbn.
  - rewrite tt_init_storage. auto.
  - by apply tt_setTheme_stores_theme.
  - unfold after. rewrite tt_toggleTheme_eq. apply tt_setTheme_stores_theme.
    case_bool_decide; by apply themes_get_theme; auto.
  - unfold after, ThemeToggle.on_click. rewrite tt_toggleTheme_eq.
    apply tt_setTheme_stores_theme.
    case_bool_decide; by apply themes_get_theme; auto.
  - unfold after. rewrite tt_on_system_theme_change_eq.
    destruct (accessible _); [|auto]. destruct (truthy _); [auto|].
    apply tt_setTheme_stores_theme. destruct m; by apply themes_get_theme; auto.
Qed.

Lemma th_setTheme_stores_theme s t save v :
  t = "light" ∨ t = "dark" →
  items (localStorage (Theme.page (after (Theme.setTheme t save) s))) !! "theme" = Some v →
  v = "light" ∨ v = "dark" ∨ items (localStorage (Theme.page s)) !! "theme" = Some v.
Proof.
  intros Ht Hv. apply th_setTheme_stored_value in Hv as [[-> _]|Hv]; [|auto].
  destruct Ht; auto.
Qed.

Lemma th_call_stores_theme c s v :
  th_expected c →
  items (localStorage (Theme.page (after (Theme.call c) s))) !! "theme" = Some v →
  v = "light" ∨ v = "dark" ∨ items (localStorage (Theme.page s)) !! "theme" = Some v.
Proof.
  intros Hc. destruct c as [|t save| | | |m]; cbn.
  - rewrite th_init_storage. auto.
  - by apply th_setTheme_stores_theme.
  - unfold after. rewrite th_toggleTheme_eq. apply th_setTheme_stores_theme.
    case_bool_decide; auto.
  - rewrite th_reset_after. destruct (accessible _); [|auto].
    intros Hv. apply th_setTheme_stores_theme in Hv as [?|[?|Hv]]; auto.
    destruct s as [btn [attr [its acc room] evs]]. cbn in Hv.
    by rewrite lookup_delete_eq in Hv.
  - unfold after, Theme.on_click. rewrite th_toggleTheme_eq. apply th_setTheme_stores_theme.
    case_bool_decide; auto.
  - unfold after. rewrite th_on_system_theme_change_eq.
    destruct (accessible _); [|auto]. destruct (truthy _); [auto|].
    apply th_setTheme_stores_theme. destruct m; auto.
Qed.

(** X10: the only values the scripts put under the key [theme] are
    [light] and [dark].  After any call the page is expected to make
    (for theme-toggle.js, [setTheme] with no name inherited from
    [Object.prototype]; for theme.js, [setTheme] with a theme of the table)
    the stored theme is [light], [dark] or the value that was there. *)
Theorem theme_calls_store_light_or_dark :
  (∀ c s v,
     ThemeToggle.expected c →
     items (localStorage (ThemeToggle.page (after (ThemeToggle.call c) s))) !! "theme" = Some v →
     v = "light" ∨ v = "dark"
     ∨ items (localStorage (ThemeToggle.page s)) !! "theme" = Some v) ∧
  (∀ c s v,
     th_expected c →
     items (localStorage (Theme.page (after (Theme.call c) s))) !! "theme" = Some v →
     v = "light" ∨ v = "dark" ∨ items (localStorage (Theme.page s)) !! "theme" = Some v).
Proof. split; [apply tt_call_stores_theme|apply th_call_stores_theme]. Qed.

Lemma theme_calls_store_light_or_dark_witness :
  ("dark" = "light" ∨ "dark" = "dark"
   ∨ items (localStorage (ThemeToggle.page tt_started)) !! "theme" = Some "dark") ∧
  ("light" = "light" ∨ "light" = "dark"
   ∨ items (localStorage (Theme.page (after Theme.toggleTheme th_started))) !! "theme"
     = Some "light").
Proof.
  split.
  - apply (proj1 theme_calls_store_light_or_dark ThemeToggle.CallToggleTheme tt_started "dark");
      done.
  - apply (proj2 theme_calls_store_light_or_dark Theme.CallReset
             (after Theme.toggleTheme th_started) "light"); done.
Defined.

(** ** [toggleTheme] *)

Lemma tt_toggleTheme_currentTheme s :
  ThemeToggle.currentTheme (after ThemeToggle.toggleTheme s)
    = if bool_decide (ThemeToggle.currentTheme s = "light") then "dark" else "light".
Proof.
  unfold after. rewrite tt_toggleTheme_eq.
  apply tt_setTheme_currentTheme. by case_bool_decide.
Qed.

(** The theme [toggleTheme] of theme.js asks for is never the one on the
    document. *)
Lemma th_toggleTheme_passes s :
  data_theme (Theme.page s)
    ≠ Some (if bool_decide (or_else (data_theme (Theme.page s)) "light" = "light")
            then "dark" else "light").
Proof.
  destruct (data_theme (Theme.page s)) as [a|]; [|done]. cbn.
  destruct (decide (a = "")) as [->|Ha]; [done|].
  rewrite (bool_decide_eq_true_2 (a ≠ "")) by done.
  case_bool_decide as E; [by rewrite E|]. intros [= ->]. done.
Qed.

(** X11: [toggleTheme] always ends in the other theme: whatever the state
    and whether or not the storage can be written, [getCurrentTheme]
    afterwards returns [dark] when it returned [light] before the call, and
    [light] when it returned anything else. *)
Theorem toggleTheme_flips :
  (∀ s cur,
     completes ThemeToggle.getCurrentTheme s = Normal cur →
     completes ThemeToggle.getCurrentTheme (after ThemeToggle.toggleTheme s)
       = Normal (if bool_decide (cur = "light") then "dark" else "light")) ∧
  (∀ s cur,
     completes Theme.getCurrentTheme s = Normal cur →
     completes Theme.getCurrentTheme (after Theme.toggleTheme s)
       = Normal (if bool_decide (cur = "light") then "dark" else "light")).
Proof.
  split; intros s cur [= <-].
  - unfold ThemeToggle.getCurrentTheme, completes, gets. cbn. f_equal.
    apply tt_toggleTheme_currentTheme.
  - unfold after at 1. rewrite th_toggleTheme_eq.
    apply th_setTheme_getCurrentTheme. case_bool_decide; auto.
Qed.

Lemma toggleTheme_flips_witness :
  completes ThemeToggle.getCurrentTheme (after ThemeToggle.toggleTheme tt_started)
    = Normal "dark" ∧
  completes Theme.getCurrentTheme
    (after Theme.toggleTheme (after Theme.toggleTheme th_started)) = Normal "light".
Proof.
  split.
  - by apply (proj1 toggleTheme_flips tt_started "light").
  - by apply (proj2 toggleTheme_flips (after Theme.toggleTheme th_started) "dark").
Defined.

(** X12: with a usable storage [toggleTheme] returns normally, stores the
    theme it switched to as the preference and announces it in exactly one
    [themeChanged] event, in every state of either script. *)
Theorem toggleTheme_stores_and_announces :
  (∀ s, usable (localStorage (ThemeToggle.page s)) →
     let t := if bool_decide (ThemeToggle.currentTheme s = "light") then "dark" else "light" in
     let s' := after ThemeToggle.toggleTheme s in
     completes ThemeToggle.toggleTheme s = Normal () ∧
     items (localStorage (ThemeToggle.page s')) !! "theme" = Some t ∧
     dispatched (ThemeToggle.page s') = dispatched (ThemeToggle.page s) ++ [t]) ∧
  (∀ s, usable (localStorage (Theme.page s)) →
     let t := if bool_decide (or_else (data_theme (Theme.page s)) "light" = "light")
              then "dark" else "light" in
     let s' := after Theme.toggleTheme s in
     completes Theme.toggleTheme s = Normal () ∧
     items (localStorage (Theme.page s')) !! "theme" = Some t ∧
     dispatched (Theme.page s') = dispatched (Theme.page s) ++ [t]).
Proof.
  split; intros s Hu; cbv zeta; unfold completes, after.
  - rewrite tt_toggleTheme_eq. apply tt_setTheme_saves; [|done]. by case_bool_decide.
  - rewrite th_toggleTheme_eq.
    apply th_setTheme_saves; [by case_bool_decide|apply th_toggleTheme_passes|done].
Qed.

Lemma toggleTheme_stores_and_announces_witness :
  (completes ThemeToggle.toggleTheme tt_started = Normal () ∧
   items (localStorage (ThemeToggle.page (after ThemeToggle.toggleTheme tt_started)))
     !! "theme" = Some "dark" ∧
   dispatched (ThemeToggle.page (after ThemeToggle.toggleTheme tt_started))
     = ["light"; "dark"]) ∧
  (completes Theme.toggleTheme th_started = Normal () ∧
   items (localStorage (Theme.page (after Theme.toggleTheme th_started))) !! "theme"
     = Some "dark" ∧
   dispatched (Theme.page (after Theme.toggleTheme th_started)) = ["light"; "dark"]).
Proof.
  split.
  - by apply (proj1 toggleTheme_stores_and_announces tt_started).
  - by apply (proj2 toggleTheme_stores_and_announces th_started).
Defined.

(** ** The system colour scheme listener without a stored preference *)

(** X13: while no preference is stored and the storage can be read, the
    listener follows the system: after an event the current theme is dark
    when the system asks for dark and light otherwise, in every state of
    either script and also when the write of the preference fails. *)
Theorem system_theme_followed_without_preference :
  (∀ s m,
     accessible (localStorage (ThemeToggle.page s)) = true →
     ¬ has_preference (ThemeToggle.page s) →
     completes ThemeToggle.getCurrentTheme (after (ThemeToggle.on_system_theme_change m) s)
       = Normal (theme_of m)) ∧
  (∀ s m,
     accessible (localStorage (Theme.page s)) = true →
     ¬ has_preference (Theme.page s) →
     completes Theme.getCurrentTheme (after (Theme.on_system_theme_change m) s)
       = Normal (theme_of m)).
Proof.
  split; intros s m Ha Hn; unfold has_preference in Hn; apply not_true_is_false in Hn.
  - unfold ThemeToggle.getCurrentTheme, completes, gets. cbn. f_equal.
    unfold after. rewrite tt_on_system_theme_change_eq, Ha, Hn.
    apply tt_setTheme_currentTheme. by destruct m.
  - unfold after at 1. rewrite th_on_system_theme_change_eq, Ha, Hn.
    apply th_setTheme_getCurrentTheme. destruct m; auto.
Qed.

Lemma system_theme_followed_without_preference_witness :
  completes ThemeToggle.getCurrentTheme
    (after (ThemeToggle.on_system_theme_change true) (tt_loaded full_storage)) = Normal "dark" ∧
  completes Theme.getCurrentTheme
    (after (Theme.on_system_theme_change true) th_started) = Normal "dark".
Proof.
  split.
  - apply (proj1 system_theme_followed_without_preference (tt_loaded full_storage) true).
    + done.
    + vm_compute. discriminate.
  - apply (proj2 system_theme_followed_without_preference th_started true).
    + done.
    + vm_compute. discriminate.
Defined.

(** ** Restoring the theme at start-up *)

Lemma tt_init_theme s :
  accessible (localStorage (ThemeToggle.page s)) = true →
  let t := or_else (items (localStorage (ThemeToggle.page s)) !! "theme") "light" in
  ThemeToggle.currentTheme (after ThemeToggle.init s)
    = ThemeToggle.currentTheme (after (ThemeToggle.setTheme t false) s) ∧
  data_theme (ThemeToggle.page (after ThemeToggle.init s))
    = data_theme (ThemeToggle.page (after (ThemeToggle.setTheme t false) s)).
Proof.
  intros Ha. cbv zeta. rewrite tt_init_after.
  pose proof (tt_loadTheme_eq s) as H. rewrite Ha in H.
  unfold completes, after. rewrite H.
  destruct (ThemeToggle.setTheme _ false s) as [s' [[]|e]]; cbn; [|done].
  destruct (tt_updateUI_frame s') as [Hc Hp]. unfold after in Hc, Hp.
  by rewrite Hc, Hp.
Qed.

Lemma th_init_theme s :
  accessible (localStorage (Theme.page s)) = true →
  data_theme (Theme.page (after Theme.init s))
    = data_theme (Theme.page (after
        (Theme.setTheme (or_else (items (localStorage (Theme.page s)) !! "theme") "light")
           false) s)).
Proof.
  intros Ha. rewrite th_init_after. unfold after. by rewrite th_loadTheme_eq, Ha.
Qed.

Lemma th_getCurrentTheme_eq s :
  completes Theme.getCurrentTheme s = Normal (or_else (data_theme (Theme.page s)) "light").
Proof. done. Qed.

(** X14: a stored theme survives a reload.  With a usable storage,
    [setTheme(t)] for a theme of the table, then a fresh load of the page
    over the same storage and [init], ends with [t] as the current theme
    and on the document.  (In theme.js [t] must not be the value of the
    data-theme attribute, or [setTheme] stores nothing.) *)
Theorem stored_theme_survives_reload (t : string) :
  t = "light" ∨ t = "dark" →
  (∀ s button,
     usable (localStorage (ThemeToggle.page s)) →
     let s' := after ThemeToggle.init
                 (tt_reloaded button (after (ThemeToggle.setTheme t true) s)) in
     completes ThemeToggle.getCurrentTheme s' = Normal t ∧
     data_theme (ThemeToggle.page s') = if bool_decide (t = "dark") then Some "dark" else None) ∧
  (∀ s,
     usable (localStorage (Theme.page s)) →
     data_theme (Theme.page s) ≠ Some t →
     let s' := after Theme.init (th_reloaded (after (Theme.setTheme t true) s)) in
     completes Theme.getCurrentTheme s' = Normal t ∧
     data_theme (Theme.page s') = if bool_decide (t = "dark") then Some "dark" else None).
Proof.
  intros Ht.
  assert (themes_get t ≠ None) as Hv by by apply themes_get_theme.
  assert (or_else (Some t) "light" = t) as Hor by by destruct Ht as [-> | ->].
  split.
  - intros s button Hu. cbv zeta.
    destruct (tt_setTheme_saves s t Hv Hu) as (_ & Hst & _).
    destruct (tt_setTheme_storage_flags s t true) as [Ha _].
    destruct (tt_init_theme (tt_reloaded button (after (ThemeToggle.setTheme t true) s)))
      as [Hc Hd].
    { cbn. rewrite Ha. apply Hu. }
    cbn in Hc, Hd. rewrite Hst, Hor in Hc, Hd.
    unfold ThemeToggle.getCurrentTheme, completes, gets. cbn [snd].
    rewrite Hc, Hd, tt_setTheme_currentTheme, tt_setTheme_data_theme by done.
    split; [done|]. by case_bool_decide.
  - intros s Hu Hne. cbv zeta.
    destruct (th_setTheme_saves s t Hv Hne Hu) as (_ & Hst & _).
    destruct (th_setTheme_storage_flags s t true) as [Ha _].
    pose proof (th_init_theme (th_reloaded (after (Theme.setTheme t true) s))) as Hd.
    cbn in Hd. rewrite Ha, Hst, Hor in Hd. specialize (Hd (proj1 Hu)).
    rewrite th_getCurrentTheme_eq, Hd, th_setTheme_data_theme by done.
    cbn. destruct Ht as [-> | ->]; done.
Qed.

Lemma stored_theme_survives_reload_witness :
  (let s' := after ThemeToggle.init
               (tt_reloaded None (after (ThemeToggle.setTheme "dark" true) tt_started)) in
   completes ThemeToggle.getCurrentTheme s' = Normal "dark" ∧
   data_theme (ThemeToggle.page s') = Some "dark") ∧
  (let s' := after Theme.init (th_reloaded (after (Theme.setTheme "dark" true) th_started)) in
   completes Theme.getCurrentTheme s' = Normal "dark" ∧
   data_theme (Theme.page s') = Some "dark").
Proof.
  split.
  - by apply (proj1 (stored_theme_survives_reload "dark" (or_intror eq_refl)) tt_started None).
  - by apply (proj2 (stored_theme_survives_reload "dark" (or_intror eq_refl)) th_started).
Defined.

(** X15: the light theme is the default.  On a freshly loaded page [init]
    leaves the light theme, with no theme attribute on the document,
    unless the storage can be read and holds a usable theme: in
    theme-toggle.js, when every readable stored value is [light] or no
    property of the theme table; in theme.js, when the readable stored
    value is not [dark]. *)
Theorem init_defaults_to_light :
  (∀ button st,
     (∀ v, accessible st = true → items st !! "theme" = Some v →
           themes_get v = None ∨ v = "light") →
     let s' := after ThemeToggle.init (ThemeToggle.mkState "light" button (mkPage None st [])) in
     completes ThemeToggle.getCurrentTheme s' = Normal "light" ∧
     data_theme (ThemeToggle.page s') = None) ∧
  (∀ st,
     (accessible st = true → items st !! "theme" ≠ Some "dark") →
     let s' := after Theme.init (th_loaded st) in
     completes Theme.getCurrentTheme s' = Normal "light" ∧
     data_theme (Theme.page s') = None).
Proof.
  split.
  - intros button st Hst. cbv zeta.
    unfold ThemeToggle.getCurrentTheme, completes, gets. cbn [snd].
    destruct (accessible st) eqn:Ha.
    + destruct (tt_init_theme (ThemeToggle.mkState "light" button (mkPage None st [])) Ha)
        as [-> ->]. cbn [ThemeToggle.page localStorage].
      assert (or_else (items st !! "theme") "light" = "light"
              ∨ themes_get (or_else (items st !! "theme") "light") = None) as [->|Hn].
      { destruct (items st !! "theme") as [v|] eqn:Ev; cbn; [|by left].
        case_bool_decide; [|by left].
        destruct (Hst v eq_refl eq_refl) as [?|?]; auto. }
      * by rewrite tt_setTheme_currentTheme, tt_setTheme_data_theme.
      * unfold after. by rewrite tt_setTheme_rejects.
    + rewrite tt_init_after. unfold completes, after. rewrite tt_loadTheme_eq. cbn.
      by rewrite Ha.
  - intros st Hst. cbv zeta. rewrite th_getCurrentTheme_eq.
    assert (data_theme (Theme.page (after Theme.init (th_loaded st))) = None) as ->; [|done].
    destruct (accessible st) eqn:Ha.
    + rewrite th_init_theme by done. cbn [Theme.page th_loaded localStorage].
      rewrite th_setTheme_data_theme by done. cbn.
      rewrite bool_decide_eq_false_2; [done|].
      destruct (items st !! "theme") as [v|] eqn:Ev; cbn; [|done].
      case_bool_decide; [|done]. intros ->. by apply Hst.
    + rewrite th_init_after. unfold after. rewrite th_loadTheme_eq. cbn. by rewrite Ha.
Qed.

Lemma init_defaults_to_light_witness :
  (let s' := after ThemeToggle.init
       (ThemeToggle.mkState "light" None
          (mkPage None (mkStorage {[ "theme" := "blue" ]} true true) [])) in
   completes ThemeToggle.getCurrentTheme s' = Normal "light" ∧
   data_theme (ThemeToggle.page s') = None) ∧
  (let s' := after Theme.init (th_loaded (mkStorage {[ "theme" := "blue" ]} true true)) in
   completes Theme.getCurrentTheme s' = Normal "light" ∧
   data_theme (Theme.page s') = None).
Proof.
  split.
  - apply (proj1 init_defaults_to_light None (mkStorage {[ "theme" := "blue" ]} true true)).
    intros v _ Hv. left. vm_compute in Hv. by injection Hv as <-.
  - apply (proj2 init_defaults_to_light (mkStorage {[ "theme" := "blue" ]} true true)).
    intros _. vm_compute. discriminate.
Defined.

(** X16: theme.js creates its toggle button with the icon of the light
    theme whatever theme it restored: on a freshly loaded page with a
    readable storage that holds [dark], [init] ends with the dark theme and
    a button that carries the sun icon and the label of no theme; the first
    [setTheme] that changes the theme brings the button in line. *)
Theorem created_toggle_ignores_restored_theme (st : Storage) :
  accessible st = true → items st !! "theme" = Some "dark" →
  let s' := after Theme.init (th_loaded st) in
  completes Theme.getCurrentTheme s' = Normal "dark" ∧
  Theme.toggleButton s'
    = Some (mkToggleButton (Some "bi bi-sun-fill") None (Some "切换主题")) ∧
  Theme.toggleButton (after (Theme.setTheme "light" false) s')
    = Some (mkToggleButton (Some "bi-sun-fill") None (Some "切换到浅色模式")).
Proof.
  intros Ha Hst. destruct st as [its acc room]. cbn in Ha, Hst. subst acc.
  cbv zeta. unfold th_loaded. js_unfold. js_unfold. cbn. rewrite Hst. cbn. done.
Qed.

Lemma created_toggle_ignores_restored_theme_witness :
  let s' := after Theme.init (th_loaded (mkStorage {[ "theme" := "dark" ]} true true)) in
  completes Theme.getCurrentTheme s' = Normal "dark" ∧
  Theme.toggleButton s'
    = Some (mkToggleButton (Some "bi bi-sun-fill") None (Some "切换主题")) ∧
  Theme.toggleButton (after (Theme.setTheme "light" false) s')
    = Some (mkToggleButton (Some "bi-sun-fill") None (Some "切换到浅色模式")).
Proof.
  by apply (created_toggle_ignores_restored_theme (mkStorage {[ "theme" := "dark" ]} true true)).
Defined.

(** ** The events theme-toggle.js announces *)

(** A valid theme is announced exactly when the call returns. *)
Lemma tt_setTheme_announces s t save :
  themes_get t ≠ None →
  completes (ThemeToggle.setTheme t save) s = Normal () →
  dispatched (ThemeToggle.page (after (ThemeToggle.setTheme t save) s))
    = dispatched (ThemeToggle.page s) ++ [t].
Proof.
  intros H. destruct (themes_get t) as [c|] eqn:E; [|done].
  destruct s as [cur btn [attr [its acc room] evs]].
  js_unfold. rewrite E. cbn.
  destruct (bool_decide (cur = "dark")), (bool_decide (t = "dark")); cbn.
  all: destruct save, acc, room; cbn; try done.
  all: button_cases btn; cbn; rewrite ?E; done.
Qed.

Lemma tt_call_flags c s :
  accessible (localStorage (ThemeToggle.page (after (ThemeToggle.call c) s)))
    = accessible (localStorage (ThemeToggle.page s)) ∧
  has_room (localStorage (ThemeToggle.page (after (ThemeToggle.call c) s)))
    = has_room (localStorage (ThemeToggle.page s)).
Proof.
  apply (tt_call_keeps
    (λ s', accessible (localStorage (ThemeToggle.page s'))
             = accessible (localStorage (ThemeToggle.page s)) ∧
           has_room (localStorage (ThemeToggle.page s'))
             = has_room (localStorage (ThemeToggle.page s))) (λ _, True)); try done.
  - intros s' t save _ [<- <-]. apply tt_setTheme_storage_flags.
  - intros s' [<- <-]. by destruct (tt_updateUI_frame s') as [_ ->].
Qed.

Lemma tt_setTheme_announced s t save :
  ¬ inherited t → usable (localStorage (ThemeToggle.page s)) →
  tt_announced s → tt_announced (after (ThemeToggle.setTheme t save) s).
Proof.
  intros Hni Hu [Hall Hlast].
  destruct (themes_get t) as [[c|n]|] eqn:E.
  - assert (themes_get t ≠ None) as Hv by congruence.
    unfold tt_announced.
    rewrite tt_setTheme_announces, tt_setTheme_currentTheme; [|done..|].
    2: { by apply tt_setTheme_returns. }
    split.
    + apply Forall_app. split; [done|]. constructor; [|done].
      by apply themes_get_Own in E.
    + intros e. rewrite last_snoc. by intros [= <-].
  - destruct Hni. by exists n.
  - unfold after. by rewrite tt_setTheme_rejects.
Qed.

Lemma tt_call_announced c s :
  ThemeToggle.expected c →
  tt_coherent s ∧ usable (localStorage (ThemeToggle.page s)) ∧ tt_announced s →
  tt_coherent (after (ThemeToggle.call c) s)
  ∧ usable (localStorage (ThemeToggle.page (after (ThemeToggle.call c) s)))
  ∧ tt_announced (after (ThemeToggle.call c) s).
Proof.
  intros Hc.
  apply (tt_call_keeps
    (λ s, tt_coherent s ∧ usable (localStorage (ThemeToggle.page s)) ∧ tt_announced s)
    (λ t, ¬ inherited t)).
  - intros [n H]. vm_compute in H. discriminate.
  - intros [n H]. vm_compute in H. discriminate.
  - intros s' v [[_ Hst] _]. apply Hst.
  - intros s' t save Hni (Hco & Hu & Han). split; [|split].
    + by apply tt_setTheme_coherent.
    + destruct (tt_setTheme_storage_flags s' t save) as [E1 E2].
      destruct Hu. split; congruence.
    + by apply tt_setTheme_announced.
  - intros s'. unfold tt_coherent, tt_announced.
    by destruct (tt_updateUI_frame s') as [-> ->].
  - intros t save ->. exact Hc.
Qed.

Lemma tt_reachable_announced s :
  ThemeToggle.reachable s →
  tt_coherent s ∧ (usable (localStorage (ThemeToggle.page s)) → tt_announced s).
Proof.
  induction 1 as [button st Hst|s c Hr [Hco IH] Hc].
  - split; [split; [by left|done]|]. intros _. split; [constructor|done].
  - destruct (tt_call_flags c s) as [Ea Er].
    assert (usable (localStorage (ThemeToggle.page (after (ThemeToggle.call c) s)))
            → usable (localStorage (ThemeToggle.page s))) as Hback.
    { intros [H1 H2]. split; congruence. }
    split.
    + apply tt_reachable_coherent. by constructor.
    + intros Hu. apply (tt_call_announced c s Hc). auto.
Qed.

(** X17: with a usable storage theme-toggle.js keeps its listeners
    informed.  In every reachable state every [themeChanged] event
    announced so far carries [light] or [dark], and the last one carries
    the theme [getCurrentTheme] returns. *)
Theorem announced_theme_is_current s :
  ThemeToggle.reachable s →
  usable (localStorage (ThemeToggle.page s)) →
  Forall (λ e, e = "light" ∨ e = "dark") (dispatched (ThemeToggle.page s)) ∧
  ∀ e, last (dispatched (ThemeToggle.page s)) = Some e →
       completes ThemeToggle.getCurrentTheme s = Normal e.
Proof.
  intros Hr Hu. destruct (tt_reachable_announced s Hr) as [_ Han].
  destruct (Han Hu) as [Hall Hlast]. split; [done|].
  intros e He. unfold ThemeToggle.getCurrentTheme, completes, gets. cbn.
  f_equal. by apply Hlast.
Qed.

Lemma announced_theme_is_current_witness :
  Forall (λ e, e = "light" ∨ e = "dark")
    (dispatched (ThemeToggle.page (after ThemeToggle.toggleTheme tt_started))) ∧
  ∀ e, last (dispatched (ThemeToggle.page (after ThemeToggle.toggleTheme tt_started))) = Some e →
       completes ThemeToggle.getCurrentTheme (after ThemeToggle.toggleTheme tt_started)
         = Normal e.
Proof.
  apply (announced_theme_is_current (after ThemeToggle.toggleTheme tt_started)).
  - apply (ThemeToggle.reachable_call _ ThemeToggle.CallToggleTheme); [|done].
    apply tt_started_reachable.
  - done.
Defined.

(** ** The toggle button of theme-toggle.js *)

Lemma themes_get_dark :
  themes_get "dark" = Some (Own (mkThemeConfig "深色模式" "bi-moon-fill" "dark")).
Proof. reflexivity. Qed.

Lemma tt_updateUI_shows s :
  ThemeToggle.currentTheme s = "light" ∨ ThemeToggle.currentTheme s = "dark" →
  tt_button_shows (after ThemeToggle.updateUI s).
Proof.
  destruct s as [cur btn pg]. cbn. unfold tt_button_shows. intros [-> | ->].
  - button_cases btn; js_unfold; cbn; rewrite ?themes_get_light; cbn.
    all: tt_shows (mkThemeConfig "浅色模式" "bi-sun-fill" "") "dark"
           (mkThemeConfig "深色模式" "bi-moon-fill" "dark").
  - button_cases btn; js_unfold; cbn; rewrite ?themes_get_dark; cbn.
    all: tt_shows (mkThemeConfig "深色模式" "bi-moon-fill" "dark") "light"
           (mkThemeConfig "浅色模式" "bi-sun-fill" "").
Qed.

Lemma tt_setTheme_shows s t save :
  t = "light" ∨ t = "dark" →
  completes (ThemeToggle.setTheme t save) s = Normal () →
  tt_button_shows (after (ThemeToggle.setTheme t save) s).
Proof.
  intros Ht. destruct s as [cur btn [attr [its acc room] evs]].
  unfold tt_button_shows. destruct Ht as [-> | ->].
  - js_unfold. rewrite themes_get_light. cbn.
    destruct (bool_decide (cur = "dark")); cbn.
    all: destruct save, acc, room; cbn; try done.
    all: button_cases btn; cbn; rewrite ?themes_get_light; cbn; intros _.
    all: tt_shows (mkThemeConfig "浅色模式" "bi-sun-fill" "") "dark"
           (mkThemeConfig "深色模式" "bi-moon-fill" "dark").
  - js_unfold. rewrite themes_get_dark. cbn.
    destruct (bool_decide (cur = "dark")); cbn.
    all: destruct save, acc, room; cbn; try done.
    all: button_cases btn; cbn; rewrite ?themes_get_dark; cbn; intros _.
    all: tt_shows (mkThemeConfig "深色模式" "bi-moon-fill" "dark") "light"
           (mkThemeConfig "浅色模式" "bi-sun-fill" "").
Qed.

Lemma tt_init_returned s :
  completes ThemeToggle.init s = Normal () →
  after ThemeToggle.init s = after ThemeToggle.updateUI (after ThemeToggle.loadTheme s).
Proof.
  rewrite tt_init_after.
  unfold ThemeToggle.init, completes, after, mbind, JS_bind, bind.
  by destruct (ThemeToggle.loadTheme s) as [s' [[]|e]].
Qed.

Lemma tt_loadTheme_coherent s : tt_coherent s → tt_coherent (after ThemeToggle.loadTheme s).
Proof.
  intros Hco. unfold after. rewrite tt_loadTheme_eq.
  destruct (accessible _); [|done].
  apply tt_setTheme_coherent; [|done].
  destruct (items _ !! "theme") as [v|] eqn:Ev; cbn.
  - case_bool_decide; [by apply (proj2 Hco)|].
    intros [n Hn]. vm_compute in Hn. discriminate.
  - intros [n Hn]. vm_compute in Hn. discriminate.
Qed.

Lemma tt_expected_theme t :
  ¬ inherited t → themes_get t ≠ None → t = "light" ∨ t = "dark".
Proof.
  intros Hni Hv. destruct (themes_get t) as [[c|n]|] eqn:E; [|..|done].
  - by apply themes_get_Own in E.
  - destruct Hni. by exists n.
Qed.

(** X18: the toggle button of theme-toggle.js follows the theme.  In a
    reachable state, a call the page is expected to make and that returns
    normally leaves the button showing the current theme (icon and text of
    that theme, label naming the other one), provided the button showed
    the theme before; [init] needs no such proviso. *)
Theorem toggle_button_shows_theme c s :
  ThemeToggle.reachable s → ThemeToggle.expected c →
  c = ThemeToggle.CallInit ∨ tt_button_shows s →
  completes (ThemeToggle.call c) s = Normal () →
  tt_button_shows (after (ThemeToggle.call c) s).
Proof.
  intros Hr Hc Hb Hn. apply tt_reachable_coherent in Hr.
  destruct c as [|t save| | |m]; cbn in *.
  - rewrite tt_init_returned by done. apply tt_updateUI_shows.
    destruct (tt_loadTheme_coherent s Hr) as [[[-> _]|[-> _]] _]; auto.
  - destruct Hb as [|Hb]; [done|].
    destruct (themes_get t) as [p|] eqn:E.
    + apply tt_setTheme_shows; [|done]. apply tt_expected_theme; [done|congruence].
    + unfold after. by rewrite tt_setTheme_rejects.
  - unfold after, completes in *. rewrite tt_toggleTheme_eq in *.
    apply tt_setTheme_shows; [|done]. case_bool_decide; auto.
  - unfold after, completes, ThemeToggle.on_click in *. rewrite tt_toggleTheme_eq in *.
    apply tt_setTheme_shows; [|done]. case_bool_decide; auto.
  - destruct Hb as [|Hb]; [done|].
    unfold after, completes in *. rewrite tt_on_system_theme_change_eq in *.
    destruct (accessible _); [|done]. destruct (truthy _); [done|].
    apply tt_setTheme_shows; [|done]. destruct m; auto.
Qed.

Lemma toggle_button_shows_theme_witness :
  completes (ThemeToggle.call ThemeToggle.Click) tt_started = Normal () ∧
  tt_button_shows (after (ThemeToggle.call ThemeToggle.Click) tt_started).
Proof.
  split; [done|].
  apply (toggle_button_shows_theme ThemeToggle.Click tt_started).
  - apply tt_started_reachable.
  - done.
  - right. unfold tt_button_shows.
    tt_shows (mkThemeConfig "浅色模式" "bi-sun-fill" "") "dark"
      (mkThemeConfig "深色模式" "bi-moon-fill" "dark").
  - done.
Defined.

(** ** [reset] of theme.js *)

Lemma th_reset_eq s :
  accessible (localStorage (Theme.page s)) = true →
  Theme.reset s =
    Theme.setTheme "light" true
      (Theme.on_page (set_localStorage
         (mkStorage (delete "theme" (items (localStorage (Theme.page s))))
            (accessible (localStorage (Theme.page s)))
            (has_room (localStorage (Theme.page s))))) s).
Proof.
  intros Ha. unfold Theme.reset, Theme.in_page, removeItem, storage_removeItem,
    mbind, JS_bind, bind. cbn. rewrite Ha. cbn. by destruct s as [btn [attr st evs]].
Qed.

(** X19: [reset] of theme.js does not hand the theme back to the system
    colour scheme.  In every reachable state with a usable storage it
    returns normally and leaves the light theme with [light] stored as the
    preference, so that the system colour scheme listener ignores every
    later change. *)
Theorem reset_stores_light s :
  Theme.reachable s → usable (localStorage (Theme.page s)) →
  let s' := after Theme.reset s in
  completes Theme.reset s = Normal () ∧
  completes Theme.getCurrentTheme s' = Normal "light" ∧
  items (localStorage (Theme.page s')) !! "theme" = Some "light" ∧
  ∀ m, after (Theme.on_system_theme_change m) s' = s'.
Proof.
  intros Hr [Ha Hroom]. cbv zeta. apply th_reachable_coherent in Hr.
  unfold completes, after at 1 2 3. rewrite th_reset_eq by done.
  set (s1 := Theme.on_page _ s).
  assert (data_theme (Theme.page s1) ≠ Some "light") as Hne.
  { unfold s1. destruct s as [btn [attr st evs]]. cbn.
    destruct Hr as [Hr|Hr]; cbn in Hr; by rewrite Hr. }
  assert (usable (localStorage (Theme.page s1))) as Hu.
  { unfold s1. destruct s as [btn [attr [its acc room] evs]]. by cbn in *. }
  destruct (th_setTheme_saves s1 "light") as (Hc & Hst & _); [done..|].
  split; [exact Hc|]. split; [|split].
  - apply th_setTheme_getCurrentTheme. by left.
  - exact Hst.
  - intros m. apply th_listener_ignored. unfold has_preference.
    fold (after (Theme.reset) s). unfold after. rewrite th_reset_eq by done.
    fold s1. unfold after in Hst. by rewrite Hst.
Qed.

Lemma reset_stores_light_witness :
  let s' := after Theme.reset (after Theme.toggleTheme th_started) in
  completes Theme.reset (after Theme.toggleTheme th_started) = Normal () ∧
  completes Theme.getCurrentTheme s' = Normal "light" ∧
  items (localStorage (Theme.page s')) !! "theme" = Some "light" ∧
  ∀ m, after (Theme.on_system_theme_change m) s' = s'.
Proof.
  apply (reset_stores_light (after Theme.toggleTheme th_started)).
  - apply (Theme.reachable_call _ Theme.CallToggleTheme), th_started_reachable.
  - done.
Defined.

(** ** The responsive manager: device class *)

Lemma detectDevice_eq s :
  detectDevice s =
    console_log (LogDevice (device_class (innerWidth s)) (innerWidth s))
      (set_currentDevice (device_class (innerWidth s)) s).
Proof.
  unfold detectDevice, device_class, breakpoints. cbn.
  destruct (innerWidth s <? 768)%Z; [done|].
  by destruct (innerWidth s <? 1024)%Z.
Qed.

(** C3: [detectDevice] records the device class the breakpoints give for
    the window width and nothing else of the state enters; it leaves the
    width and the document alone.  At the widths 320, 767, 768, 1023, 1024
    and 1920 the classes are mobile, mobile, tablet, tablet, desktop and
    desktop. *)
Theorem detectDevice_breakpoints :
  (∀ s, currentDevice (detectDevice s) = device_class (innerWidth s)
        ∧ innerWidth (detectDevice s) = innerWidth s
        ∧ body (detectDevice s) = body s
        ∧ body_classList (detectDevice s) = body_classList s) ∧
  (∀ w, (w < 768)%Z ↔ device_class w = Mobile) ∧
  (∀ w, (768 ≤ w < 1024)%Z ↔ device_class w = Tablet) ∧
  (∀ w, (1024 ≤ w)%Z ↔ device_class w = Desktop) ∧
  (∀ s, (λ w, currentDevice (detectDevice (set_innerWidth w s)))
          <$> [320; 767; 768; 1023; 1024; 1920]%Z
        = [Mobile; Mobile; Tablet; Tablet; Desktop; Desktop]).
Proof.
  split; [|split; [|split; [|split]]].
  - intros s. by rewrite detectDevice_eq.
  - intros w. unfold device_class.
    destruct (Z.ltb_spec w 768); [|destruct (Z.ltb_spec w 1024)]; split; (done || lia).
  - intros w. unfold device_class.
    destruct (Z.ltb_spec w 768); [|destruct (Z.ltb_spec w 1024)]; split; (done || lia).
  - intros w. unfold device_class.
    destruct (Z.ltb_spec w 768); [|destruct (Z.ltb_spec w 1024)]; split; (done || lia).
  - intros s. cbn -[detectDevice]. by rewrite !detectDevice_eq.
Qed.

(** ** The responsive manager: what the log records *)

Lemma console_setSidebarVisibility b s : console (setSidebarVisibility b s) = console s.
Proof.
  unfold setSidebarVisibility.
  destruct (negb _); [done|]. cbn.
  destruct (_ && _); destruct (present _); done.
Qed.

Lemma console_toggleSidebar force s : console (toggleSidebar force s) = console s.
Proof.
  unfold toggleSidebar. destruct (getElementById _ _); [|done].
  apply console_setSidebarVisibility.
Qed.

Lemma console_showFullSidebar s : console (showFullSidebar s) = console s.
Proof.
  unfold showFullSidebar. destruct (negb _); [done|].
  by rewrite console_toggleSidebar.
Qed.

Lemma currentDevice_toggleSidebar force s :
  currentDevice (toggleSidebar force s) = currentDevice s
  ∧ innerWidth (toggleSidebar force s) = innerWidth s.
Proof.
  unfold toggleSidebar. destruct (getElementById _ _); [|done].
  unfold setSidebarVisibility. destruct (negb _); [done|]. cbn.
  destruct (_ && _); destruct (present _); done.
Qed.

Lemma currentDevice_showFullSidebar s :
  currentDevice (showFullSidebar s) = currentDevice s
  ∧ innerWidth (showFullSidebar s) = innerWidth s.
Proof.
  unfold showFullSidebar. destruct (negb _); [done|].
  by destruct (currentDevice_toggleSidebar (Some true)
    (on_body (on_first (by_class "sidebar") (on_classList (remove "compact"))) s))
    as [-> ->].
Qed.

(** Each layout policy writes its line to the log once, and leaves the
    recorded device class and the window width alone. *)
Lemma optimizeForDevice_frame s :
  console (optimizeForDevice s) = (console s ++ [LogOptimize (currentDevice s)])%list
  ∧ currentDevice (optimizeForDevice s) = currentDevice s
  ∧ innerWidth (optimizeForDevice s) = innerWidth s.
Proof.
  unfold optimizeForDevice.
  destruct (currentDevice s) eqn:E.
  - unfold optimizeForMobile, hideSidebar. cbn.
    rewrite console_toggleSidebar.
    by destruct (currentDevice_toggleSidebar (Some false) (console_log (LogOptimize Mobile) s))
      as [-> ->].
  - unfold optimizeForTablet. cbn.
    rewrite console_showFullSidebar.
    by destruct (currentDevice_showFullSidebar (console_log (LogOptimize Tablet) s))
      as [-> ->].
  - unfold optimizeForDesktop. cbn.
    rewrite console_showFullSidebar.
    by destruct (currentDevice_showFullSidebar (console_log (LogOptimize Desktop) s))
      as [-> ->].
Qed.

Lemma policy_applications_app l1 l2 :
  policy_applications (l1 ++ l2) = (policy_applications l1 + policy_applications l2)%nat.
Proof. unfold policy_applications. by rewrite List.filter_app, length_app. Qed.

(** [handleResize]: the policy of the new class when the class changed,
    nothing but the detection otherwise. *)
Lemma handleResize_eq s :
  handleResize s =
    if decide (device_class (innerWidth s) = currentDevice s) then detectDevice s
    else optimizeForDevice
           (console_log (LogDeviceChanged (currentDevice s) (device_class (innerWidth s)))
              (detectDevice s)).
Proof.
  unfold handleResize. rewrite detectDevice_eq. cbn.
  destruct (decide (device_class (innerWidth s) = currentDevice s)) as [E|E].
  - rewrite bool_decide_eq_false_2; [done|]. intros H. by apply H.
  - rewrite bool_decide_eq_true_2; [done|]. intros H. by apply E.
Qed.

Lemma handleResize_console s :
  console (handleResize s) =
    console s ++ LogDevice (device_class (innerWidth s)) (innerWidth s)
      :: (if decide (device_class (innerWidth s) = currentDevice s) then []
          else [LogDeviceChanged (currentDevice s) (device_class (innerWidth s));
                LogOptimize (device_class (innerWidth s))]).
Proof.
  rewrite handleResize_eq.
  destruct (decide (device_class (innerWidth s) = currentDevice s)) as [E|E].
  - by rewrite detectDevice_eq.
  - destruct (optimizeForDevice_frame
      (console_log (LogDeviceChanged (currentDevice s) (device_class (innerWidth s)))
         (detectDevice s))) as (-> & _ & _).
    rewrite detectDevice_eq. unfold console_log, set_currentDevice.
    cbn [console currentDevice]. by rewrite <- !app_assoc.
Qed.

Lemma handleResize_frame s :
  currentDevice (handleResize s) = device_class (innerWidth s)
  ∧ innerWidth (handleResize s) = innerWidth s
  ∧ policy_applications (console (handleResize s)) =
      (policy_applications (console s) +
       if decide (device_class (innerWidth s) = currentDevice s) then 0 else 1)%nat.
Proof.
  rewrite handleResize_eq.
  destruct (decide (device_class (innerWidth s) = currentDevice s)) as [E|E].
  - rewrite detectDevice_eq. unfold console_log, set_currentDevice.
    cbn [console currentDevice innerWidth]. rewrite policy_applications_app. cbn.
    split; [done|]. split; [done|]. lia.
  - destruct (optimizeForDevice_frame
      (console_log (LogDeviceChanged (currentDevice s) (device_class (innerWidth s)))
         (detectDevice s))) as (-> & -> & ->).
    rewrite detectDevice_eq. unfold console_log, set_currentDevice.
    cbn [console currentDevice innerWidth]. rewrite !policy_applications_app. cbn.
    split; [done|]. split; [done|]. lia.
Qed.

Lemma init_frame s :
  currentDevice (init s) = device_class (innerWidth s)
  ∧ innerWidth (init s) = innerWidth s
  ∧ policy_applications (console (init s)) = (policy_applications (console s) + 1)%nat.
Proof.
  unfold init, bindEvents. cbv zeta. unfold console_log.
  cbn [console currentDevice innerWidth].
  destruct (optimizeForDevice_frame (detectDevice s)) as (-> & -> & ->).
  rewrite detectDevice_eq. unfold console_log, set_currentDevice.
  cbn [console currentDevice innerWidth]. rewrite !policy_applications_app. cbn.
  split; [done|]. split; [done|]. lia.
Qed.

Lemma on_resize_frame w s :
  currentDevice (on_resize w s) = device_class w
  ∧ policy_applications (console (on_resize w s)) =
      (policy_applications (console s) +
       if decide (device_class w = currentDevice s) then 0 else 1)%nat.
Proof.
  unfold on_resize.
  destruct (handleResize_frame (set_innerWidth w s)) as (H1 & _ & H3).
  by rewrite H1, H3.
Qed.

(** Resizes that stay in the recorded class apply no policy. *)
Lemma resizes_same_class ws s :
  Forall (λ w, device_class w = currentDevice s) ws →
  currentDevice (resizes ws s) = currentDevice s
  ∧ policy_applications (console (resizes ws s)) = policy_applications (console s).
Proof.
  revert s. induction ws as [|w ws IH]; intros s Hws; [done|].
  apply Forall_cons in Hws as [Hw Hws]. cbn.
  destruct (on_resize_frame w s) as [Hd Hp].
  rewrite decide_True in Hp by done.
  destruct (IH (on_resize w s)) as [IH1 IH2].
  { eapply Forall_impl; [exact Hws|]. cbn. intros w' ->. congruence. }
  unfold resizes in *. rewrite IH1, IH2, Hd, Hp. split; [done|lia].
Qed.

(** C4: [handleResize] applies a layout policy, the one of the new class,
    exactly when the class it computes from the window width differs from
    the recorded one; the log shows the applications.  Hence
    resizes that stay in one class apply the layout policy once in all:
    the application at start-up when the page started in that class, the
    application of the first resize when the page enters the class; no
    further resize in the class applies it again. *)
Theorem handleResize_applies_policy_once_per_class :
  (∀ s, console (handleResize s) =
          console s ++ LogDevice (device_class (innerWidth s)) (innerWidth s)
            :: (if decide (device_class (innerWidth s) = currentDevice s) then []
                else [LogDeviceChanged (currentDevice s) (device_class (innerWidth s));
                      LogOptimize (device_class (innerWidth s))])) ∧
  (∀ s, policy_applications (console (handleResize s)) =
          (policy_applications (console s) +
           if decide (device_class (innerWidth s) = currentDevice s) then 0 else 1)%nat) ∧
  (∀ s w ws,
     Forall (λ w', device_class w' = device_class w) ws →
     policy_applications (console (resizes ws (init (set_innerWidth w s))))
       = (policy_applications (console s) + 1)%nat) ∧
  (∀ s w ws,
     device_class w ≠ currentDevice s →
     Forall (λ w', device_class w' = device_class w) ws →
     policy_applications (console (resizes (w :: ws) s))
       = (policy_applications (console s) + 1)%nat) ∧
  (∀ s ws,
     Forall (λ w', device_class w' = currentDevice s) ws →
     policy_applications (console (resizes ws s)) = policy_applications (console s)).
Proof.
  split; [|split; [|split; [|split]]].
  - apply handleResize_console.
  - intros s. apply handleResize_frame.
  - intros s w ws Hws.
    destruct (init_frame (set_innerWidth w s)) as (Hd & _ & Hp).
    destruct (resizes_same_class ws (init (set_innerWidth w s))) as [_ ->].
    + rewrite Hd. exact Hws.
    + exact Hp.
  - intros s w ws Hne Hws. cbn.
    destruct (on_resize_frame w s) as [Hd Hp].
    rewrite decide_False in Hp by done.
    destruct (resizes_same_class ws (on_resize w s)) as [_ H2].
    + by rewrite Hd.
    + unfold resizes in H2. by rewrite H2, Hp.
  - intros s ws Hws. by apply resizes_same_class.
Qed.

Lemma handleResize_applies_policy_once_per_class_witness :
  policy_applications (console (resizes [700; 320]%Z (init (initial 500 [] sample_page)))) = 1%nat
  ∧ policy_applications
      (console (resizes [500; 700; 320]%Z (init (initial 1920 [] sample_page)))) = 2%nat.
Proof.
  split.
  - apply (proj1 (proj2 (proj2 handleResize_applies_policy_once_per_class))
             (initial 0 [] sample_page) 500%Z [700; 320]%Z).
    by repeat constructor.
  - rewrite (proj1 (proj2 (proj2 (proj2 handleResize_applies_policy_once_per_class)))
               (init (initial 1920 [] sample_page)) 500%Z [700; 320]%Z).
    + reflexivity.
    + done.
    + by repeat constructor.
Defined.

(** ** The document tree *)

Lemma Node_ind (P : Node → Prop) :
  (∀ e cs, Forall P cs → P (Elem e cs)) → ∀ n, P n.
Proof.
  intros H. fix IH 1. intros [e cs]. apply H.
  induction cs as [|c cs IHcs]; constructor; [apply IH|apply IHcs].
Qed.

Lemma elements_forEach_node sel f n :
  elements (forEach_node sel f n) = map (upd sel f) (elements n).
Proof.
  induction n as [e cs IH] using Node_ind. cbn. f_equal.
  induction IH as [|c cs Hc _ IHcs]; [done|].
  cbn. by rewrite map_app, Hc, IHcs.
Qed.

Lemma all_elements_forEach sel f doc :
  all_elements (forEach sel f doc) = map (upd sel f) (all_elements doc).
Proof.
  unfold all_elements, forEach. induction doc as [|c doc IH]; [done|].
  cbn. by rewrite map_app, elements_forEach_node, IH.
Qed.

Lemma list_on_first_app sel f l1 l2 :
  list_on_first sel f (l1 ++ l2) =
    if existsb sel l1 then list_on_first sel f l1 ++ l2
    else l1 ++ list_on_first sel f l2.
Proof.
  induction l1 as [|e l1 IH]; [done|]. cbn.
  destruct (sel e); [done|]. cbn. rewrite IH. by destruct (existsb sel l1).
Qed.

Lemma on_first_node_children sel f e cs :
  on_first_node sel f (Elem e cs) =
    if sel e then Elem (f e) cs else Elem e (on_first sel f cs).
Proof.
  cbn. destruct (sel e); [done|]. f_equal.
  induction cs as [|c cs IH]; [done|]. cbn. by rewrite IH.
Qed.

Lemma elements_on_first_node sel f n :
  elements (on_first_node sel f n) = list_on_first sel f (elements n).
Proof.
  induction n as [e cs IH] using Node_ind.
  rewrite on_first_node_children. cbn. destruct (sel e); [done|]. cbn. f_equal.
  induction IH as [|c cs Hc _ IHcs]; [done|].
  cbn. rewrite list_on_first_app.
  destruct (existsb sel (elements c)); cbn; by rewrite ?Hc, ?IHcs.
Qed.

Lemma all_elements_on_first sel f doc :
  all_elements (on_first sel f doc) = list_on_first sel f (all_elements doc).
Proof.
  unfold all_elements. induction doc as [|c doc IH]; [done|].
  cbn. rewrite list_on_first_app.
  destruct (existsb sel (elements c)); cbn; by rewrite ?elements_on_first_node, ?IH.
Qed.

Lemma find_list_on_first_same sel f l :
  (∀ e, sel (f e) = sel e) →
  List.find sel (list_on_first sel f l) = f <$> List.find sel l.
Proof.
  intros Hf. induction l as [|e l IH]; [done|]. cbn.
  destruct (sel e) eqn:E; cbn.
  - by rewrite Hf, E.
  - by rewrite E.
Qed.

Lemma find_list_on_first_other sel sel' f l :
  (∀ e, sel' (f e) = sel' e) → (∀ e, sel e = true → sel' e = false) →
  List.find sel' (list_on_first sel f l) = List.find sel' l.
Proof.
  intros Hf Hd. induction l as [|e l IH]; [done|]. cbn.
  destruct (sel e) eqn:E; cbn.
  - by rewrite Hf, (Hd e E).
  - by rewrite IH.
Qed.

(** Class lists. *)

Lemma contains_add c l : contains c (add c l) = true.
Proof.
  unfold add. destruct (contains c l) eqn:E; [done|].
  apply bool_decide_eq_true, elem_of_app. right. by apply list_elem_of_singleton.
Qed.

Lemma contains_remove c l : contains c (remove c l) = false.
Proof.
  apply bool_decide_eq_false. unfold remove. rewrite list_elem_of_filter. by intros [? _].
Qed.

Lemma contains_add_ne c c' l : c ≠ c' → contains c (add c' l) = contains c l.
Proof.
  intros Hne. unfold add. destruct (contains c' l); [done|].
  unfold contains. apply bool_decide_ext. rewrite elem_of_app, list_elem_of_singleton.
  split; [by intros [?|?]|by left].
Qed.

Lemma contains_remove_ne c c' l : c ≠ c' → contains c (remove c' l) = contains c l.
Proof.
  intros Hne. unfold contains, remove. apply bool_decide_ext.
  rewrite list_elem_of_filter. split; [by intros [_ ?]|by intros ?; split; [intros ->|]].
Qed.

Lemma contains_toggle_ne c c' b l : c ≠ c' → contains c (toggle c' b l) = contains c l.
Proof.
  intros Hne. destruct b; [by apply contains_add_ne|by apply contains_remove_ne].
Qed.

Lemma contains_toggle c b l : contains c (toggle c b l) = b.
Proof. destruct b; [apply contains_add|apply contains_remove]. Qed.

(** ** Claim C6: the overlay and the desktop class *)

Lemma getElementById_on_first_same i f doc :
  getElementById i (on_first (by_id i) (on_classList f) doc)
    = on_classList f <$> getElementById i doc.
Proof.
  unfold getElementById, querySelector.
  rewrite all_elements_on_first. by apply find_list_on_first_same.
Qed.

Lemma getElementById_on_first_other i j f doc :
  i ≠ j →
  getElementById j (on_first (by_id i) (on_classList f) doc) = getElementById j doc.
Proof.
  intros Hne. unfold getElementById, querySelector.
  rewrite all_elements_on_first. apply find_list_on_first_other; [done|].
  intros e He. apply bool_decide_eq_true in He. apply bool_decide_eq_false. congruence.
Qed.

(** After [setSidebarVisibility] on a page with a sidebar the overlay is
    visible exactly when the sidebar was opened at a width of at most 1024. *)
Lemma setSidebarVisibility_overlay shouldOpen s :
  present (getElementById "sidebar" (body s)) = true →
  present (getElementById "sidebarOverlay" (body s)) = true →
  overlay_visible (setSidebarVisibility shouldOpen s)
    = shouldOpen && (innerWidth s <=? 1024)%Z.
Proof.
  intros Hs Ho. unfold setSidebarVisibility. rewrite Hs, Ho. cbn.
  assert (overlay_visible
    (on_body (on_first (by_id "sidebarOverlay")
       (on_classList (toggle "visible" (shouldOpen && (innerWidth s <=? 1024)%Z))))
       (on_body (on_first (by_id "sidebar") (on_classList (toggle "show" shouldOpen)))
          (on_body (on_first (by_id "sidebar") (on_classList (toggle "open" shouldOpen))) s)))
    = shouldOpen && (innerWidth s <=? 1024)%Z) as H.
  { unfold overlay_visible, on_body. cbn [body].
    rewrite getElementById_on_first_same, !getElementById_on_first_other by done.
    destruct (getElementById "sidebarOverlay" (body s)) as [o|]; [|done].
    cbn. apply contains_toggle. }
  by destruct (shouldOpen && (innerWidth s <=? 1024)%Z).
Qed.

Lemma toggleSidebar_without_sidebar force s :
  getElementById "sidebar" (body s) = None → toggleSidebar force s = s.
Proof. intros H. unfold toggleSidebar. by rewrite H. Qed.

(** X4: above 1024 pixels [toggleSidebar], with or without argument, never
    leaves the overlay visible on a page with a sidebar. *)
Theorem toggleSidebar_overlay_above_1024 force s :
  (1024 < innerWidth s)%Z →
  present (getElementById "sidebar" (body s)) = true →
  overlay_visible (toggleSidebar force s) = false.
Proof.
  intros Hw Hs. unfold toggleSidebar.
  destruct (getElementById "sidebar" (body s)) as [sb|] eqn:E; [|done].
  destruct (present (getElementById "sidebarOverlay" (body s))) eqn:Eo.
  - rewrite setSidebarVisibility_overlay; [|by rewrite E|done].
    rewrite (proj2 (Z.leb_gt _ _)) by done. apply andb_false_r.
  - unfold setSidebarVisibility. rewrite E, Eo. cbn [negb present].
    assert (getElementById "sidebarOverlay"
      (on_first (by_id "sidebar") (on_classList (toggle "show"
         match force with Some b => b | None => negb (contains "open" (classList sb)) end))
         (on_first (by_id "sidebar") (on_classList (toggle "open"
            match force with Some b => b | None => negb (contains "open" (classList sb)) end))
            (body s))) = None) as H.
    { rewrite !getElementById_on_first_other by done.
      by destruct (getElementById "sidebarOverlay" (body s)). }
    unfold overlay_visible, on_body, on_body_classList.
    destruct (_ && _); cbn [body]; by rewrite H.
Qed.

Lemma toggleSidebar_overlay_above_1024_witness :
  (1024 < innerWidth (initial 1025 [] sample_page))%Z ∧
  overlay_visible (toggleSidebar None (initial 1025 [] sample_page)) = false.
Proof.
  split; [done|].
  apply (toggleSidebar_overlay_above_1024 None (initial 1025 [] sample_page)); done.
Defined.

(** X7: at the width 1024, on every page with a sidebar and an overlay,
    the device class is desktop and yet opening the sidebar shows the
    overlay. *)
Theorem overlay_shown_at_1024 s :
  innerWidth s = 1024%Z →
  present (getElementById "sidebar" (body s)) = true →
  present (getElementById "sidebarOverlay" (body s)) = true →
  currentDevice (detectDevice s) = Desktop ∧
  overlay_visible (toggleSidebar (Some true) s) = true.
Proof.
  intros Hw Hs Ho. split.
  - by rewrite detectDevice_eq, Hw.
  - unfold toggleSidebar.
    destruct (getElementById "sidebar" (body s)) as [sb|] eqn:E; [|done].
    rewrite setSidebarVisibility_overlay; [|by rewrite E|done].
    by rewrite Hw.
Qed.

Lemma overlay_shown_at_1024_witness :
  currentDevice (detectDevice (initial 1024 [] sample_page)) = Desktop ∧
  overlay_visible (toggleSidebar (Some true) (initial 1024 [] sample_page)) = true.
Proof. apply (overlay_shown_at_1024 (initial 1024 [] sample_page)); done. Defined.

(** C6 fails at the width 1024: [detectDevice] classes it as desktop (not
    below the tablet breakpoint) while [setSidebarVisibility] still takes it
    for a width with an overlay (at most 1024).  On a page with a sidebar
    and a hidden overlay, at that width, the start-up already shows the
    overlay, and so does [toggleSidebar()] on the closed sidebar. *)
Theorem overlay_shown_on_desktop_at_1024 :
  let s0 := initial 1024 [] sample_page in
  let s := init s0 in
  overlay_visible s0 = false ∧
  currentDevice s = Desktop ∧
  overlay_visible s = true ∧
  overlay_visible (toggleSidebar None (toggleSidebar (Some false) s)) = true ∧
  currentDevice (detectDevice (toggleSidebar None (toggleSidebar (Some false) s))) = Desktop ∧
  overlay_visible (init (initial 1025 [] sample_page)) = false.
Proof. vm_compute. done. Qed.

(** ** Claim C5: the layout policies applied twice *)

(** C5 fails for the mobile policy: [optimizeTablesForMobile] wraps every
    table again each time it runs.  On the sample page, whose one table has
    no wrapper, one application leaves one wrapper and two leave two, one
    inside the other. *)
Theorem optimizeForMobile_wraps_tables_again :
  let once := optimizeForMobile (initial 500 [] sample_page) in
  let twice := optimizeForMobile once in
  count (by_class "table-wrapper") (body once) = 1%nat ∧
  count (by_class "table-wrapper") (body twice) = 2%nat ∧
  body twice ≠ body once ∧
  body_classList twice = body_classList once.
Proof.
  cbv zeta. split; [by vm_compute|]. split; [by vm_compute|]. split; [|by vm_compute].
  intros H.
  assert (count (by_class "table-wrapper")
            (body (optimizeForMobile (optimizeForMobile (initial 500 [] sample_page))))
          = 1%nat) as Hc by (rewrite H; by vm_compute).
  vm_compute in Hc. discriminate.
Qed.

(** ** Changes that keep the shape of the tree *)

Lemma forEach_node_map sel f n : forEach_node sel f n = map_node (upd sel f) n.
Proof.
  induction n as [e cs IH] using Node_ind. cbn. f_equal.
  induction IH as [|c cs Hc _ IHcs]; [done|]. cbn. by rewrite Hc, IHcs.
Qed.

Lemma forEach_map sel f doc : forEach sel f doc = map_doc (upd sel f) doc.
Proof.
  unfold forEach, map_doc. induction doc as [|c doc IH]; [done|].
  cbn. by rewrite forEach_node_map, IH.
Qed.

Lemma map_node_compose h1 h2 n :
  map_node h1 (map_node h2 n) = map_node (λ e, h1 (h2 e)) n.
Proof.
  induction n as [e cs IH] using Node_ind. cbn. f_equal.
  induction IH as [|c cs Hc _ IHcs]; [done|]. cbn. by rewrite Hc, IHcs.
Qed.

Lemma map_doc_compose h1 h2 doc :
  map_doc h1 (map_doc h2 doc) = map_doc (λ e, h1 (h2 e)) doc.
Proof.
  unfold map_doc. induction doc as [|c doc IH]; [done|].
  cbn. by rewrite map_node_compose, IH.
Qed.

Lemma map_node_ext h1 h2 n : (∀ e, h1 e = h2 e) → map_node h1 n = map_node h2 n.
Proof.
  intros H. induction n as [e cs IH] using Node_ind. cbn. rewrite H. f_equal.
  induction IH as [|c cs Hc _ IHcs]; [done|]. cbn. by rewrite Hc, IHcs.
Qed.

Lemma map_doc_ext h1 h2 doc : (∀ e, h1 e = h2 e) → map_doc h1 doc = map_doc h2 doc.
Proof.
  intros H. unfold map_doc. induction doc as [|c doc IH]; [done|].
  cbn. by rewrite (map_node_ext h1 h2), IH.
Qed.

Lemma map_doc_idempotent h doc : (∀ e, h (h e) = h e) → map_doc h (map_doc h doc) = map_doc h doc.
Proof. intros H. rewrite map_doc_compose. by apply map_doc_ext. Qed.

Lemma elements_map_node h n : elements (map_node h n) = map h (elements n).
Proof.
  induction n as [e cs IH] using Node_ind. cbn. f_equal.
  induction IH as [|c cs Hc _ IHcs]; [done|].
  cbn. by rewrite map_app, Hc, IHcs.
Qed.

Lemma all_elements_map_doc h doc : all_elements (map_doc h doc) = map h (all_elements doc).
Proof.
  unfold all_elements, map_doc. induction doc as [|c doc IH]; [done|].
  cbn. by rewrite map_app, elements_map_node, IH.
Qed.

Lemma find_map sel h (l : list Element) :
  (∀ e, sel (h e) = sel e) → List.find sel (map h l) = h <$> List.find sel l.
Proof.
  intros H. induction l as [|e l IH]; [done|]. cbn. rewrite H.
  by destruct (sel e).
Qed.

Lemma querySelector_map_doc sel h doc :
  (∀ e, sel (h e) = sel e) →
  querySelector sel (map_doc h doc) = h <$> querySelector sel doc.
Proof.
  intros H. unfold querySelector. rewrite all_elements_map_doc. by apply find_map.
Qed.

(** A change through the first match that leaves that match as it is
    leaves the document as it is. *)
Lemma list_find_existsb (sel : Element → bool) l :
  existsb sel l = present (List.find sel l).
Proof. induction l as [|e l IH]; [done|]. cbn. by destruct (sel e). Qed.

Lemma find_app_l (sel : Element → bool) l1 l2 :
  existsb sel l1 = true → List.find sel (l1 ++ l2) = List.find sel l1.
Proof.
  induction l1 as [|e l1 IH]; [done|]. cbn. destruct (sel e); [done|]. apply IH.
Qed.

Lemma find_app_r (sel : Element → bool) l1 l2 :
  existsb sel l1 = false → List.find sel (l1 ++ l2) = List.find sel l2.
Proof.
  induction l1 as [|e l1 IH]; [done|]. cbn. destruct (sel e); [done|]. apply IH.
Qed.

Lemma on_first_node_fixed sel g n :
  (∀ e, List.find sel (elements n) = Some e → g e = e) →
  on_first_node sel g n = n.
Proof.
  induction n as [e cs IH] using Node_ind. intros H.
  rewrite on_first_node_children. cbn in H.
  destruct (sel e) eqn:E.
  - by rewrite (H e).
  - f_equal.
    induction IH as [|c cs Hc _ IHcs]; [done|]. cbn in *.
    destruct (existsb sel (elements c)) eqn:Ex.
    + rewrite Hc; [done|]. intros e' He'. apply H. by rewrite find_app_l.
    + rewrite IHcs; [done|]. intros e' He'. apply H. by rewrite find_app_r.
Qed.

Lemma on_first_fixed sel g doc :
  (∀ e, querySelector sel doc = Some e → g e = e) →
  on_first sel g doc = doc.
Proof.
  unfold querySelector, all_elements.
  induction doc as [|c doc IH]; [done|]. cbn. intros H.
  destruct (existsb sel (elements c)) eqn:Ex.
  - rewrite on_first_node_fixed; [done|]. intros e' He'. apply H. by rewrite find_app_l.
  - rewrite IH; [done|]. intros e' He'. apply H. by rewrite find_app_r.
Qed.

(** A property of the first [sel] match that [g] keeps survives a change
    through the first [sel'] match. *)
Lemma find_list_on_first_keeps (Q : Element → Prop) sel sel' g l :
  (∀ e, sel (g e) = sel e) → (∀ e, Q e → Q (g e)) →
  (∀ e, List.find sel l = Some e → Q e) →
  ∀ e, List.find sel (list_on_first sel' g l) = Some e → Q e.
Proof.
  intros Hsel HQ. induction l as [|e0 l IH]; [done|]. cbn. intros H e.
  destruct (sel' e0); cbn.
  - rewrite Hsel. destruct (sel e0).
    + intros [= <-]. by apply HQ, H.
    + intros He. by apply H.
  - destruct (sel e0); [intros [= <-]; by apply H|].
    by apply IH.
Qed.

Lemma querySelector_on_first_keeps (Q : Element → Prop) sel sel' g doc :
  (∀ e, sel (g e) = sel e) → (∀ e, Q e → Q (g e)) →
  (∀ e, querySelector sel doc = Some e → Q e) →
  ∀ e, querySelector sel (on_first sel' g doc) = Some e → Q e.
Proof.
  unfold querySelector. rewrite all_elements_on_first. apply find_list_on_first_keeps.
Qed.

Lemma querySelector_on_first_same sel g doc :
  (∀ e, sel (g e) = sel e) →
  querySelector sel (on_first sel g doc) = g <$> querySelector sel doc.
Proof.
  intros H. unfold querySelector. rewrite all_elements_on_first.
  by apply find_list_on_first_same.
Qed.

Lemma present_querySelector_on_first sel sel' g doc :
  (∀ e, sel (g e) = sel e) →
  present (querySelector sel (on_first sel' g doc)) = present (querySelector sel doc).
Proof.
  intros H. unfold querySelector. rewrite all_elements_on_first.
  induction (all_elements doc) as [|e l IH]; [done|]. cbn.
  destruct (sel' e); cbn.
  - rewrite H. by destruct (sel e).
  - by destruct (sel e).
Qed.

(** ** The sidebar functions on the document *)

Lemma classList_on_classList f e : classList (on_classList f e) = f (classList e).
Proof. done. Qed.

Lemma by_id_on_classList i f e : by_id i (on_classList f e) = by_id i e.
Proof. done. Qed.

Lemma by_class_toggle c c' b e :
  c ≠ c' → by_class c (on_classList (toggle c' b) e) = by_class c e.
Proof. intros H. unfold by_class. cbn. by apply contains_toggle_ne. Qed.

Lemma by_class_remove c c' e :
  c ≠ c' → by_class c (on_classList (remove c') e) = by_class c e.
Proof. intros H. unfold by_class. cbn. by apply contains_remove_ne. Qed.

Lemma add_fixed c l : contains c l = true → add c l = l.
Proof. intros H. unfold add. by rewrite H. Qed.

Lemma remove_fixed c l : contains c l = false → remove c l = l.
Proof.
  intros H. apply bool_decide_eq_false in H. unfold remove.
  induction l as [|x l IH]; [done|].
  rewrite filter_cons. destruct (decide (x ≠ c)) as [Hx|Hx].
  - rewrite IH; [done|]. intros Hin. apply H. by right.
  - exfalso. apply H. apply dec_stable in Hx as ->. by left.
Qed.

Lemma toggle_fixed c b l : contains c l = b → toggle c b l = l.
Proof. destruct b; [apply add_fixed|apply remove_fixed]. Qed.

Lemma on_classList_fixed f e : f (classList e) = classList e → on_classList f e = e.
Proof. intros H. destruct e. unfold on_classList. cbn in *. by rewrite H. Qed.

Lemma setSidebarVisibility_page shouldOpen s :
  present (getElementById "sidebar" (body s)) = true →
  body (setSidebarVisibility shouldOpen s)
    = sidebar_doc shouldOpen (innerWidth s <=? 1024)%Z (body s)
  ∧ body_classList (setSidebarVisibility shouldOpen s)
    = toggle "sidebar-open" (shouldOpen && (innerWidth s <=? 1024)%Z) (body_classList s).
Proof.
  intros Hs. unfold setSidebarVisibility, sidebar_doc. rewrite Hs.
  cbn [negb innerWidth on_body].
  destruct (present (getElementById "sidebarOverlay" (body s))) eqn:Ho.
  - cbn [innerWidth on_body].
    by destruct (shouldOpen && (innerWidth s <=? 1024)%Z).
  - rewrite (on_first_fixed (by_id "sidebarOverlay")).
    + by destruct (shouldOpen && (innerWidth s <=? 1024)%Z).
    + intros e He. exfalso.
      assert (present (querySelector (by_id "sidebarOverlay")
        (on_first (by_id "sidebar") (on_classList (toggle "show" shouldOpen))
           (on_first (by_id "sidebar") (on_classList (toggle "open" shouldOpen)) (body s))))
        = true) as Hp by by rewrite He.
      rewrite !present_querySelector_on_first in Hp by done.
      unfold getElementById in Ho. congruence.
Qed.

Lemma showFullSidebar_page s :
  innerWidth (showFullSidebar s) = innerWidth s ∧
  body (showFullSidebar s) =
    (if present (querySelector (by_class "sidebar") (body s)) then
       if present (getElementById "sidebar" (body s)) then
         sidebar_doc true (innerWidth s <=? 1024)%Z
           (on_first (by_class "sidebar") (on_classList (remove "compact")) (body s))
       else on_first (by_class "sidebar") (on_classList (remove "compact")) (body s)
     else body s) ∧
  body_classList (showFullSidebar s) =
    (if present (querySelector (by_class "sidebar") (body s))
          && present (getElementById "sidebar" (body s))
     then toggle "sidebar-open" (innerWidth s <=? 1024)%Z (body_classList s)
     else body_classList s).
Proof.
  split; [apply currentDevice_showFullSidebar|].
  unfold showFullSidebar.
  destruct (present (querySelector (by_class "sidebar") (body s))) eqn:Hq; [|done].
  cbn [negb andb].
  set (s1 := on_body (on_first (by_class "sidebar") (on_classList (remove "compact"))) s).
  assert (present (getElementById "sidebar" (body s1))
          = present (getElementById "sidebar" (body s))) as Hp.
  { unfold s1, getElementById, on_body. cbn [body].
    by apply present_querySelector_on_first. }
  unfold toggleSidebar.
  destruct (getElementById "sidebar" (body s1)) as [sb|] eqn:Hsb.
  - rewrite <- Hp. cbn [present].
    destruct (setSidebarVisibility_page true s1) as [Hb Hc]; [by rewrite Hsb|].
    by rewrite Hb, Hc.
  - by rewrite <- Hp.
Qed.

Lemma showFullSidebar_shown s : sidebar_shown (showFullSidebar s).
Proof.
  destruct (showFullSidebar_page s) as (Hw & Hb & Hc).
  unfold sidebar_shown. rewrite Hw, Hb, Hc. clear Hw Hb Hc.
  destruct (present (querySelector (by_class "sidebar") (body s))) eqn:Hq.
  2: { split; [|by rewrite Hq]. intros e He. by rewrite He in Hq. }
  set (d1 := on_first (by_class "sidebar") (on_classList (remove "compact")) (body s)).
  assert (∀ e, querySelector (by_class "sidebar") d1 = Some e →
               contains "compact" (classList e) = false) as Hd1.
  { intros e. unfold d1. rewrite querySelector_on_first_same
      by (intros; by apply by_class_remove).
    destruct (querySelector _ (body s)) as [e0|]; [|done].
    intros [= <-]. apply contains_remove. }
  assert (present (getElementById "sidebar" d1) = present (getElementById "sidebar" (body s)))
    as Hp by (by apply present_querySelector_on_first).
  destruct (present (getElementById "sidebar" (body s))) eqn:Hs; cbn [andb].
  2: { split; [done|]. intros _ Hs'. congruence. }
  unfold sidebar_doc. split.
  - intros e.
    apply (querySelector_on_first_keeps (λ e, contains "compact" (classList e) = false));
      [by intros; apply by_class_toggle
      |by intros e'; rewrite classList_on_classList, contains_toggle_ne|].
    apply (querySelector_on_first_keeps (λ e, contains "compact" (classList e) = false));
      [by intros; apply by_class_toggle
      |by intros e'; rewrite classList_on_classList, contains_toggle_ne|].
    apply (querySelector_on_first_keeps (λ e, contains "compact" (classList e) = false));
      [by intros; apply by_class_toggle
      |by intros e'; rewrite classList_on_classList, contains_toggle_ne|].
    exact Hd1.
  - intros _ _. split; [|split].
    + intros e. unfold getElementById.
      apply (querySelector_on_first_keeps
        (λ e, contains "open" (classList e) = true ∧ contains "show" (classList e) = true));
        [done|by intros e'; rewrite classList_on_classList, !contains_toggle_ne|].
      intros e'. rewrite querySelector_on_first_same by done.
      rewrite querySelector_on_first_same by done.
      destruct (querySelector (by_id "sidebar") d1) as [e0|]; [|done].
      intros [= <-]. rewrite !classList_on_classList. unfold toggle.
      split; [|apply contains_add].
      rewrite contains_add_ne by done. apply contains_add.
    + intros o. unfold getElementById.
      rewrite querySelector_on_first_same by done.
      destruct (querySelector (by_id "sidebarOverlay") _) as [o0|]; [|done].
      intros [= <-]. rewrite classList_on_classList. apply contains_toggle.
    + apply contains_toggle.
Qed.

(** On a page with the sidebar shown, [showFullSidebar] changes neither
    the document nor the body classes. *)
Lemma showFullSidebar_fixed s :
  sidebar_shown s →
  body (showFullSidebar s) = body s ∧ body_classList (showFullSidebar s) = body_classList s.
Proof.
  intros [Hc Hs].
  destruct (showFullSidebar_page s) as (_ & Hb & Hcl). rewrite Hb, Hcl. clear Hb Hcl.
  destruct (present (querySelector (by_class "sidebar") (body s))) eqn:Hq; [|done].
  assert (on_first (by_class "sidebar") (on_classList (remove "compact")) (body s) = body s)
    as Hd1.
  { apply on_first_fixed. intros e He. apply on_classList_fixed, remove_fixed. by apply Hc. }
  rewrite Hd1.
  destruct (present (getElementById "sidebar" (body s))) eqn:Hp; [|done]. cbn [andb].
  destruct (Hs eq_refl eq_refl) as (Hsb & Hov & Hbc).
  split; [|by apply toggle_fixed].
  unfold sidebar_doc.
  rewrite (on_first_fixed (by_id "sidebar") (on_classList (toggle "open" true))).
  2: { intros e He. apply on_classList_fixed, toggle_fixed. by apply Hsb. }
  rewrite (on_first_fixed (by_id "sidebar") (on_classList (toggle "show" true))).
  2: { intros e He. apply on_classList_fixed, toggle_fixed. by apply Hsb. }
  apply on_first_fixed. intros o Ho. apply on_classList_fixed, toggle_fixed. by apply Hov.
Qed.

(** The sidebar stays shown under changes that keep ids, class lists, the
    width and the [sidebar-open] body class. *)
Lemma sidebar_shown_variant s s' h :
  sidebar_shown s →
  (∀ e, id (h e) = id e ∧ classList (h e) = classList e) →
  innerWidth s' = innerWidth s →
  body s' = map_doc h (body s) →
  contains "sidebar-open" (body_classList s') = contains "sidebar-open" (body_classList s) →
  sidebar_shown s'.
Proof.
  intros [Hc Hs] Hh Hw Hb Hcl. unfold sidebar_shown, getElementById.
  assert (∀ c e, by_class c (h e) = by_class c e) as Hclass.
  { intros c e. unfold by_class. by rewrite (proj2 (Hh e)). }
  assert (∀ i e, by_id i (h e) = by_id i e) as Hid.
  { intros i e. unfold by_id. by rewrite (proj1 (Hh e)). }
  rewrite Hw, Hb, Hcl, !querySelector_map_doc by done.
  split.
  - intros e. destruct (querySelector (by_class "sidebar") (body s)) as [e0|]; [|done].
    intros [= <-]. rewrite (proj2 (Hh e0)). by apply Hc.
  - intros Hq Hp.
    destruct (Hs) as (Hsb & Hov & Hbc).
    { by destruct (querySelector (by_class "sidebar") (body s)). }
    { unfold getElementById. by destruct (querySelector (by_id "sidebar") (body s)). }
    split; [|split; [|done]].
    + intros e. unfold getElementById in Hsb.
      destruct (querySelector (by_id "sidebar") (body s)) as [e0|]; [|done].
      intros [= <-]. rewrite (proj2 (Hh e0)). by apply Hsb.
    + intros o. unfold getElementById in Hov.
      destruct (querySelector (by_id "sidebarOverlay") (body s)) as [o0|]; [|done].
      intros [= <-]. rewrite (proj2 (Hh o0)). by apply Hov.
Qed.

(** ** The tablet and desktop policies applied twice *)

Lemma set_style_value k v e :
  v ≠ "" → set_style k v e = mkElement (tagName e) (id e) (classList e) (<[k := v]> (style e)).
Proof. intros H. unfold set_style. by rewrite bool_decide_eq_false_2. Qed.

Lemma set_style_empty k e :
  set_style k "" e = mkElement (tagName e) (id e) (classList e) (delete k (style e)).
Proof. done. Qed.

Lemma tablet_style_frame e :
  id (tablet_style e) = id e ∧ classList (tablet_style e) = classList e.
Proof.
  destruct e as [t i cl st]. unfold tablet_style, upd, by_class.
  rewrite !set_style_value by done. by class_cases.
Qed.

Lemma desktop_style_frame e :
  id (desktop_style e) = id e ∧ classList (desktop_style e) = classList e.
Proof.
  destruct e as [t i cl st]. unfold desktop_style, upd, by_class.
  rewrite !set_style_empty. by class_cases.
Qed.

Lemma tablet_style_idempotent e : tablet_style (tablet_style e) = tablet_style e.
Proof.
  destruct e as [t i cl st]. unfold tablet_style, upd, by_class.
  rewrite !set_style_value by done. class_cases; cbn [classList tagName id style]; try done; style_eq.
Qed.

Lemma desktop_style_idempotent e : desktop_style (desktop_style e) = desktop_style e.
Proof.
  destruct e as [t i cl st]. unfold desktop_style, upd, by_class.
  rewrite !set_style_empty. class_cases; cbn [classList tagName id style]; try done; style_eq.
Qed.

Lemma tablet_classes_idempotent l : tablet_classes (tablet_classes l) = tablet_classes l.
Proof.
  unfold tablet_classes.
  rewrite (add_fixed "tablet-device").
  2: { rewrite !contains_remove_ne by done. apply contains_add. }
  rewrite (remove_fixed "mobile-device").
  2: { rewrite contains_remove_ne by done. apply contains_remove. }
  apply remove_fixed, contains_remove.
Qed.

Lemma desktop_classes_idempotent l : desktop_classes (desktop_classes l) = desktop_classes l.
Proof.
  unfold desktop_classes.
  set (l1 := remove "tablet-device" (remove "mobile-device" l)).
  set (l2 := remove "tablet-device" (remove "mobile-device" (add "desktop-device" l1))).
  assert (contains "mobile-device" l2 = false) as Hm.
  { unfold l2. rewrite contains_remove_ne by done. apply contains_remove. }
  assert (contains "tablet-device" l2 = false) as Ht by apply contains_remove.
  assert (contains "desktop-device" l2 = true) as Hd.
  { unfold l2. rewrite !contains_remove_ne by done. apply contains_add. }
  rewrite (remove_fixed "mobile-device" l2) by done.
  rewrite (remove_fixed "tablet-device" l2) by done.
  rewrite (add_fixed "desktop-device" l2) by done.
  rewrite (remove_fixed "mobile-device" l2) by done.
  by rewrite (remove_fixed "tablet-device" l2).
Qed.

Lemma optimizeForTablet_page s :
  innerWidth (optimizeForTablet s) = innerWidth s ∧
  body (optimizeForTablet s) = map_doc tablet_style (body (showFullSidebar s)) ∧
  body_classList (optimizeForTablet s) = tablet_classes (body_classList (showFullSidebar s)).
Proof.
  unfold optimizeForTablet, optimizeCardsForTablet, optimizeButtonsForTablet.
  cbv zeta. cbn [innerWidth body body_classList on_body on_body_classList].
  destruct (showFullSidebar_page (console_log (LogOptimize Tablet) s)) as (Hw & Hb & Hc).
  destruct (showFullSidebar_page s) as (_ & Hb' & Hc').
  rewrite Hw, Hb, Hc, Hb', Hc'.
  split; [done|]. split; [|done].
  rewrite !forEach_map, map_doc_compose. done.
Qed.

Lemma optimizeForDesktop_page s :
  innerWidth (optimizeForDesktop s) = innerWidth s ∧
  body (optimizeForDesktop s) = map_doc desktop_style (body (showFullSidebar s)) ∧
  body_classList (optimizeForDesktop s) = desktop_classes (body_classList (showFullSidebar s)).
Proof.
  unfold optimizeForDesktop, restoreDefaultLayout.
  cbv zeta. cbn [innerWidth body body_classList on_body on_body_classList].
  destruct (showFullSidebar_page (console_log (LogOptimize Desktop) s)) as (Hw & Hb & Hc).
  destruct (showFullSidebar_page s) as (_ & Hb' & Hc').
  rewrite Hw, Hb, Hc, Hb', Hc'.
  split; [done|]. split; [|done].
  rewrite !forEach_map, map_doc_compose. done.
Qed.

(** X1: the tablet policy is idempotent on the document and the body
    classes: its steps only set values. *)
Theorem optimizeForTablet_idempotent s :
  body (optimizeForTablet (optimizeForTablet s)) = body (optimizeForTablet s) ∧
  body_classList (optimizeForTablet (optimizeForTablet s))
    = body_classList (optimizeForTablet s).
Proof.
  destruct (optimizeForTablet_page s) as (Hw & Hb & Hc).
  assert (sidebar_shown (optimizeForTablet s)) as Hshown.
  { apply (sidebar_shown_variant (showFullSidebar s) _ tablet_style).
    - apply showFullSidebar_shown.
    - apply tablet_style_frame.
    - rewrite Hw. symmetry. apply currentDevice_showFullSidebar.
    - exact Hb.
    - rewrite Hc. unfold tablet_classes.
      by rewrite !contains_remove_ne, contains_add_ne. }
  destruct (showFullSidebar_fixed _ Hshown) as [Hb2 Hc2].
  destruct (optimizeForTablet_page (optimizeForTablet s)) as (_ & -> & ->).
  rewrite Hb2, Hc2, Hb, Hc. split.
  - apply map_doc_idempotent, tablet_style_idempotent.
  - apply tablet_classes_idempotent.
Qed.

(** X2: the desktop policy is idempotent on the document and the body
    classes. *)
Theorem optimizeForDesktop_idempotent s :
  body (optimizeForDesktop (optimizeForDesktop s)) = body (optimizeForDesktop s) ∧
  body_classList (optimizeForDesktop (optimizeForDesktop s))
    = body_classList (optimizeForDesktop s).
Proof.
  destruct (optimizeForDesktop_page s) as (Hw & Hb & Hc).
  assert (sidebar_shown (optimizeForDesktop s)) as Hshown.
  { apply (sidebar_shown_variant (showFullSidebar s) _ desktop_style).
    - apply showFullSidebar_shown.
    - apply desktop_style_frame.
    - rewrite Hw. symmetry. apply currentDevice_showFullSidebar.
    - exact Hb.
    - rewrite Hc. unfold desktop_classes.
      by rewrite !contains_remove_ne, contains_add_ne, !contains_remove_ne. }
  destruct (showFullSidebar_fixed _ Hshown) as [Hb2 Hc2].
  destruct (optimizeForDesktop_page (optimizeForDesktop s)) as (_ & -> & ->).
  rewrite Hb2, Hc2, Hb, Hc. split.
  - apply map_doc_idempotent, desktop_style_idempotent.
  - apply desktop_classes_idempotent.
Qed.

(** ** The mobile policy applied twice, on any page with a table *)

Lemma filter_length_map q h (l : list Element) :
  (∀ e, q (h e) = q e) → length (List.filter q (map h l)) = length (List.filter q l).
Proof.
  intros H. induction l as [|e l IH]; [done|]. cbn. rewrite H.
  destruct (q e); cbn; by rewrite IH.
Qed.

Lemma filter_length_on_first q sel g (l : list Element) :
  (∀ e, q (g e) = q e) →
  length (List.filter q (list_on_first sel g l)) = length (List.filter q l).
Proof.
  intros H. induction l as [|e l IH]; [done|]. cbn.
  destruct (sel e); cbn.
  - rewrite H. by destruct (q e).
  - destruct (q e); cbn; by rewrite IH.
Qed.

Lemma count_forEach q sel f doc :
  (∀ e, q (f e) = q e) → count q (forEach sel f doc) = count q doc.
Proof.
  intros H. unfold count. rewrite all_elements_forEach. apply filter_length_map.
  intros e. unfold upd. destruct (sel e); [apply H|done].
Qed.

Lemma count_on_first q sel g doc :
  (∀ e, q (g e) = q e) → count q (on_first sel g doc) = count q doc.
Proof.
  intros H. unfold count. rewrite all_elements_on_first. by apply filter_length_on_first.
Qed.

Lemma by_class_set_style c k v e : by_class c (set_style k v e) = by_class c e.
Proof. done. Qed.

Lemma by_class_add c c' e :
  c ≠ c' → by_class c (on_classList (add c') e) = by_class c e.
Proof. intros H. unfold by_class. cbn. by apply contains_add_ne. Qed.

(** The sidebar functions neither add nor remove an element of a class
    other than the ones they toggle. *)
Lemma count_toggleSidebar c force s :
  c ≠ "open" → c ≠ "show" → c ≠ "visible" →
  count (by_class c) (body (toggleSidebar force s)) = count (by_class c) (body s).
Proof.
  intros H1 H2 H3. unfold toggleSidebar.
  destruct (getElementById "sidebar" (body s)) as [sb|] eqn:E; [|done].
  destruct (setSidebarVisibility_page
    (match force with Some b => b | None => negb (contains "open" (classList sb)) end) s)
    as [-> _]; [by rewrite E|].
  unfold sidebar_doc.
  rewrite !count_on_first; [done|intros; by apply by_class_toggle..].
Qed.

Lemma filter_length_app (q : Element → bool) l1 l2 :
  length (List.filter q (l1 ++ l2))
  = (length (List.filter q l1) + length (List.filter q l2))%nat.
Proof. by rewrite List.filter_app, length_app. Qed.

Lemma wrap_tables_counts n :
  length (List.filter (by_class "table") (elements (wrap_tables n)))
    = length (List.filter (by_class "table") (elements n)) ∧
  length (List.filter (by_class "table-wrapper") (elements (wrap_tables n)))
    = (length (List.filter (by_class "table-wrapper") (elements n))
       + length (List.filter (by_class "table") (elements n)))%nat.
Proof.
  induction n as [e cs IH] using Node_ind.
  assert (length (List.filter (by_class "table") (concat (map elements (map wrap_tables cs))))
            = length (List.filter (by_class "table") (concat (map elements cs))) ∧
          length (List.filter (by_class "table-wrapper")
                    (concat (map elements (map wrap_tables cs))))
            = (length (List.filter (by_class "table-wrapper") (concat (map elements cs)))
               + length (List.filter (by_class "table") (concat (map elements cs))))%nat)
    as [Ht Hw].
  { induction IH as [|c cs [Hc1 Hc2] _ [IH1 IH2]]; [done|].
    cbn [map concat]. rewrite !filter_length_app, Hc1, Hc2, IH1, IH2. lia. }
  cbn [wrap_tables].
  destruct (by_class "table" e) eqn:Et.
  - cbn [elements map concat]. rewrite app_nil_r.
    cbn [List.filter]. rewrite by_class_add by done. rewrite Et.
    change (by_class "table" wrapper) with false.
    change (by_class "table-wrapper" wrapper) with true.
    rewrite by_class_add by done.
    destruct (by_class "table-wrapper" e); cbn [length]; rewrite Ht, Hw; lia.
  - cbn [elements List.filter]. rewrite Et.
    destruct (by_class "table-wrapper" e); cbn [length]; rewrite Ht, Hw; lia.
Qed.

Lemma count_wrap_tables doc :
  count (by_class "table") (map wrap_tables doc) = count (by_class "table") doc ∧
  count (by_class "table-wrapper") (map wrap_tables doc)
    = (count (by_class "table-wrapper") doc + count (by_class "table") doc)%nat.
Proof.
  unfold count, all_elements.
  induction doc as [|c doc [IH1 IH2]]; [done|].
  destruct (wrap_tables_counts c) as [H1 H2].
  cbn [map concat]. rewrite !filter_length_app, H1, H2, IH1, IH2. lia.
Qed.

(** Each application of the mobile policy adds one wrapper per table and
    keeps the tables. *)
Lemma optimizeForMobile_counts s :
  count (by_class "table") (body (optimizeForMobile s)) = count (by_class "table") (body s) ∧
  count (by_class "table-wrapper") (body (optimizeForMobile s))
    = (count (by_class "table-wrapper") (body s) + count (by_class "table") (body s))%nat.
Proof.
  unfold optimizeForMobile, optimizeTablesForMobile, optimizeButtonsForMobile,
    optimizeCardsForMobile, hideSidebar.
  cbv zeta. cbn [body on_body on_body_classList].
  destruct (count_wrap_tables
    (forEach (by_class "btn")
       (λ button, set_style "minHeight" "44px"
          (set_style "fontSize" "1rem" (set_style "padding" "0.75rem 1rem" button)))
       (forEach (by_class "stat-card")
          (λ card, set_style "padding" "1.5rem" (set_style "marginBottom" "1rem" card))
          (forEach (by_class "card")
             (λ card, set_style "padding" "1rem" (set_style "marginBottom" "1rem" card))
             (body (toggleSidebar (Some false) (console_log (LogOptimize Mobile) s)))))))
    as [-> ->].
  rewrite !count_forEach by done.
  rewrite !count_toggleSidebar by done. done.
Qed.

(** X3: on every page with an element of class [table] the mobile policy
    is not idempotent: a second application changes the document. *)
Theorem optimizeForMobile_not_idempotent s :
  (0 < count (by_class "table") (body s))%nat →
  body (optimizeForMobile (optimizeForMobile s)) ≠ body (optimizeForMobile s).
Proof.
  intros Hpos Heq.
  destruct (optimizeForMobile_counts s) as [Ht Hw].
  destruct (optimizeForMobile_counts (optimizeForMobile s)) as [_ Hw2].
  rewrite Heq, Ht in Hw2. lia.
Qed.

Lemma optimizeForMobile_not_idempotent_witness :
  (0 < count (by_class "table") (body (initial 500 [] sample_page)))%nat ∧
  body (optimizeForMobile (optimizeForMobile (initial 500 [] sample_page)))
    ≠ body (optimizeForMobile (initial 500 [] sample_page)).
Proof.
  assert (0 < count (by_class "table") (body (initial 500 [] sample_page)))%nat as H
    by (vm_compute; lia).
  split; [exact H|].
  exact (optimizeForMobile_not_idempotent (initial 500 [] sample_page) H).
Defined.

(** ** [toggleSidebar] twice *)

Lemma getElementById_sidebar_doc shouldOpen isMobile doc :
  getElementById "sidebar" (sidebar_doc shouldOpen isMobile doc)
    = (λ e, on_classList (toggle "show" shouldOpen)
              (on_classList (toggle "open" shouldOpen) e))
        <$> getElementById "sidebar" doc.
Proof.
  unfold sidebar_doc.
  rewrite getElementById_on_first_other by done.
  rewrite !getElementById_on_first_same.
  by destruct (getElementById "sidebar" doc).
Qed.

Lemma toggleSidebar_sidebar_open force s :
  present (getElementById "sidebar" (body s)) = true →
  sidebar_open (toggleSidebar force s)
    = match force with Some b => b | None => negb (sidebar_open s) end.
Proof.
  intros Hp. unfold toggleSidebar, sidebar_open.
  destruct (getElementById "sidebar" (body s)) as [sb|] eqn:E; [|done].
  destruct (setSidebarVisibility_page
    (match force with Some b => b | None => negb (contains "open" (classList sb)) end) s)
    as [-> _]; [by rewrite E|].
  rewrite getElementById_sidebar_doc, E. cbn [fmap option_fmap option_map].
  rewrite !classList_on_classList, contains_toggle_ne by done.
  apply contains_toggle.
Qed.

(** X5: two calls of [toggleSidebar()] without argument bring the
    sidebar back to the visibility it had. *)
Theorem toggleSidebar_twice s :
  sidebar_open (toggleSidebar None (toggleSidebar None s)) = sidebar_open s.
Proof.
  destruct (present (getElementById "sidebar" (body s))) eqn:Hp.
  - assert (present (getElementById "sidebar" (body (toggleSidebar None s))) = true) as Hp'.
    { unfold toggleSidebar.
      destruct (getElementById "sidebar" (body s)) as [sb|] eqn:E; [|done].
      destruct (setSidebarVisibility_page (negb (contains "open" (classList sb))) s)
        as [-> _]; [by rewrite E|].
      by rewrite getElementById_sidebar_doc, E. }
    rewrite !toggleSidebar_sidebar_open by done. apply negb_involutive.
  - assert (getElementById "sidebar" (body s) = None) as E
      by by destruct (getElementById "sidebar" (body s)).
    by rewrite !(toggleSidebar_without_sidebar None s E).
Qed.

(** ** The scenario of the specification *)

(** A page opened at 1920 pixels with nothing stored starts in the light
    theme, as a desktop, with the sidebar shown.  A toggle makes the theme
    dark and stores it.  A resize to 500 pixels makes the device mobile
    and hides the sidebar. *)
Example scenario_theme :
  completes ThemeToggle.getCurrentTheme tt_started = Normal "light" ∧
  completes ThemeToggle.getCurrentTheme (after ThemeToggle.toggleTheme tt_started)
    = Normal "dark" ∧
  items (localStorage (ThemeToggle.page (after ThemeToggle.toggleTheme tt_started))) !! "theme"
    = Some "dark" ∧
  completes Theme.getCurrentTheme th_started = Normal "light" ∧
  completes Theme.getCurrentTheme (after Theme.toggleTheme th_started) = Normal "dark" ∧
  items (localStorage (Theme.page (after Theme.toggleTheme th_started))) !! "theme"
    = Some "dark".
Proof. vm_compute. done. Qed.

Example scenario_layout :
  let s := init (initial 1920 [] sample_page) in
  currentDevice s = Desktop ∧ sidebar_open s = true ∧
  currentDevice (on_resize 500 s) = Mobile ∧ sidebar_open (on_resize 500 s) = false.
Proof. vm_compute. done. Qed.

(** ** The listeners of the mobile menu *)









(** ** The device class and its marker on [<body>] *)

Lemma showFullSidebar_frame s : sidebar_frame s (showFullSidebar s).
Proof.
  destruct (currentDevice_showFullSidebar s) as [Hd Hw].
  split; [done|]. split; [done|]. split; [apply console_showFullSidebar|].
  intros c Hne. destruct (showFullSidebar_page s) as (_ & _ & ->).
  destruct (_ && _); [|done]. by apply contains_toggle_ne.
Qed.








(** ** Places in the document *)

Lemma first_in_present sel (i : nat) (l : list Node) :
  Forall (λ c, present (place_in_node sel c) = existsb sel (elements c)) l →
  present (first_in (place_in_node sel) i l) = existsb sel (concat (map elements l)).
Proof.
  intros H. revert i. induction H as [|c l Hc _ IH]; intros i; [done|].
  cbn. rewrite existsb_app, <- Hc.
  destruct (place_in_node sel c); [done|]. apply IH.
Qed.

Lemma place_in_node_present sel n :
  present (place_in_node sel n) = existsb sel (elements n).
Proof.
  induction n as [e cs IH] using Node_ind. cbn.
  destruct (sel e); [done|]. by apply first_in_present.
Qed.

(** There is a place for [sel] exactly when [querySelector] finds an
    element. *)
Lemma place_present sel doc :
  present (place sel doc) = present (querySelector sel doc).
Proof.
  unfold place, querySelector, all_elements.
  rewrite <- list_find_existsb. apply first_in_present.
  apply Forall_forall. intros c _. apply place_in_node_present.
Qed.

Lemma first_in_on_first sel sel' g (i : nat) (l : list Node) :
  Forall (λ c, place_in_node sel (on_first_node sel' g c) = place_in_node sel c) l →
  first_in (place_in_node sel) i (on_first sel' g l) = first_in (place_in_node sel) i l.
Proof.
  intros H. revert i. induction H as [|c l Hc _ IH]; intros i; [done|].
  cbn. destruct (existsb sel' (elements c)); cbn.
  - by rewrite Hc.
  - by rewrite IH.
Qed.

Lemma place_in_node_on_first sel sel' g n :
  (∀ e, sel (g e) = sel e) →
  place_in_node sel (on_first_node sel' g n) = place_in_node sel n.
Proof.
  intros Hg. induction n as [e cs IH] using Node_ind.
  rewrite on_first_node_children. destruct (sel' e); cbn.
  - by rewrite Hg.
  - destruct (sel e); [done|]. by apply first_in_on_first.
Qed.

(** A change of the classes of an element that [sel] does not look at moves
    no place of [sel]. *)
Lemma place_on_first sel sel' g doc :
  (∀ e, sel (g e) = sel e) → place sel (on_first sel' g doc) = place sel doc.
Proof.
  intros Hg. unfold place. apply first_in_on_first.
  apply Forall_forall. intros c _. by apply place_in_node_on_first.
Qed.

Lemma place_toggleSidebar c force s :
  c ≠ "open" → c ≠ "show" → c ≠ "visible" →
  place (by_class c) (body (toggleSidebar force s)) = place (by_class c) (body s).
Proof.
  intros H1 H2 H3. unfold toggleSidebar.
  destruct (getElementById "sidebar" (body s)) as [sb|] eqn:E; [|done].
  destruct (setSidebarVisibility_page
    (match force with Some b => b | None => negb (contains "open" (classList sb)) end) s)
    as [-> _]; [by rewrite E|].
  unfold sidebar_doc.
  rewrite !place_on_first; [done|intros; by apply by_class_toggle..].
Qed.

(** ** What the listeners of the mobile menu do *)

(** [hideSidebar] leaves the sidebar closed, and on a page with a sidebar
    the overlay hidden and [<body>] without the class [sidebar-open]. *)
Lemma hideSidebar_closed s :
  sidebar_open (hideSidebar s) = false ∧
  (present (getElementById "sidebar" (body s)) = true →
   overlay_visible (hideSidebar s) = false ∧
   contains "sidebar-open" (body_classList (hideSidebar s)) = false).
Proof.
  unfold hideSidebar. split.
  - destruct (present (getElementById "sidebar" (body s))) eqn:Hp.
    + by rewrite toggleSidebar_sidebar_open.
    + unfold toggleSidebar, sidebar_open.
      destruct (getElementById "sidebar" (body s)) eqn:E; [by cbn in Hp|].
      by rewrite E.
  - intros Hp. unfold toggleSidebar.
    destruct (getElementById "sidebar" (body s)) as [sb|] eqn:E; [|done].
    destruct (setSidebarVisibility_page false s) as [Hb Hc]; [by rewrite E|].
    split.
    + unfold overlay_visible. rewrite Hb. unfold sidebar_doc.
      rewrite getElementById_on_first_same, !getElementById_on_first_other by done.
      destruct (getElementById "sidebarOverlay" (body s)) as [o|]; [|done].
      cbn. apply contains_remove.
    + rewrite Hc. apply contains_remove.
Qed.

Lemma on_document_click_hides target s sb p q :
  currentDevice s = Mobile →
  querySelector (by_class "sidebar") (body s) = Some sb →
  contains "open" (classList sb) = true →
  place (by_class "sidebar") (body s) = Some p → node_contains p target = false →
  place (by_class "mobile-toggle") (body s) = Some q → node_contains q target = false →
  on_document_click target s = (hideSidebar s, Normal ()).
Proof.
  intros Hd Hsb Hop Hp Hpt Hq Hqt.
  unfold on_document_click, when, gets, modify, throw, mbind, mret, JS_bind, JS_ret, bind, ret.
  cbn. rewrite Hd, bool_decide_eq_true_2 by done.
  by rewrite Hsb, Hp, Hq, Hop, Hpt, Hqt.
Qed.

(** X21: on a mobile device the Escape key closes the sidebar, and so
    does a click outside the open sidebar and outside the mobile toggle.
    Either listener returns normally and leaves the sidebar without
    [open]; on a page with the sidebar element the overlay is hidden and
    [<body>] is without [sidebar-open]. *)
Theorem mobile_menu_closes_sidebar s :
  currentDevice s = Mobile →
  (let s' := on_keydown "Escape" s in
   sidebar_open s' = false ∧
   (present (getElementById "sidebar" (body s)) = true →
    overlay_visible s' = false ∧ contains "sidebar-open" (body_classList s') = false)) ∧
  (∀ target sb p q,
     querySelector (by_class "sidebar") (body s) = Some sb →
     contains "open" (classList sb) = true →
     place (by_class "sidebar") (body s) = Some p → node_contains p target = false →
     place (by_class "mobile-toggle") (body s) = Some q → node_contains q target = false →
     let s' := after (on_document_click target) s in
     completes (on_document_click target) s = Normal () ∧
     sidebar_open s' = false ∧
     (present (getElementById "sidebar" (body s)) = true →
      overlay_visible s' = false ∧ contains "sidebar-open" (body_classList s') = false)).
Proof.
  intros Hd. split.
  - cbv zeta. unfold on_keydown. rewrite Hd. cbn. apply hideSidebar_closed.
  - intros target sb p q Hsb Hop Hp Hpt Hq Hqt. cbv zeta. unfold completes, after.
    rewrite (on_document_click_hides target s sb p q) by done. cbn.
    split; [done|]. apply hideSidebar_closed.
Qed.

Lemma mobile_menu_closes_sidebar_witness :
  let s := toggleSidebar (Some true) (init (initial 500 [] menu_page)) in
  let s' := after (on_document_click [3; 0]%nat) s in
  sidebar_open s = true ∧
  sidebar_open (on_keydown "Escape" s) = false ∧
  overlay_visible (on_keydown "Escape" s) = false ∧
  completes (on_document_click [3; 0]%nat) s = Normal () ∧
  sidebar_open s' = false ∧ overlay_visible s' = false.
Proof.
  cbv zeta.
  destruct (mobile_menu_closes_sidebar
    (toggleSidebar (Some true) (init (initial 500 [] menu_page))) eq_refl)
    as [[E1 E2] Hclick].
  destruct (Hclick [3; 0]%nat
    (mkElement "nav" "sidebar" ["sidebar"; "open"; "show"] ∅) [1%nat] [0; 0]%nat)
    as (H1 & H2 & H3); [by vm_compute..|].
  split; [by vm_compute|]. split; [exact E1|]. split; [by apply E2|].
  split; [exact H1|]. split; [exact H2|]. by apply H3.
Defined.

(** X22: the listeners of the mobile menu act on mobile devices only, and
    the click listener only on an open sidebar clicked outside of.  When
    the document click listener does anything but return with the page
    unchanged, the device is mobile and the first [.sidebar] element is
    open and does not contain the target; when the keydown listener changes
    the page, the key is Escape and the device is mobile. *)
Theorem menu_listeners_idle s :
  (∀ target,
     on_document_click target s ≠ (s, Normal ()) →
     currentDevice s = Mobile ∧
     ∃ sb p, querySelector (by_class "sidebar") (body s) = Some sb ∧
             contains "open" (classList sb) = true ∧
             place (by_class "sidebar") (body s) = Some p ∧
             node_contains p target = false) ∧
  (∀ key, on_keydown key s ≠ s → key = "Escape" ∧ currentDevice s = Mobile).
Proof.
  split.
  - intros target.
    unfold on_document_click, when, gets, modify, throw, mbind, mret, JS_bind, JS_ret,
      bind, ret. cbn.
    case_bool_decide as Hd; [|done].
    destruct (querySelector _ _) as [sb|]; [|done].
    destruct (place (by_class "sidebar") _) as [p|]; [|done].
    destruct (contains "open" _) eqn:Hop; [|done].
    destruct (node_contains p target) eqn:Hpt; [done|].
    intros _. split; [done|]. by exists sb, p.
  - intros key. unfold on_keydown.
    case_bool_decide as Hk; [|done]. case_bool_decide as Hd; done.
Qed.

Lemma menu_listeners_idle_witness :
  let s := toggleSidebar (Some true) (init (initial 500 [] menu_page)) in
  (currentDevice s = Mobile ∧
   ∃ sb p, querySelector (by_class "sidebar") (body s) = Some sb ∧
           contains "open" (classList sb) = true ∧
           place (by_class "sidebar") (body s) = Some p ∧
           node_contains p [3; 0]%nat = false) ∧
  ("Escape" = "Escape" ∧ currentDevice s = Mobile).
Proof.
  cbv zeta. split.
  - apply (proj1 (menu_listeners_idle
      (toggleSidebar (Some true) (init (initial 500 [] menu_page)))) [3; 0]%nat).
    intros H. apply (f_equal (λ r, sidebar_open r.1)) in H. by vm_compute in H.
  - apply (proj2 (menu_listeners_idle
      (toggleSidebar (Some true) (init (initial 500 [] menu_page)))) "Escape").
    intros H. apply (f_equal sidebar_open) in H. by vm_compute in H.
Defined.

(** X23: the document click listener calls [contains] on the mobile
    toggle without checking that there is one.  On a mobile device, on a
    page without a [.mobile-toggle] element, a click outside the open
    sidebar raises a TypeError and the sidebar stays as it is. *)
Theorem click_outside_without_mobile_toggle_throws target s sb p :
  currentDevice s = Mobile →
  querySelector (by_class "sidebar") (body s) = Some sb →
  contains "open" (classList sb) = true →
  place (by_class "sidebar") (body s) = Some p → node_contains p target = false →
  querySelector (by_class "mobile-toggle") (body s) = None →
  on_document_click target s = (s, Throw TypeError).
Proof.
  intros Hd Hsb Hop Hp Hpt Hq.
  assert (place (by_class "mobile-toggle") (body s) = None) as Hq'.
  { pose proof (place_present (by_class "mobile-toggle") (body s)) as H.
    rewrite Hq in H.
    destruct (place (by_class "mobile-toggle") (body s)); [by cbn in H|done]. }
  unfold on_document_click, when, gets, modify, throw, mbind, mret, JS_bind, JS_ret, bind, ret.
  cbn. rewrite Hd, bool_decide_eq_true_2 by done.
  by rewrite Hsb, Hp, Hq', Hop, Hpt.
Qed.

Lemma click_outside_without_mobile_toggle_throws_witness :
  let s := toggleSidebar (Some true) (init (initial 500 [] sample_page)) in
  sidebar_open s = true ∧
  on_document_click [2; 0]%nat s = (s, Throw TypeError).
Proof.
  cbv zeta. split; [by vm_compute|].
  apply (click_outside_without_mobile_toggle_throws [2; 0]%nat
    (toggleSidebar (Some true) (init (initial 500 [] sample_page)))
    (mkElement "nav" "sidebar" ["sidebar"; "open"; "show"] ∅) [0%nat]); by vm_compute.
Defined.

(** The document listener does nothing on a click inside the mobile
    toggle. *)
Lemma on_document_click_in_toggle target s q :
  place (by_class "mobile-toggle") (body s) = Some q →
  node_contains q target = true →
  on_document_click target s = (s, Normal ()).
Proof.
  intros Hq Hqt.
  unfold on_document_click, when, gets, modify, throw, mbind, mret, JS_bind, JS_ret, bind, ret.
  cbn. destruct (bool_decide (currentDevice _ = Mobile)); [|done].
  rewrite Hq.
  destruct (querySelector _ _) as [sb|]; [|done].
  destruct (place (by_class "sidebar") _) as [p|]; [|done].
  destruct (contains "open" _); [|done].
  destruct (node_contains p target); cbn; [done|].
  by rewrite Hqt.
Qed.

(** X24: a click on the mobile toggle flips the sidebar and the document
    listener does not undo it.  When the click target is inside the first
    [.mobile-toggle] element, the two listeners the click reaches return
    normally and leave the page as [toggleSidebar()] alone leaves it, on
    every device. *)
Theorem mobile_toggle_click_flips_sidebar target s q :
  place (by_class "mobile-toggle") (body s) = Some q →
  node_contains q target = true →
  on_click target s = (toggleSidebar None s, Normal ()).
Proof.
  intros Hq Hqt.
  assert (place (by_class "mobile-toggle") (body (toggleSidebar None s)) = Some q) as Hq'.
  { by rewrite place_toggleSidebar. }
  unfold on_click, on_mobile_toggle_click, when, gets, modify, mbind, mret, JS_bind, JS_ret,
    bind, ret.
  cbn -[toggleSidebar on_document_click]. rewrite Hq, Hqt.
  by apply (on_document_click_in_toggle target (toggleSidebar None s) q).
Qed.

Lemma mobile_toggle_click_flips_sidebar_witness :
  let s := init (initial 500 [] menu_page) in
  sidebar_open s = false ∧
  sidebar_open (after (on_click [0; 0; 0]%nat) s) = true ∧
  sidebar_open (after (on_click [0; 0; 0]%nat) (after (on_click [0; 0; 0]%nat) s)) = false.
Proof.
  cbv zeta. unfold after.
  rewrite (mobile_toggle_click_flips_sidebar [0; 0; 0]%nat
    (init (initial 500 [] menu_page)) [0; 0]%nat) by by vm_compute.
  cbn [fst].
  rewrite (mobile_toggle_click_flips_sidebar [0; 0; 0]%nat
    (toggleSidebar None (init (initial 500 [] menu_page))) [0; 0]%nat) by by vm_compute.
  by vm_compute.
Defined.

(** ** The document the mobile policy leaves *)

Lemma mobile_style_frame e :
  id (mobile_style e) = id e ∧ classList (mobile_style e) = classList e.
Proof.
  destruct e as [t i cl st]. unfold mobile_style, upd, by_class.
  rewrite !set_style_value by done. by class_cases.
Qed.

Lemma elements_wrap_tables n :
  elements (wrap_tables n) = concat (map wrapped (elements n)).
Proof.
  induction n as [e cs IH] using Node_ind.
  assert (concat (map elements (map wrap_tables cs))
          = concat (map wrapped (concat (map elements cs)))) as Hcs.
  { induction IH as [|c cs Hc _ IHcs]; [done|].
    cbn. by rewrite map_app, concat_app, Hc, IHcs. }
  cbn [elements map concat]. rewrite <- Hcs. cbn [wrap_tables]. unfold wrapped.
  destruct (by_class "table" e); cbn [elements map concat app]; by rewrite ?app_nil_r.
Qed.

Lemma all_elements_wrap_tables doc :
  all_elements (map wrap_tables doc) = concat (map wrapped (all_elements doc)).
Proof.
  unfold all_elements. induction doc as [|c doc IH]; [done|].
  cbn. by rewrite map_app, concat_app, elements_wrap_tables, IH.
Qed.

Lemma optimizeForMobile_page s :
  innerWidth (optimizeForMobile s) = innerWidth s ∧
  body (optimizeForMobile s) = map wrap_tables (map_doc mobile_style (body (hideSidebar s))) ∧
  body_classList (optimizeForMobile s)
    = remove "desktop-device" (remove "tablet-device"
        (add "mobile-device" (body_classList (hideSidebar s)))).
Proof.
  unfold optimizeForMobile, optimizeTablesForMobile, optimizeButtonsForMobile,
    optimizeCardsForMobile, hideSidebar.
  cbv zeta. cbn [innerWidth body body_classList on_body on_body_classList].
  assert (toggleSidebar (Some false) (console_log (LogOptimize Mobile) s)
          = console_log (LogOptimize Mobile) (toggleSidebar (Some false) s)) as ->.
  { unfold toggleSidebar, console_log. cbn [body].
    destruct (getElementById "sidebar" (body s)); [|done].
    unfold setSidebarVisibility. cbn [body innerWidth on_body].
    destruct (negb _); [done|]. destruct (present _); by destruct (_ && _). }
  cbn [innerWidth body body_classList console_log].
  split; [apply currentDevice_toggleSidebar|]. split; [|done].
  rewrite !forEach_map, !map_doc_compose. done.
Qed.

Lemma find_wrapped i (l : list Element) :
  i ≠ "" →
  List.find (by_id i) (concat (map wrapped l))
    = upd (by_class "table") (on_classList (add "table-responsive")) <$> List.find (by_id i) l.
Proof.
  intros Hi. induction l as [|e l IH]; [done|].
  cbn [map concat]. unfold wrapped at 1, upd.
  assert (by_id i wrapper = false) as Hw.
  { apply bool_decide_eq_false. cbn. congruence. }
  destruct (by_class "table" e) eqn:Et; cbn [app List.find];
    rewrite ?Hw, ?by_id_on_classList.
  - destruct (by_id i e) eqn:E; [|exact IH].
    cbn. by rewrite Et.
  - destruct (by_id i e); [|exact IH].
    cbn. by rewrite Et.
Qed.

(** The classes of the element with a given id after the mobile policy
    are those [hideSidebar] left, but for the class the table wrapping
    adds. *)
Lemma getElementById_optimizeForMobile i c s :
  i ≠ "" → c ≠ "table-responsive" →
  (λ e, contains c (classList e)) <$> getElementById i (body (optimizeForMobile s))
    = (λ e, contains c (classList e)) <$> getElementById i (body (hideSidebar s)).
Proof.
  intros Hi Hc. destruct (optimizeForMobile_page s) as (_ & -> & _).
  unfold getElementById, querySelector.
  rewrite all_elements_wrap_tables, find_wrapped, all_elements_map_doc by done.
  rewrite find_map.
  2: { intros e. unfold by_id. by rewrite (proj1 (mobile_style_frame e)). }
  destruct (List.find (by_id i) (all_elements (body (hideSidebar s)))) as [e|]; [|done].
  cbn. f_equal. unfold upd.
  destruct (by_class "table" (mobile_style e)); cbn;
    rewrite ?contains_add_ne by done; by rewrite (proj2 (mobile_style_frame e)).
Qed.

Lemma sidebar_open_optimizeForMobile s : sidebar_open (optimizeForMobile s) = false.
Proof.
  assert ((λ e, contains "open" (classList e))
            <$> getElementById "sidebar" (body (optimizeForMobile s))
          = (λ e, contains "open" (classList e))
            <$> getElementById "sidebar" (body (hideSidebar s))) as H
    by by apply getElementById_optimizeForMobile.
  destruct (hideSidebar_closed s) as [Hc _]. unfold sidebar_open in *.
  destruct (getElementById "sidebar" (body (optimizeForMobile s))) as [e|]; [|done].
  destruct (getElementById "sidebar" (body (hideSidebar s))) as [e'|]; cbn in H; [|done].
  injection H as ->. done.
Qed.

(** ** The sidebar each policy leaves *)

Lemma sidebar_open_variant s s' h :
  (∀ e, id (h e) = id e ∧ classList (h e) = classList e) →
  body s' = map_doc h (body s) → sidebar_open s' = sidebar_open s.
Proof.
  intros Hh Hb. unfold sidebar_open, getElementById. rewrite Hb.
  rewrite querySelector_map_doc.
  2: { intros e. unfold by_id. by rewrite (proj1 (Hh e)). }
  destruct (querySelector (by_id "sidebar") (body s)) as [e|]; [|done].
  cbn. by rewrite (proj2 (Hh e)).
Qed.

Lemma sidebar_open_showFullSidebar s :
  sidebar_open (showFullSidebar s) =
    if present (querySelector (by_class "sidebar") (body s))
       && present (getElementById "sidebar" (body s))
    then true else sidebar_open s.
Proof.
  unfold showFullSidebar.
  destruct (present (querySelector (by_class "sidebar") (body s))) eqn:Hq; [|done].
  cbn [negb andb].
  set (s1 := on_body (on_first (by_class "sidebar") (on_classList (remove "compact"))) s).
  assert (present (getElementById "sidebar" (body s1))
          = present (getElementById "sidebar" (body s))) as Hp.
  { unfold s1, getElementById, on_body. cbn [body].
    by apply present_querySelector_on_first. }
  destruct (present (getElementById "sidebar" (body s))) eqn:Hs.
  - by rewrite toggleSidebar_sidebar_open.
  - unfold toggleSidebar, sidebar_open in *.
    destruct (getElementById "sidebar" (body s1)) eqn:E1; [by cbn in Hp|].
    rewrite E1. by destruct (getElementById "sidebar" (body s)).
Qed.

(** X25: the default sidebar of each device class.  The mobile policy
    leaves the sidebar closed.  The tablet and the desktop policy leave it
    open on a page that has both an element of class [sidebar] and the
    element with id [sidebar]; on a page with no element of class
    [sidebar] they leave the sidebar as it was. *)
Theorem default_sidebar_visibility s :
  (currentDevice s = Mobile → sidebar_open (optimizeForDevice s) = false) ∧
  (currentDevice s ≠ Mobile →
   present (querySelector (by_class "sidebar") (body s)) = true →
   present (getElementById "sidebar" (body s)) = true →
   sidebar_open (optimizeForDevice s) = true) ∧
  (currentDevice s ≠ Mobile →
   querySelector (by_class "sidebar") (body s) = None →
   sidebar_open (optimizeForDevice s) = sidebar_open s).
Proof.
  assert (currentDevice s ≠ Mobile →
          sidebar_open (optimizeForDevice s) = sidebar_open (showFullSidebar s)) as H.
  { intros Hd. unfold optimizeForDevice. destruct (currentDevice s); [done|..].
    - destruct (optimizeForTablet_page s) as (_ & Hb & _).
      apply (sidebar_open_variant _ _ tablet_style); [apply tablet_style_frame|done].
    - destruct (optimizeForDesktop_page s) as (_ & Hb & _).
      apply (sidebar_open_variant _ _ desktop_style); [apply desktop_style_frame|done]. }
  split; [|split].
  - intros Hd. unfold optimizeForDevice. rewrite Hd. apply sidebar_open_optimizeForMobile.
  - intros Hd Hq Hs. by rewrite H, sidebar_open_showFullSidebar, Hq, Hs.
  - intros Hd Hq. by rewrite H, sidebar_open_showFullSidebar, Hq.
Qed.

Lemma default_sidebar_visibility_witness :
  sidebar_open (optimizeForDevice (set_currentDevice Mobile
    (toggleSidebar (Some true) (initial 500 [] sample_page)))) = false ∧
  sidebar_open (optimizeForDevice (initial 1920 [] sample_page)) = true ∧
  sidebar_open (optimizeForDevice (initial 1920 [] plain_sidebar_page)) = false.
Proof.
  split; [|split].
  - by apply (proj1 (default_sidebar_visibility (set_currentDevice Mobile
      (toggleSidebar (Some true) (initial 500 [] sample_page))))).
  - by apply (proj1 (proj2 (default_sidebar_visibility (initial 1920 [] sample_page)))).
  - by rewrite (proj2 (proj2 (default_sidebar_visibility (initial 1920 [] plain_sidebar_page)))).
Defined.

(** ** The inline styles the policies leave *)

Lemma elem_of_map_inv (h : Element → Element) (l : list Element) e :
  e ∈ map h l → ∃ e0, e = h e0 ∧ e0 ∈ l.
Proof.
  induction l as [|x l IH]; cbn; [by intros ?%elem_of_nil|].
  intros [->|Hin]%elem_of_cons.
  - exists x. split; [done|]. by left.
  - destruct (IH Hin) as (e0 & -> & H0). exists e0. split; [done|]. by right.
Qed.

Lemma elem_of_wrapped_inv (l : list Element) e :
  e ∈ concat (map wrapped l) →
  e = wrapper ∨ ∃ e0, e0 ∈ l ∧ (e = e0 ∨ e = on_classList (add "table-responsive") e0).
Proof.
  induction l as [|x l IH]; cbn; [by intros ?%elem_of_nil|].
  intros [Hin|Hin]%elem_of_app.
  - unfold wrapped in Hin. destruct (by_class "table" x).
    + apply elem_of_cons in Hin as [->|Hin]; [by left|].
      apply list_elem_of_singleton in Hin as ->.
      right. exists x. split; [by left|by right].
    + apply list_elem_of_singleton in Hin as ->.
      right. exists x. split; [by left|by left].
  - destruct (IH Hin) as [->|(e0 & H0 & He)]; [by left|].
    right. exists e0. split; [by right|done].
Qed.

Lemma mobile_style_button e :
  by_class "btn" e = true →
  style (mobile_style e) !! "minHeight" = Some "44px" ∧
  style (mobile_style e) !! "fontSize" = Some "1rem" ∧
  style (mobile_style e) !! "padding" = Some "0.75rem 1rem".
Proof.
  destruct e as [t i cl st]. unfold mobile_style, upd, by_class.
  rewrite !set_style_value by done. cbn [classList]. intros Hb.
  class_cases; cbn [classList tagName id style]; rewrite ?Hb; cbn [style].
  all: repeat split; repeat (rewrite lookup_insert_eq || rewrite lookup_insert_ne by done);
    done.
Qed.

Lemma tablet_style_button e :
  by_class "btn" e = true →
  style (tablet_style e) !! "fontSize" = Some "0.875rem" ∧
  style (tablet_style e) !! "padding" = Some "0.625rem 1.25rem".
Proof.
  destruct e as [t i cl st]. unfold tablet_style, upd, by_class.
  rewrite !set_style_value by done. cbn [classList]. intros Hb.
  class_cases; cbn [classList tagName id style]; rewrite ?Hb; cbn [style].
  all: repeat split; repeat (rewrite lookup_insert_eq || rewrite lookup_insert_ne by done);
    done.
Qed.

Lemma desktop_style_cleared e :
  (by_class "card" e = true →
   style (desktop_style e) !! "padding" = None ∧
   style (desktop_style e) !! "marginBottom" = None) ∧
  (by_class "btn" e = true →
   style (desktop_style e) !! "padding" = None ∧
   style (desktop_style e) !! "fontSize" = None ∧
   style (desktop_style e) !! "minHeight" = None).
Proof.
  destruct e as [t i cl st]. unfold desktop_style, upd, by_class.
  rewrite !set_style_empty. cbn [classList].
  split; intros Hb; class_cases; cbn [classList tagName id style]; rewrite ?Hb;
    cbn [style]; try done.
  all: repeat split; repeat (rewrite lookup_delete_eq || rewrite lookup_delete_ne by done);
    done.
Qed.

(** X26: what the policies leave on buttons and cards.  After the mobile
    policy every element of class [btn] in the document has the
    touch-friendly inline style (minimal height 44px, font size 1rem,
    padding 0.75rem 1rem); after the tablet policy every such element has
    font size 0.875rem and padding 0.625rem 1.25rem; after the desktop
    policy no element of class [card] carries an inline padding or bottom
    margin and no element of class [btn] an inline padding, font size or
    minimal height. *)
Theorem policies_style_buttons_and_cards s e :
  (e ∈ all_elements (body (optimizeForMobile s)) → by_class "btn" e = true →
   style e !! "minHeight" = Some "44px" ∧ style e !! "fontSize" = Some "1rem" ∧
   style e !! "padding" = Some "0.75rem 1rem") ∧
  (e ∈ all_elements (body (optimizeForTablet s)) → by_class "btn" e = true →
   style e !! "fontSize" = Some "0.875rem" ∧
   style e !! "padding" = Some "0.625rem 1.25rem") ∧
  (e ∈ all_elements (body (optimizeForDesktop s)) →
   (by_class "card" e = true →
    style e !! "padding" = None ∧ style e !! "marginBottom" = None) ∧
   (by_class "btn" e = true →
    style e !! "padding" = None ∧ style e !! "fontSize" = None ∧
    style e !! "minHeight" = None)).
Proof.
  split; [|split].
  - destruct (optimizeForMobile_page s) as (_ & -> & _).
    rewrite all_elements_wrap_tables, all_elements_map_doc.
    intros [->|(e1 & [e0 [-> _]]%elem_of_map_inv & He)]%elem_of_wrapped_inv Hb; [done|].
    assert (by_class "btn" e0 = true ∧ style e = style (mobile_style e0)) as [Hb0 ->].
    { unfold by_class in *. destruct He as [-> | ->].
      - by rewrite (proj2 (mobile_style_frame e0)) in Hb.
      - rewrite classList_on_classList, contains_add_ne in Hb by done.
        by rewrite (proj2 (mobile_style_frame e0)) in Hb. }
    by apply mobile_style_button.
  - destruct (optimizeForTablet_page s) as (_ & -> & _).
    rewrite all_elements_map_doc. intros [e0 [-> _]]%elem_of_map_inv Hb.
    apply tablet_style_button.
    unfold by_class in *. by rewrite (proj2 (tablet_style_frame e0)) in Hb.
  - destruct (optimizeForDesktop_page s) as (_ & -> & _).
    rewrite all_elements_map_doc. intros [e0 [-> _]]%elem_of_map_inv.
    unfold by_class. rewrite (proj2 (desktop_style_frame e0)).
    apply desktop_style_cleared.
Qed.

Lemma policies_style_buttons_and_cards_witness :
  let button := mkElement "button" "" ["btn"] in
  (style (button (<["minHeight" := "44px"]> (<["fontSize" := "1rem"]>
     (<["padding" := "0.75rem 1rem"]> ∅)))) !! "minHeight" = Some "44px" ∧
   style (button (<["minHeight" := "44px"]> (<["fontSize" := "1rem"]>
     (<["padding" := "0.75rem 1rem"]> ∅)))) !! "fontSize" = Some "1rem" ∧
   style (button (<["minHeight" := "44px"]> (<["fontSize" := "1rem"]>
     (<["padding" := "0.75rem 1rem"]> ∅)))) !! "padding" = Some "0.75rem 1rem") ∧
  (style (button ∅) !! "padding" = None ∧ style (button ∅) !! "fontSize" = None ∧
   style (button ∅) !! "minHeight" = None).
Proof.
  cbv zeta. split.
  - apply (proj1 (policies_style_buttons_and_cards (initial 500 [] sample_page)
      (mkElement "button" "" ["btn"] (<["minHeight" := "44px"]> (<["fontSize" := "1rem"]>
         (<["padding" := "0.75rem 1rem"]> ∅)))))); [|done].
    vm_compute. do 6 right. by left.
  - apply (proj2 (proj2 (policies_style_buttons_and_cards
      (optimizeForMobile (initial 500 [] sample_page)) (mkElement "button" "" ["btn"] ∅))));
      [|done].
    vm_compute. do 6 right. by left.
Defined.

(** ** The table wrappers stay *)

Lemma count_map_doc q h doc : (∀ e, q (h e) = q e) → count q (map_doc h doc) = count q doc.
Proof.
  intros H. unfold count. rewrite all_elements_map_doc. by apply filter_length_map.
Qed.

Lemma count_showFullSidebar c s :
  c ≠ "open" → c ≠ "show" → c ≠ "visible" → c ≠ "compact" →
  count (by_class c) (body (showFullSidebar s)) = count (by_class c) (body s).
Proof.
  intros H1 H2 H3 H4. destruct (showFullSidebar_page s) as (_ & -> & _).
  destruct (present (querySelector _ _)); [|done].
  destruct (present (getElementById _ _)); unfold sidebar_doc;
    rewrite !count_on_first; try done.
  all: intros; by apply by_class_toggle || by apply by_class_remove.
Qed.

Lemma count_optimizeForTablet c s :
  c ≠ "open" → c ≠ "show" → c ≠ "visible" → c ≠ "compact" →
  count (by_class c) (body (optimizeForTablet s)) = count (by_class c) (body s).
Proof.
  intros H1 H2 H3 H4. destruct (optimizeForTablet_page s) as (_ & -> & _).
  rewrite count_map_doc; [by apply count_showFullSidebar|].
  intros e. unfold by_class. by rewrite (proj2 (tablet_style_frame e)).
Qed.

Lemma count_optimizeForDesktop c s :
  c ≠ "open" → c ≠ "show" → c ≠ "visible" → c ≠ "compact" →
  count (by_class c) (body (optimizeForDesktop s)) = count (by_class c) (body s).
Proof.
  intros H1 H2 H3 H4. destruct (optimizeForDesktop_page s) as (_ & -> & _).
  rewrite count_map_doc; [by apply count_showFullSidebar|].
  intros e. unfold by_class. by rewrite (proj2 (desktop_style_frame e)).
Qed.

(** X27: no policy takes a table wrapper away.  The tablet and the
    desktop policy keep the number of [table-wrapper] elements and of
    tables, so a page that was mobile, then desktop, then mobile again has
    two more wrappers per table than it started with. *)
Theorem table_wrappers_stay s :
  count (by_class "table-wrapper") (body (optimizeForTablet s))
    = count (by_class "table-wrapper") (body s) ∧
  count (by_class "table-wrapper") (body (optimizeForDesktop s))
    = count (by_class "table-wrapper") (body s) ∧
  count (by_class "table-wrapper")
      (body (optimizeForMobile (optimizeForDesktop (optimizeForMobile s))))
    = (count (by_class "table-wrapper") (body s) + 2 * count (by_class "table") (body s))%nat.
Proof.
  split; [by apply count_optimizeForTablet|]. split; [by apply count_optimizeForDesktop|].
  destruct (optimizeForMobile_counts (optimizeForDesktop (optimizeForMobile s))) as [_ ->].
  rewrite !count_optimizeForDesktop by done.
  destruct (optimizeForMobile_counts s) as [-> ->]. lia.
Qed.

(** ** The parts of the sidebar move together *)

(** X28: [toggleSidebar] keeps the parts of the sidebar in step.  After a
    call, with or without argument, on a page with the sidebar element:
    the sidebar carries [show] exactly when it carries [open]; [<body>]
    carries [sidebar-open] exactly when the sidebar is open and the window
    is at most 1024 pixels wide; and so is the overlay visible, when the
    page has one. *)
Theorem sidebar_parts_in_step force s :
  present (getElementById "sidebar" (body s)) = true →
  let s' := toggleSidebar force s in
  let covering := sidebar_open s' && (innerWidth s' <=? 1024)%Z in
  (∀ e, getElementById "sidebar" (body s') = Some e →
        contains "show" (classList e) = sidebar_open s') ∧
  contains "sidebar-open" (body_classList s') = covering ∧
  (present (getElementById "sidebarOverlay" (body s)) = true →
   overlay_visible s' = covering).
Proof.
  intros Hp. cbv zeta.
  rewrite (proj2 (currentDevice_toggleSidebar force s)).
  unfold toggleSidebar, sidebar_open.
  destruct (getElementById "sidebar" (body s)) as [sb|] eqn:E; [|done].
  set (b := match force with Some b => b | None => negb (contains "open" (classList sb)) end).
  destruct (setSidebarVisibility_page b s) as [Hb Hc]; [by rewrite E|].
  rewrite Hb, Hc, getElementById_sidebar_doc, E. cbn [fmap option_fmap option_map].
  rewrite !classList_on_classList, (contains_toggle_ne "open" "show") by done.
  rewrite !contains_toggle. split; [|split].
  - intros e [= <-]. rewrite !classList_on_classList. apply contains_toggle.
  - done.
  - intros Ho. apply setSidebarVisibility_overlay; [by rewrite E|done].
Qed.

Lemma sidebar_parts_in_step_witness :
  let s' := toggleSidebar None (initial 800 [] sample_page) in
  sidebar_open s' = true ∧
  contains "sidebar-open" (body_classList s') = true ∧ overlay_visible s' = true.
Proof.
  cbv zeta.
  destruct (sidebar_parts_in_step None (initial 800 [] sample_page) eq_refl) as (_ & H2 & H3).
  split; [by vm_compute|]. split; [exact H2|]. by apply H3.
Defined.

(** ** Resizes and the sidebar *)

(** X29: a resize that stays in the recorded device class leaves the
    document and the classes of [<body>] untouched, so a sidebar the user
    opened stays open; a resize into the mobile class leaves the sidebar
    closed; a resize into the tablet or the desktop class leaves it open, on
    a page that has an element of class [sidebar] and the element with id
    [sidebar]. *)
Theorem resize_and_sidebar w s :
  (device_class w = currentDevice s →
   body (on_resize w s) = body s ∧ body_classList (on_resize w s) = body_classList s) ∧
  (device_class w ≠ currentDevice s → device_class w = Mobile →
   sidebar_open (on_resize w s) = false) ∧
  (device_class w ≠ currentDevice s → device_class w ≠ Mobile →
   present (querySelector (by_class "sidebar") (body s)) = true →
   present (getElementById "sidebar" (body s)) = true →
   sidebar_open (on_resize w s) = true).
Proof.
  unfold on_resize. rewrite handleResize_eq, detectDevice_eq.
  change (innerWidth (set_innerWidth w s)) with w.
  change (currentDevice (set_innerWidth w s)) with (currentDevice s).
  split; [|split].
  - intros E. by rewrite decide_True.
  - intros E Hm. rewrite decide_False by done.
    unfold optimizeForDevice. cbn [currentDevice console_log set_currentDevice].
    rewrite Hm. apply sidebar_open_optimizeForMobile.
  - intros E Hm Hq Hs. rewrite decide_False by done.
    set (s1 := console_log _ (console_log _ _)).
    assert (sidebar_open (optimizeForDevice s1) = sidebar_open (showFullSidebar s1)) as ->.
    { unfold optimizeForDevice.
      assert (currentDevice s1 = device_class w) as -> by done.
      destruct (device_class w); [done|..].
      - destruct (optimizeForTablet_page s1) as (_ & Hb & _).
        apply (sidebar_open_variant _ _ tablet_style); [apply tablet_style_frame|done].
      - destruct (optimizeForDesktop_page s1) as (_ & Hb & _).
        apply (sidebar_open_variant _ _ desktop_style); [apply desktop_style_frame|done]. }
    rewrite sidebar_open_showFullSidebar.
    assert (body s1 = body s) as -> by done. by rewrite Hq, Hs.
Qed.

Lemma resize_and_sidebar_witness :
  let s := toggleSidebar (Some true) (init (initial 500 [] sample_page)) in
  (body (on_resize 600 s) = body s ∧ body_classList (on_resize 600 s) = body_classList s) ∧
  sidebar_open (on_resize 500 (init (initial 1920 [] sample_page))) = false ∧
  sidebar_open (on_resize 1920 (init (initial 500 [] sample_page))) = true.
Proof.
  cbv zeta. split; [|split].
  - by apply (proj1 (resize_and_sidebar 600
      (toggleSidebar (Some true) (init (initial 500 [] sample_page))))).
  - by apply (proj1 (proj2 (resize_and_sidebar 500 (init (initial 1920 [] sample_page))))).
  - by apply (proj2 (proj2 (resize_and_sidebar 1920 (init (initial 500 [] sample_page))))).
Defined.

(** ** [optimizeContentArea] *)

Lemma content_style_idempotent p m e :
  set_style "marginLeft" m (set_style "padding" p
    (set_style "marginLeft" m (set_style "padding" p e)))
  = set_style "marginLeft" m (set_style "padding" p e).
Proof.
  destruct e as [t i cl st]. unfold set_style. cbn [style tagName id classList].
  destruct (bool_decide (p = "")), (bool_decide (m = "")); style_eq.
Qed.

Lemma on_first_idempotent sel g doc :
  (∀ e, sel (g e) = sel e) → (∀ e, g (g e) = g e) →
  on_first sel g (on_first sel g doc) = on_first sel g doc.
Proof.
  intros Hsel Hg. apply on_first_fixed. intros e.
  rewrite querySelector_on_first_same by done.
  destruct (querySelector sel doc) as [e0|]; [|done].
  intros [= <-]. apply Hg.
Qed.

(** X30: [optimizeContentArea] is idempotent and touches the content area
    only.  A second call changes nothing, and a call keeps the number of
    elements of every class. *)
Theorem optimizeContentArea_idempotent s :
  optimizeContentArea (optimizeContentArea s) = optimizeContentArea s ∧
  ∀ c, count (by_class c) (body (optimizeContentArea s)) = count (by_class c) (body s).
Proof.
  unfold optimizeContentArea.
  destruct (present (querySelector (by_class "main-content") (body s))) eqn:Hq; cbn [negb].
  2: { by rewrite Hq. }
  split.
  - destruct (currentDevice s) eqn:Hd; cbn [body on_body currentDevice].
    all: rewrite present_querySelector_on_first, Hq by done; cbn [negb].
    all: unfold on_body; cbn [body currentDevice innerWidth body_classList console].
    all: rewrite Hd, on_first_idempotent; [done|done|].
    all: intros e; apply content_style_idempotent.
  - intros c. destruct (currentDevice s); cbn [body on_body]; by rewrite count_on_first.
Qed.
